(** * Squid Bingo: a shallow embedding of [bingo.js] and [relay.js]

    The development follows the source file by file: the draw generator
    ([generateRandomNumber] and its two rejection loops), the claim
    verification ([verifyClaim]), then the peer itself ([BingoApp]) with its
    relay, its timers and its command handlers.

    Conventions.
    - Card and ball numbers are integers ([Z]); client identifiers are
      strings, as [generateClientId] renders them.
    - [Math.random()] is a source of doubles in the interval [0,1).  A
      double is a [spec_float] of binary64, and the arithmetic of
      [generateRandomNumber] is the arithmetic of doubles, roundings
      included.  Each number [Math.random()] returns is taken from a list
      threaded through the code that draws.  A rejection loop consumes one
      draw per iteration, and a loop that has not finished when the supplied
      draws run out returns [None].
    - A message handed to the relay is appended to the list [sent].
    - [setTimeout]/[setInterval] register a timer whose callback is named by a
      constructor of [Callback]; [fireTimer] runs it.
    - The page slots of [this.elements] hold what they display, not markup. *)

From Stdlib Require Import List ZArith Lia Bool String Arith FinFun.
From Stdlib Require Import SpecFloat.
From Stdlib Require HexString.
From Stdlib Require Import Sorted.
Import ListNotations.

Local Open Scope Z_scope.

(* ================================================================== *)
(** ** JavaScript array primitives used by the source *)
(* ================================================================== *)

Module JsArray.

(** [array.includes(x)] on an array of integers. *)
Definition includes (array : list Z) (x : Z) : bool :=
  existsb (Z.eqb x) array.

(** [array.indexOf(x)]: the first index holding [x], or [-1]. *)
Fixpoint indexOf_from (i : Z) (array : list Z) (x : Z) : Z :=
  match array with
  | [] => -1
  | y :: rest => if Z.eqb y x then i else indexOf_from (i + 1) rest x
  end.

Definition indexOf (array : list Z) (x : Z) : Z := indexOf_from 0 array x.

(** [array.slice(i, j)] for [0 <= i <= j]. *)
Definition slice {A} (i j : nat) (array : list A) : list A :=
  firstn (j - i) (skipn i array).

(** [array.filter((_, i) => p(i))]: filtering on the index alone. *)
Fixpoint filter_index_from {A} (i : nat) (p : nat -> bool) (array : list A)
  : list A :=
  match array with
  | [] => []
  | x :: rest =>
      if p i then x :: filter_index_from (S i) p rest
      else filter_index_from (S i) p rest
  end.

Definition filter_index {A} (p : nat -> bool) (array : list A) : list A :=
  filter_index_from 0 p array.

(** [array.includes(x)] on an array of strings. *)
Definition includes_str (array : list string) (x : string) : bool :=
  existsb (String.eqb x) array.

End JsArray.
Import JsArray.

(* ================================================================== *)
(** ** JavaScript numbers: IEEE 754 binary64 *)
(* ================================================================== *)

(** A JavaScript number is a [spec_float] of the Standard Library's
    [SpecFloat], whose operations, taken at precision 53 and exponent bound
    1024, are the binary64 operations, each rounding to the nearest, ties to
    even. *)
Module Number.

Definition prec : Z := 53.
Definition emax : Z := 1024.

(** The number an integer literal denotes: the nearest double. *)
Definition of_Z (z : Z) : spec_float := binary_normalize prec emax z 0 false.

(** The double nearest to [j / 2^t]; it is [j / 2^t] itself when [j] has at
    most 53 bits. *)
Definition dyadic (j t : Z) : spec_float :=
  binary_normalize prec emax j (- t) false.

(** [x + y], [x - y] and [x * y]. *)
Definition add (x y : spec_float) : spec_float := SFadd prec emax x y.
Definition sub (x y : spec_float) : spec_float := SFsub prec emax x y.
Definition mul (x y : spec_float) : spec_float := SFmul prec emax x y.

(** The largest integer not above a finite number: [m * 2^e] shifted to the
    units.  A number that is an integer is read exactly; what is not finite
    has no integer reading and gives [0]. *)
Definition to_Z (x : spec_float) : Z :=
  match x with
  | S754_finite s m e => Z.shiftl (cond_Zopp s (Zpos m)) e
  | _ => 0
  end.

(** [Math.floor(x)]: zeros, infinities and NaN are returned as they are. *)
Definition floor (x : spec_float) : spec_float :=
  match x with
  | S754_finite s m e => binary_normalize prec emax (to_Z x) 0 s
  | _ => x
  end.

(** [Number.isSafeInteger(z)], for an integer [z]. *)
Definition isSafeInteger (z : Z) : Prop := Z.abs z <= 2 ^ 53 - 1.

End Number.

(* ================================================================== *)
(** ** The draw generator (bingo.js, lines 186-230) *)
(* ================================================================== *)

(** A value [Math.random()] may return: a double [u] with [0 <= u < 1]. *)
Definition unit_interval (u : spec_float) : Prop :=
  valid_binary Number.prec Number.emax u = true /\
  SFleb (Number.of_Z 0) u = true /\
  SFltb u (Number.of_Z 1) = true.

(** [generateRandomNumber (min, max)]:
    [Math.floor(Math.random() * (max - min + 1)) + min], where [u] is the
    value [Math.random()] returned.  The difference, the two sums and the
    product are double operations; the result is an integer-valued double,
    read as an integer. *)
Definition generateRandomNumber (min max : Z) (u : spec_float) : Z :=
  Number.to_Z
    (Number.add
       (Number.floor
          (Number.mul u
             (Number.add (Number.sub (Number.of_Z max) (Number.of_Z min))
                (Number.of_Z 1))))
       (Number.of_Z min)).

(** [generateRandomNumbers (min, max, length)]: the [while] loop, started
    with [numbers = []].  One draw is consumed per iteration. *)
Fixpoint generateRandomNumbers_loop (min max length : Z) (numbers : list Z)
  (draws : list spec_float) {struct draws} : option (list Z * list spec_float) :=
  if Z.of_nat (List.length numbers) <? length then
    match draws with
    | [] => None
    | u :: draws' =>
        let r := generateRandomNumber min max u in
        if indexOf numbers r =? -1
        then generateRandomNumbers_loop min max length (numbers ++ [r]) draws'
        else generateRandomNumbers_loop min max length numbers draws'
    end
  else Some (numbers, draws).

Definition generateRandomNumbers (min max length : Z) (draws : list spec_float)
  : option (list Z * list spec_float) :=
  generateRandomNumbers_loop min max length [] draws.

(** The loop variable [number] of [generateRandomNumberNotAlreadyCalled]
    starts as [false] and then holds a number; [!number] is true for [false]
    and for [0]. *)
Inductive FalseOrNumber :=
| JsFalse
| JsNumber (n : Z).

Definition js_not (v : FalseOrNumber) : bool :=
  match v with
  | JsFalse => true
  | JsNumber n => n =? 0
  end.

(** [generateRandomNumberNotAlreadyCalled (min, max, array)]. *)
Fixpoint generateRandomNumberNotAlreadyCalled_loop (min max : Z)
  (array : list Z) (number : FalseOrNumber) (draws : list spec_float) {struct draws}
  : option (FalseOrNumber * list spec_float) :=
  if js_not number then
    match draws with
    | [] => None
    | u :: draws' =>
        let r := generateRandomNumber min max u in
        if indexOf array r =? -1
        then generateRandomNumberNotAlreadyCalled_loop min max array
               (JsNumber r) draws'
        else generateRandomNumberNotAlreadyCalled_loop min max array
               number draws'
    end
  else Some (number, draws).

(** The loop only leaves with a truthy [number], that is with a number; the
    [JsFalse] branch below is never taken
    (see [generateRandomNumberNotAlreadyCalled_loop_number]). *)
Definition generateRandomNumberNotAlreadyCalled (min max : Z)
  (array : list Z) (draws : list spec_float) : option (Z * list spec_float) :=
  match generateRandomNumberNotAlreadyCalled_loop min max array JsFalse draws
  with
  | Some (JsNumber n, draws') => Some (n, draws')
  | Some (JsFalse, _) => None
  | None => None
  end.

(* ================================================================== *)
(** ** Claim verification (bingo.js, lines 375-400) *)
(* ================================================================== *)

(** The [for (let i = 0; i < gamecard.length; i += 5)] loop.  The index grows
    by 5 at every turn, so [length gamecard] turns are always enough. *)
Fixpoint rows_loop (fuel i : nat) (gamecard : list Z) (rows : list (list Z))
  : list (list Z) :=
  match fuel with
  | O => rows
  | S fuel' =>
      if (i <? List.length gamecard)%nat
      then rows_loop fuel' (i + 5) gamecard (rows ++ [slice i (i + 5) gamecard])
      else rows
  end.

Definition card_rows (gamecard : list Z) : list (list Z) :=
  rows_loop (List.length gamecard) 0 gamecard [].

(** [[...Array(5).keys()].map(column => gamecard.filter((_, i) => i % 5 === column))] *)
Definition card_columns (gamecard : list Z) : list (list Z) :=
  map (fun column => filter_index (fun i => (i mod 5 =? column)%nat) gamecard)
      (seq 0 5).

(** [verifyClaim (gamecard)], reading [this.game.called]. *)
Definition verifyClaim (called gamecard : list Z) : bool :=
  let rows := card_rows gamecard in
  let columns := card_columns gamecard in
  let cardRowsAndCols := rows ++ columns in
  fold_left
    (fun claimValid line =>
       if forallb (fun number => includes called number) line
       then true else claimValid)
    cardRowsAndCols false.

(* ================================================================== *)
(** ** The relay (relay.js) *)
(* ================================================================== *)

(** The wire shape of a message: one constructor per [command] tag, with its
    payload fields. *)
Inductive Command :=
| Hostidentify
| Iamhost (clientID : string)
| Join (clientID : string)
| Joined (clientID : string)
| Hold (clientID : string)
| Leave (clientID : string)
| Players (players : list string)
| Start
| Reset
| Call (number : Z) (calledNumbers : list Z)
| Claim (claimer : string) (gamecard : list Z)
| Claimmade (claimer : string)
| Claimvalid (claimer : string)
| Claiminvalid (claimer : string)
| Unrecognised (tag : string).

(** A relay: the client's identity and, in order, every message it has
    handed to [send].  [send] serialises its argument at once
    ([JSON.stringify]), so a message holds the value its payload had when it
    was sent. *)
Record Relay := mkRelay {
  clientID : string;
  sent : list Command
}.

Module RelayM.

Definition send (json : Command) (r : Relay) : Relay :=
  mkRelay (clientID r) (sent r ++ [json]).

Definition getGameHost (r : Relay) : Relay := send Hostidentify r.
Definition joinGame (r : Relay) : Relay := send (Join (clientID r)) r.
Definition joined (id : string) (r : Relay) : Relay := send (Joined id) r.
Definition hold (r : Relay) : Relay := send (Hold (clientID r)) r.
Definition leaveGame (r : Relay) : Relay := send (Leave (clientID r)) r.
Definition startGame (r : Relay) : Relay := send Start r.
Definition resetGame (r : Relay) : Relay := send Reset r.
Definition callNumber (number : Z) (calledNumbers : list Z) (r : Relay)
  : Relay := send (Call number calledNumbers) r.
Definition claim (gamecard : list Z) (r : Relay) : Relay :=
  send (Claim (clientID r) gamecard) r.
Definition claimMade (claimer : string) (r : Relay) : Relay :=
  send (Claimmade claimer) r.
Definition claimValid (claimer : string) (r : Relay) : Relay :=
  send (Claimvalid claimer) r.
Definition claimInvalid (claimer : string) (r : Relay) : Relay :=
  send (Claiminvalid claimer) r.
Definition broadcastPlayers (players : list string) (r : Relay) : Relay :=
  send (Players players) r.
Definition identifyAsHost (r : Relay) : Relay :=
  send (Iamhost (clientID r)) r.

End RelayM.

(* ================================================================== *)
(** ** The peer's state (bingo.js, constructor) *)
(* ================================================================== *)

Inductive Role := player | host.

(** The only two values the code ever stores in [game.status]. *)
Inductive Status := joining | playing.

Definition Role_eqb (a b : Role) : bool :=
  match a, b with
  | player, player | host, host => true
  | _, _ => false
  end.

Definition Status_eqb (a b : Status) : bool :=
  match a, b with
  | joining, joining | playing, playing => true
  | _, _ => false
  end.

(** [this.party] *)
Record Party := mkParty {
  party_host : option string;
  party_role : Role;
  party_players : list string
}.

(** [this.game] *)
Record Game := mkGame {
  game_status : Status;
  game_card : list Z;
  game_called : list Z;
  game_disqualified : list string
}.

(** One [<div class="player ...">] of the player list. *)
Record PlayerDiv := mkPlayerDiv {
  div_player : string;
  div_you : bool;
  div_host : bool
}.

(** [this.elements]: what each slot of the page currently shows. *)
Record Elements := mkElements {
  status_innerText : string;
  players_innerHTML : list PlayerDiv;
  called_innerHTML : list Z;
  next_innerText : option Z;
  startButton_disabled : bool;
  resetButton_disabled : bool;
  claimButton_disabled : bool;
  gamecard_innerHTML : list (Z * bool)
}.

(** The body of every function handed to [setTimeout] or [setInterval]. *)
Inductive Callback :=
| cb_possiblyAssumeHost
| cb_getReady
| cb_tryToJoinGame
| cb_clearStatus
| cb_callNumber
| cb_claimValid (claimer : string)
| cb_claimInvalid (claimer : string).

(** A pending timer. [timer_repeats] is [true] for [setInterval]. *)
Record Timer := mkTimer {
  timer_id : nat;
  timer_callback : Callback;
  timer_delay : Z;
  timer_repeats : bool
}.

Record BingoApp := mkBingoApp {
  relay : Relay;
  elements : Elements;
  classList : list string;
  party : Party;
  game : Game;
  waitingToJoin : bool;
  role : option Role;
  hostWaitTimeout : option nat;
  getReadyInterval : option nat;
  callingInterval : option nat;
  gameWaitingTimeout : option nat;
  timers : list Timer;
  nextTimerId : nat
}.

(** *** Field updates *)

Definition set_relay (r : Relay) (a : BingoApp) : BingoApp :=
  mkBingoApp r (elements a) (classList a) (party a) (game a)
    (waitingToJoin a) (role a) (hostWaitTimeout a) (getReadyInterval a)
    (callingInterval a) (gameWaitingTimeout a) (timers a) (nextTimerId a).

Definition set_elements (e : Elements) (a : BingoApp) : BingoApp :=
  mkBingoApp (relay a) e (classList a) (party a) (game a)
    (waitingToJoin a) (role a) (hostWaitTimeout a) (getReadyInterval a)
    (callingInterval a) (gameWaitingTimeout a) (timers a) (nextTimerId a).

Definition set_classList (c : list string) (a : BingoApp) : BingoApp :=
  mkBingoApp (relay a) (elements a) c (party a) (game a)
    (waitingToJoin a) (role a) (hostWaitTimeout a) (getReadyInterval a)
    (callingInterval a) (gameWaitingTimeout a) (timers a) (nextTimerId a).

Definition set_party (p : Party) (a : BingoApp) : BingoApp :=
  mkBingoApp (relay a) (elements a) (classList a) p (game a)
    (waitingToJoin a) (role a) (hostWaitTimeout a) (getReadyInterval a)
    (callingInterval a) (gameWaitingTimeout a) (timers a) (nextTimerId a).

Definition set_game (g : Game) (a : BingoApp) : BingoApp :=
  mkBingoApp (relay a) (elements a) (classList a) (party a) g
    (waitingToJoin a) (role a) (hostWaitTimeout a) (getReadyInterval a)
    (callingInterval a) (gameWaitingTimeout a) (timers a) (nextTimerId a).

Definition set_waitingToJoin (w : bool) (a : BingoApp) : BingoApp :=
  mkBingoApp (relay a) (elements a) (classList a) (party a) (game a)
    w (role a) (hostWaitTimeout a) (getReadyInterval a)
    (callingInterval a) (gameWaitingTimeout a) (timers a) (nextTimerId a).

Definition set_role (r : option Role) (a : BingoApp) : BingoApp :=
  mkBingoApp (relay a) (elements a) (classList a) (party a) (game a)
    (waitingToJoin a) r (hostWaitTimeout a) (getReadyInterval a)
    (callingInterval a) (gameWaitingTimeout a) (timers a) (nextTimerId a).

Definition set_hostWaitTimeout (h : option nat) (a : BingoApp) : BingoApp :=
  mkBingoApp (relay a) (elements a) (classList a) (party a) (game a)
    (waitingToJoin a) (role a) h (getReadyInterval a)
    (callingInterval a) (gameWaitingTimeout a) (timers a) (nextTimerId a).

Definition set_getReadyInterval (h : option nat) (a : BingoApp) : BingoApp :=
  mkBingoApp (relay a) (elements a) (classList a) (party a) (game a)
    (waitingToJoin a) (role a) (hostWaitTimeout a) h
    (callingInterval a) (gameWaitingTimeout a) (timers a) (nextTimerId a).

Definition set_callingInterval (h : option nat) (a : BingoApp) : BingoApp :=
  mkBingoApp (relay a) (elements a) (classList a) (party a) (game a)
    (waitingToJoin a) (role a) (hostWaitTimeout a) (getReadyInterval a)
    h (gameWaitingTimeout a) (timers a) (nextTimerId a).

Definition set_gameWaitingTimeout (h : option nat) (a : BingoApp)
  : BingoApp :=
  mkBingoApp (relay a) (elements a) (classList a) (party a) (game a)
    (waitingToJoin a) (role a) (hostWaitTimeout a) (getReadyInterval a)
    (callingInterval a) h (timers a) (nextTimerId a).

Definition set_timers (t : list Timer) (n : nat) (a : BingoApp) : BingoApp :=
  mkBingoApp (relay a) (elements a) (classList a) (party a) (game a)
    (waitingToJoin a) (role a) (hostWaitTimeout a) (getReadyInterval a)
    (callingInterval a) (gameWaitingTimeout a) t n.

Definition set_status_innerText (s : string) (a : BingoApp) : BingoApp :=
  let e := elements a in
  set_elements
    (mkElements s (players_innerHTML e) (called_innerHTML e)
       (next_innerText e) (startButton_disabled e) (resetButton_disabled e)
       (claimButton_disabled e) (gamecard_innerHTML e)) a.

Definition set_players_innerHTML (h : list PlayerDiv) (a : BingoApp)
  : BingoApp :=
  let e := elements a in
  set_elements
    (mkElements (status_innerText e) h (called_innerHTML e)
       (next_innerText e) (startButton_disabled e) (resetButton_disabled e)
       (claimButton_disabled e) (gamecard_innerHTML e)) a.

Definition set_called_innerHTML (h : list Z) (a : BingoApp) : BingoApp :=
  let e := elements a in
  set_elements
    (mkElements (status_innerText e) (players_innerHTML e) h
       (next_innerText e) (startButton_disabled e) (resetButton_disabled e)
       (claimButton_disabled e) (gamecard_innerHTML e)) a.

Definition set_next_innerText (n : option Z) (a : BingoApp) : BingoApp :=
  let e := elements a in
  set_elements
    (mkElements (status_innerText e) (players_innerHTML e)
       (called_innerHTML e) n (startButton_disabled e)
       (resetButton_disabled e) (claimButton_disabled e)
       (gamecard_innerHTML e)) a.

Definition set_startButton_disabled (b : bool) (a : BingoApp) : BingoApp :=
  let e := elements a in
  set_elements
    (mkElements (status_innerText e) (players_innerHTML e)
       (called_innerHTML e) (next_innerText e) b (resetButton_disabled e)
       (claimButton_disabled e) (gamecard_innerHTML e)) a.

Definition set_resetButton_disabled (b : bool) (a : BingoApp) : BingoApp :=
  let e := elements a in
  set_elements
    (mkElements (status_innerText e) (players_innerHTML e)
       (called_innerHTML e) (next_innerText e) (startButton_disabled e) b
       (claimButton_disabled e) (gamecard_innerHTML e)) a.

Definition set_claimButton_disabled (b : bool) (a : BingoApp) : BingoApp :=
  let e := elements a in
  set_elements
    (mkElements (status_innerText e) (players_innerHTML e)
       (called_innerHTML e) (next_innerText e) (startButton_disabled e)
       (resetButton_disabled e) b (gamecard_innerHTML e)) a.

Definition set_gamecard_innerHTML (h : list (Z * bool)) (a : BingoApp)
  : BingoApp :=
  let e := elements a in
  set_elements
    (mkElements (status_innerText e) (players_innerHTML e)
       (called_innerHTML e) (next_innerText e) (startButton_disabled e)
       (resetButton_disabled e) (claimButton_disabled e) h) a.

Definition set_party_host (h : option string) (a : BingoApp) : BingoApp :=
  set_party (mkParty h (party_role (party a)) (party_players (party a))) a.

Definition set_party_role (r : Role) (a : BingoApp) : BingoApp :=
  set_party (mkParty (party_host (party a)) r (party_players (party a))) a.

Definition set_party_players (p : list string) (a : BingoApp) : BingoApp :=
  set_party (mkParty (party_host (party a)) (party_role (party a)) p) a.

Definition set_game_status (s : Status) (a : BingoApp) : BingoApp :=
  let g := game a in
  set_game (mkGame s (game_card g) (game_called g) (game_disqualified g)) a.

Definition set_game_card (c : list Z) (a : BingoApp) : BingoApp :=
  let g := game a in
  set_game (mkGame (game_status g) c (game_called g) (game_disqualified g)) a.

Definition set_game_called (c : list Z) (a : BingoApp) : BingoApp :=
  let g := game a in
  set_game (mkGame (game_status g) (game_card g) c (game_disqualified g)) a.

Definition set_game_disqualified (d : list string) (a : BingoApp)
  : BingoApp :=
  let g := game a in
  set_game (mkGame (game_status g) (game_card g) (game_called g) d) a.

(** A call of a relay method: [this.relay.m(...)]. *)
Definition on_relay (m : Relay -> Relay) (a : BingoApp) : BingoApp :=
  set_relay (m (relay a)) a.

(* ================================================================== *)
(** ** Timers *)
(* ================================================================== *)

(** [setTimeout(callback, delay)] and [setInterval(callback, delay)]: the
    timer gets the next identifier, which is returned as its handle. *)
Definition schedule (repeats : bool) (callback : Callback) (delay : Z)
  (a : BingoApp) : nat * BingoApp :=
  let id := nextTimerId a in
  (id, set_timers (timers a ++ [mkTimer id callback delay repeats]) (S id) a).

Definition setTimeout := schedule false.
Definition setInterval := schedule true.

(** [clearTimeout(handle)] and [clearInterval(handle)]; nothing happens for
    [undefined] or for a handle that is no longer pending. *)
Definition clearTimer (handle : option nat) (a : BingoApp) : BingoApp :=
  match handle with
  | None => a
  | Some id =>
      set_timers (filter (fun t => negb (timer_id t =? id)%nat) (timers a))
        (nextTimerId a) a
  end.

Definition clearTimeout := clearTimer.
Definition clearInterval := clearTimer.

Definition pending (id : nat) (a : BingoApp) : option Timer :=
  find (fun t => (timer_id t =? id)%nat) (timers a).

(* ================================================================== *)
(** ** The methods of [BingoApp] (bingo.js), in the order of the source *)
(* ================================================================== *)

Local Open Scope string_scope.

Definition initialGame : Game := mkGame joining [] [] [].

Definition setInitialState (a : BingoApp) : BingoApp :=
  let a := set_status_innerText "Waiting to join..." a in
  let a := set_called_innerHTML [] a in
  let a := set_next_innerText None a in
  let a := set_startButton_disabled true a in
  let a := set_resetButton_disabled true a in
  let a := set_claimButton_disabled true a in
  set_game initialGame a.

Definition getCurrentHost (a : BingoApp) : BingoApp :=
  on_relay RelayM.getGameHost a.

Definition updatePlayerList (a : BingoApp) : BingoApp :=
  set_players_innerHTML
    (map (fun p =>
            mkPlayerDiv p
              (String.eqb p (clientID (relay a)))
              (match party_host (party a) with
               | Some h => String.eqb p h
               | None => false
               end))
         (party_players (party a))) a.

Definition addPlayer (playerId : string) (a : BingoApp) : BingoApp :=
  let a := set_party_players (party_players (party a) ++ [playerId]) a in
  updatePlayerList a.

Definition removePlayer (playerId : string) (a : BingoApp) : BingoApp :=
  let a :=
    set_party_players
      (filter (fun p => negb (String.eqb p playerId))
         (party_players (party a))) a in
  updatePlayerList a.

Definition becomeHost (a : BingoApp) : BingoApp :=
  let a := set_party_role host a in
  let a := set_party_host (Some (clientID (relay a))) a in
  let a := set_role (Some host) a in
  let a := on_relay RelayM.identifyAsHost a in
  let a := set_waitingToJoin false a in
  addPlayer (clientID (relay a)) a.

Definition possiblyAssumeHost (a : BingoApp) : BingoApp :=
  if (List.length (party_players (party a)) <? 1)%nat
  then becomeHost a
  else a.

Definition tryToJoinGame (a : BingoApp) : BingoApp :=
  let a := on_relay RelayM.joinGame a in
  set_status_innerText "Trying to join game..." a.

Definition leaveGame (a : BingoApp) : BingoApp :=
  on_relay RelayM.leaveGame a.

Definition getReady (a : BingoApp) : BingoApp :=
  let a := set_status_innerText "Waiting for players..." a in
  if Role_eqb (party_role (party a)) host
     && negb (Status_eqb (game_status (game a)) playing)
     && (1 <? List.length (party_players (party a)))%nat
  then
    let a := set_status_innerText "Ready to start" a in
    let a := set_startButton_disabled false a in
    clearInterval (getReadyInterval a) a
  else a.

Definition startGame (a : BingoApp) : BingoApp :=
  if Role_eqb (party_role (party a)) host
  then on_relay RelayM.startGame a
  else a.

Definition resetGame (a : BingoApp) : BingoApp :=
  if Role_eqb (party_role (party a)) host
  then on_relay RelayM.resetGame a
  else a.

Definition enableClaimButton (a : BingoApp) : BingoApp :=
  set_claimButton_disabled false a.

Definition lodgeClaim (a : BingoApp) : BingoApp :=
  let a := set_claimButton_disabled true a in
  on_relay (RelayM.claim (game_card (game a))) a.

Definition updateGameCardDisplay (a : BingoApp) : BingoApp :=
  set_gamecard_innerHTML
    (map (fun number => (number, includes (game_called (game a)) number))
         (game_card (game a))) a.

Definition generateGameCard (a : BingoApp) (draws : list spec_float)
  : option (BingoApp * list spec_float) :=
  match generateRandomNumbers 1 90 25 draws with
  | Some (numbers, draws') =>
      Some (updateGameCardDisplay (set_game_card numbers a), draws')
  | None => None
  end.

Definition updateCalledDisplay (a : BingoApp) : BingoApp :=
  set_called_innerHTML (game_called (game a)) a.

Definition startCalling (a : BingoApp) : BingoApp :=
  let (id, a) := setInterval cb_callNumber 5000 a in
  set_callingInterval (Some id) a.

Definition pauseCalling (a : BingoApp) : BingoApp :=
  clearInterval (callingInterval a) a.

(** The function [startCalling] hands to [setInterval]: one draw tick. *)
Definition callNumber (a : BingoApp) (draws : list spec_float)
  : option (BingoApp * list spec_float) :=
  match generateRandomNumberNotAlreadyCalled 1 90 (game_called (game a)) draws
  with
  | Some (number, draws') =>
      let a := set_game_called (game_called (game a) ++ [number]) a in
      let a := on_relay (RelayM.callNumber number (game_called (game a))) a in
      if (List.length (game_called (game a)) =? 90)%nat
      then Some (pauseCalling a, draws')
      else Some (a, draws')
  | None => None
  end.

Definition commandHostIdentify (a : BingoApp) : BingoApp :=
  if Role_eqb (party_role (party a)) host
  then on_relay RelayM.identifyAsHost a
  else a.

Definition commandHostIdentified (id : string) (a : BingoApp) : BingoApp :=
  let a := set_party_host (Some id) a in
  let a := clearTimeout (hostWaitTimeout a) a in
  if waitingToJoin a then tryToJoinGame a else a.

Definition commandJoinGame (id : string) (a : BingoApp) : BingoApp :=
  if Role_eqb (party_role (party a)) host then
    if Status_eqb (game_status (game a)) joining then
      let a := addPlayer id a in
      let a := on_relay (RelayM.joined id) a in
      on_relay (RelayM.broadcastPlayers (party_players (party a))) a
    else on_relay RelayM.hold a
  else a.

Definition commandJoinedGame (id : string) (a : BingoApp) : BingoApp :=
  if String.eqb id (clientID (relay a)) then
    let a := set_waitingToJoin false a in
    clearTimeout (gameWaitingTimeout a) a
  else a.

Definition commandHold (a : BingoApp) : BingoApp :=
  if waitingToJoin a then
    let a := set_status_innerText "Waiting for next game to start..." a in
    let a := clearTimeout (gameWaitingTimeout a) a in
    let (id, a) := setTimeout cb_tryToJoinGame 5000 a in
    set_gameWaitingTimeout (Some id) a
  else a.

Definition commandLeaveGame (id : string) (a : BingoApp) : BingoApp :=
  if Role_eqb (party_role (party a)) host then
    let a := removePlayer id a in
    on_relay (RelayM.broadcastPlayers (party_players (party a))) a
  else a.

(** [this.classList.add(c)] and [this.classList.remove(c)] *)
Definition classList_add (c : string) (a : BingoApp) : BingoApp :=
  if existsb (String.eqb c) (classList a) then a
  else set_classList (classList a ++ [c]) a.

Definition classList_remove (c : string) (a : BingoApp) : BingoApp :=
  set_classList (filter (fun x => negb (String.eqb x c)) (classList a)) a.

Definition commandStartGame (a : BingoApp) (draws : list spec_float)
  : option (BingoApp * list spec_float) :=
  let a := clearInterval (getReadyInterval a) a in
  let a := set_game_status playing a in
  let a := set_status_innerText "Game is starting..." a in
  let (_, a) := setTimeout cb_clearStatus 5000 a in
  let a := classList_add "started" a in
  let a := enableClaimButton a in
  match generateGameCard a draws with
  | Some (a, draws') =>
      if Role_eqb (party_role (party a)) host
      then Some (startCalling a, draws')
      else Some (a, draws')
  | None => None
  end.

Definition commandResetGame (a : BingoApp) : BingoApp :=
  let a := classList_remove "finished" a in
  let a := setInitialState a in
  let (id, a) := setInterval cb_getReady 1000 a in
  set_getReadyInterval (Some id) a.

Definition commandCall (number : Z) (a : BingoApp) : BingoApp :=
  let a :=
    if negb (Role_eqb (party_role (party a)) host)
    then set_game_called (game_called (game a) ++ [number]) a
    else a in
  let a := updateCalledDisplay a in
  let a := set_next_innerText (Some number) a in
  updateGameCardDisplay a.

(** [commandClaim]: the delay of the outcome is
    [generateRandomNumber(4, 8) * 1000] or
    [generateRandomNumber(3, 6) * 1000] milliseconds. *)
Definition commandClaim (claimer : string) (gamecard : list Z)
  (a : BingoApp) (draws : list spec_float) : option (BingoApp * list spec_float) :=
  if Role_eqb (party_role (party a)) host
     && negb (includes_str (game_disqualified (game a)) claimer)
  then
    let a := pauseCalling a in
    let a := on_relay (RelayM.claimMade claimer) a in
    if verifyClaim (game_called (game a)) gamecard then
      match draws with
      | u :: draws' =>
          let (_, a) :=
            setTimeout (cb_claimValid claimer)
              (generateRandomNumber 4 8 u * 1000) a in
          Some (a, draws')
      | [] => None
      end
    else
      match draws with
      | u :: draws' =>
          let (_, a) :=
            setTimeout (cb_claimInvalid claimer)
              (generateRandomNumber 3 6 u * 1000) a in
          Some (a, draws')
      | [] => None
      end
  else Some (a, draws).

(** The two functions [commandClaim] hands to [setTimeout]. *)
Definition claimValidOutcome (claimer : string) (a : BingoApp) : BingoApp :=
  on_relay (RelayM.claimValid claimer) a.

Definition claimInvalidOutcome (claimer : string) (a : BingoApp) : BingoApp :=
  let a :=
    set_game_disqualified (game_disqualified (game a) ++ [claimer]) a in
  let a := on_relay (RelayM.claimInvalid claimer) a in
  startCalling a.

Definition commandClaimMade (claimer : string) (a : BingoApp) : BingoApp :=
  set_status_innerText
    ("Player " ++ claimer ++ " has claimed Bingo! Checking their card...") a.

Definition commandClaimValid (claimer : string) (a : BingoApp) : BingoApp :=
  let a := classList_remove "started" a in
  let a := classList_add "finished" a in
  let a := set_status_innerText ("Player " ++ claimer ++ " has won!") a in
  set_resetButton_disabled false a.

Definition commandClaimInvalid (claimer : string) (a : BingoApp) : BingoApp :=
  set_status_innerText
    ("Player " ++ claimer
     ++ " has an invalid card! They're disqualified and the game goes on...")
    a.

Definition commandUpdatePlayers (players : list string) (a : BingoApp)
  : BingoApp :=
  if negb (Role_eqb (party_role (party a)) host) then
    let a := set_party_players [] a in
    fold_left (fun a p => addPlayer p a) players a
  else a.

(** [handleCommand]: the [switch] on [command.command]. *)
Definition handleCommand (command : Command) (a : BingoApp) (draws : list spec_float)
  : option (BingoApp * list spec_float) :=
  match command with
  | Hostidentify => Some (commandHostIdentify a, draws)
  | Iamhost id => Some (commandHostIdentified id a, draws)
  | Join id => Some (commandJoinGame id a, draws)
  | Joined id => Some (commandJoinedGame id a, draws)
  | Hold _ => Some (commandHold a, draws)
  | Leave id => Some (commandLeaveGame id a, draws)
  | Players ps => Some (commandUpdatePlayers ps a, draws)
  | Start => commandStartGame a draws
  | Reset => Some (commandResetGame a, draws)
  | Call number _ => Some (commandCall number a, draws)
  | Claim claimer gamecard => commandClaim claimer gamecard a draws
  | Claimmade claimer => Some (commandClaimMade claimer a, draws)
  | Claimvalid claimer => Some (commandClaimValid claimer a, draws)
  | Claiminvalid claimer => Some (commandClaimInvalid claimer a, draws)
  | Unrecognised _ => Some (a, draws)
  end.

(** The constructor, for a relay whose [generateClientId] returned [id];
    [u] is the value of [Math.random()] that sets the host-wait timeout.
    The page starts with empty slots and no class. *)
Definition newBingoApp (id : string) (u : spec_float) : BingoApp :=
  let a :=
    mkBingoApp (mkRelay id [])
      (mkElements "" [] [] None false false false [])
      []
      (mkParty None player [])
      initialGame
      true None None None None None [] 1%nat in
  let a := setInitialState a in
  let a := getCurrentHost a in
  let (h, a) :=
    setTimeout cb_possiblyAssumeHost (generateRandomNumber 5000 8000 u) a in
  let a := set_hostWaitTimeout (Some h) a in
  let (g, a) := setInterval cb_getReady 1000 a in
  set_getReadyInterval (Some g) a.

(* ================================================================== *)
(** ** The event loop: what can happen to a peer *)
(* ================================================================== *)

Definition runCallback (callback : Callback) (a : BingoApp) (draws : list spec_float)
  : option (BingoApp * list spec_float) :=
  match callback with
  | cb_possiblyAssumeHost => Some (possiblyAssumeHost a, draws)
  | cb_getReady => Some (getReady a, draws)
  | cb_tryToJoinGame => Some (tryToJoinGame a, draws)
  | cb_clearStatus => Some (set_status_innerText "" a, draws)
  | cb_callNumber => callNumber a draws
  | cb_claimValid claimer => Some (claimValidOutcome claimer a, draws)
  | cb_claimInvalid claimer => Some (claimInvalidOutcome claimer a, draws)
  end.

(** A pending timer fires: a timeout is spent, an interval stays. *)
Definition fireTimer (id : nat) (a : BingoApp) (draws : list spec_float)
  : option (BingoApp * list spec_float) :=
  match pending id a with
  | Some t =>
      let a := if timer_repeats t then a else clearTimer (Some id) a in
      runCallback (timer_callback t) a draws
  | None => Some (a, draws)
  end.

Inductive Event :=
| Deliver (command : Command)
| Fire (id : nat)
| ClickStart
| ClickReset
| ClickClaim
| BeforeUnload.

Definition handleEvent (e : Event) (a : BingoApp) (draws : list spec_float)
  : option (BingoApp * list spec_float) :=
  match e with
  | Deliver command => handleCommand command a draws
  | Fire id => fireTimer id a draws
  | ClickStart => Some (startGame a, draws)
  | ClickReset => Some (resetGame a, draws)
  | ClickClaim => Some (lodgeClaim a, draws)
  | BeforeUnload => Some (leaveGame a, draws)
  end.

(** A run of the event loop. *)
Fixpoint run (events : list Event) (a : BingoApp) (draws : list spec_float)
  : option (BingoApp * list spec_float) :=
  match events with
  | [] => Some (a, draws)
  | e :: rest =>
      match handleEvent e a draws with
      | Some (a', draws') => run rest a' draws'
      | None => None
      end
  end.

(* ================================================================== *)
(** ** Vocabulary of the statements, and two sample peers *)
(* ================================================================== *)

(** Numbers in a range. *)
Definition in_range (min max x : Z) : Prop := min <= x <= max.

(** Bounds that double arithmetic handles exactly: [min], [max] and the size
    of the range are safe integers. *)
Definition safe_range (min max : Z) : Prop :=
  Number.isSafeInteger min /\ Number.isSafeInteger max /\
  Number.isSafeInteger (max - min + 1).

(** A draw that brings the number of rank [k] of a range of [n] numbers:
    [k / n] rounded up to a multiple of [2^-26]. *)
Definition draw (n k : Z) : spec_float :=
  Number.dyadic ((k * 2 ^ 26 + n - 1) / n) 26.

(** The loop does finish when the draws bring enough new numbers: the draws
    of ranks [from], [from + 1], ... of a range of [n] numbers bring
    [min + from], [min + from + 1], ... in turn. *)
Definition ascending_draws (n : Z) (from count : nat) : list spec_float :=
  map (fun k => draw n (Z.of_nat k)) (seq from count).

(** What the shift of a rounding keeps of a number [M] shifted [n] places to
    the right: the quotient, and how the remainder compares with one half. *)
Definition shr_inv (M n : Z) (mrs : shr_record) : Prop :=
  0 <= shr_m mrs /\
  exists rem, M = shr_m mrs * 2 ^ n + rem /\ 0 <= rem < 2 ^ n /\
    match shr_r mrs, shr_s mrs with
    | false, false => rem = 0
    | false, true => 0 < rem /\ 2 * rem < 2 ^ n
    | true, false => 2 * rem = 2 ^ n
    | true, true => 2 ^ n < 2 * rem
    end.

(** The double of sign [s] and magnitude [c * 2^e], for an integer
    [0 < c < 2^53]: the mantissa is brought to 53 bits. *)
Definition canon (s : bool) (c e : Z) : spec_float :=
  S754_finite s (Z.to_pos (c * 2 ^ (53 - Zdigits2 c))) (Zdigits2 c + e - 53).

(** The index sets of the ten lines of a 5 x 5 card. *)
Definition row_indices (r : nat) : list nat := seq (5 * r) 5.
Definition column_indices (c : nat) : list nat :=
  filter (fun i => (i mod 5 =? c)%nat) (seq 0 25).

Definition line_indices : list (list nat) :=
  (map row_indices (seq 0 5) ++ map column_indices (seq 0 5))%list.

(** Row [r] of a card is the index block [5r .. 5r+4]; column [c] is the
    class of the indices congruent to [c] modulo 5. *)
Definition row_called (called gamecard : list Z) (r : nat) : Prop :=
  forall i, (5 * r <= i < 5 * r + 5)%nat -> In (nth i gamecard 0) called.

Definition column_called (called gamecard : list Z) (c : nat) : Prop :=
  forall i, (i < 25)%nat -> (i mod 5 = c)%nat -> In (nth i gamecard 0) called.

(** A peer that has just loaded the page, and the same peer once its
    host-wait timeout (timer 1) has fired with nobody else around. *)
Definition samplePeer : BingoApp := newBingoApp "a1b2c3d4" (Number.dyadic 1 1).

Definition sampleHost : BingoApp :=
  match fireTimer 1 samplePeer [] with
  | Some (a, _) => a
  | None => samplePeer
  end.

(** The sample host once it has judged a claim of peer [0badc0de] invalid. *)
Definition sampleHostAfterBadClaim : BingoApp :=
  claimInvalidOutcome "0badc0de" sampleHost.

(** A game in progress on the sample host: a second peer has joined, the
    game has started (the host's card is 1..25; timer 4 is the draw loop) and
    the balls 1 to 5 have been called. *)
Definition samplePlayingHost : BingoApp :=
  match
    run [Deliver (Join "5e1f0001"); Deliver Start;
         Fire 4; Fire 4; Fire 4; Fire 4; Fire 4]
      sampleHost (ascending_draws 90 0 25 ++ ascending_draws 90 0 5)
  with
  | Some (a, _) => a
  | None => sampleHost
  end.

(** The outcome of a claim, as [commandClaim] schedules it: the timer it
    registers, with its callback and its delay in milliseconds. *)
Definition outcome_timer (a : BingoApp) (claimer : string)
  (gamecard : list Z) (delay : Z) : Timer :=
  mkTimer (nextTimerId a)
    (if verifyClaim (game_called (game a)) gamecard
     then cb_claimValid claimer else cb_claimInvalid claimer)
    delay false.

(** The invariant of the host's list of called numbers. *)
Definition called_ok (called : list Z) : Prop :=
  NoDup called /\ Forall (in_range 1 90) called.

Definition host_inv (a : BingoApp) : Prop :=
  party_role (party a) = host /\ called_ok (game_called (game a)).

(* ================================================================== *)
(** ** The client identifier (relay.js, generateClientId) *)
(* ================================================================== *)

(** [n.toString(16)] for a non-negative integer: lower-case hexadecimal
    digits, most significant first, no leading zero. *)
Definition Number_toString16 (n : N) : string :=
  match n with
  | N0 => "0"
  | Npos p => HexString.Raw.of_pos p ""
  end.

(** [generateClientId ()], where [uint32] is the 32-bit value that
    [window.crypto.getRandomValues] put in the array. *)
Definition generateClientId (uint32 : N) : string :=
  Number_toString16 uint32.

(* ================================================================== *)
(** ** Vocabulary of the further properties *)
(* ================================================================== *)

(** Timer identifiers are handed out in increasing order. *)
Definition timers_fresh (a : BingoApp) : Prop :=
  forall t, In t (timers a) -> (timer_id t < nextTimerId a)%nat.

(** The pending timers that run a given callback. *)
Definition Callback_eqb (x y : Callback) : bool :=
  match x, y with
  | cb_possiblyAssumeHost, cb_possiblyAssumeHost => true
  | cb_getReady, cb_getReady => true
  | cb_tryToJoinGame, cb_tryToJoinGame => true
  | cb_clearStatus, cb_clearStatus => true
  | cb_callNumber, cb_callNumber => true
  | cb_claimValid c, cb_claimValid d => String.eqb c d
  | cb_claimInvalid c, cb_claimInvalid d => String.eqb c d
  | _, _ => false
  end.

Definition timers_running (callback : Callback) (a : BingoApp) : list Timer :=
  filter (fun t => Callback_eqb (timer_callback t) callback) (timers a).

(** The messages a peer sends on its own behalf, whatever its role. *)
Definition player_message (id : string) (m : Command) : Prop :=
  match m with
  | Hostidentify => True
  | Join i | Leave i => i = id
  | Claim i _ => i = id
  | _ => False
  end.

(** The callbacks only a host registers. *)
Definition host_callback (callback : Callback) : Prop :=
  match callback with
  | cb_callNumber | cb_claimValid _ | cb_claimInvalid _ => True
  | _ => False
  end.

(** What holds of a peer while it is a player: it has sent nothing but its
    own messages, no host callback is pending, and its start button is
    disabled. *)
Definition player_inv (id : string) (a : BingoApp) : Prop :=
  party_role (party a) = player ->
  Forall (player_message id) (sent (relay a)) /\
  (forall t, In t (timers a) -> ~ host_callback (timer_callback t)) /\
  startButton_disabled (elements a) = true.

(** Every pending join-retry timeout is the one whose handle the peer
    keeps. *)
Definition retry_inv (a : BingoApp) : Prop :=
  forall t, In t (timers a) -> timer_callback t = cb_tryToJoinGame ->
            gameWaitingTimeout a = Some (timer_id t).

(** The sample host once all 90 numbers have been called. *)
Definition sampleExhaustedHost : BingoApp :=
  match
    run (Deliver (Join "5e1f0001") :: Deliver Start :: repeat (Fire 4) 90)
      sampleHost (ascending_draws 90 0 25 ++ ascending_draws 90 0 90)
  with
  | Some (a, _) => a
  | None => sampleHost
  end.

(** A second peer, still a player, that has heard of the sample host. *)
Definition sampleJoiner : BingoApp :=
  commandHostIdentified "a1b2c3d4" (newBingoApp "5e1f0001" (Number.dyadic 1 2)).

(* ================================================================== *)
(** * Properties *)
(* ================================================================== *)

Local Close Scope string_scope.

(* ------------------------------------------------------------------ *)
(** ** Array primitives *)
(* ------------------------------------------------------------------ *)

Lemma includes_In (array : list Z) (x : Z) :
  includes array x = true <-> In x array.
Proof.
  unfold includes. rewrite existsb_exists. split.
  - intros [y [Hy Heq]]. apply Z.eqb_eq in Heq. now subst.
  - intros H. exists x. split; [assumption | apply Z.eqb_refl].
Qed.

Lemma indexOf_from_absent (array : list Z) (x i : Z) :
  0 <= i -> (indexOf_from i array x = -1 <-> ~ In x array).
Proof.
  revert i. induction array as [|y rest IH]; intros i Hi; simpl.
  - tauto.
  - destruct (Z.eqb_spec y x) as [->|Hne].
    + split; [lia | intros H; exfalso; apply H; now left].
    + rewrite IH by lia. split.
      * intros H [Heq|Hin]; [congruence | contradiction].
      * intros H Hin. apply H. now right.
Qed.

Lemma indexOf_absent (array : list Z) (x : Z) :
  indexOf array x = -1 <-> ~ In x array.
Proof. apply indexOf_from_absent. lia. Qed.

Lemma indexOf_eqb_absent (array : list Z) (x : Z) :
  (indexOf array x =? -1) = negb (includes array x).
Proof.
  destruct (includes array x) eqn:E; simpl.
  - apply Z.eqb_neq. rewrite indexOf_absent. intros H. apply H.
    now apply includes_In.
  - apply Z.eqb_eq, indexOf_absent. intros H. apply includes_In in H.
    congruence.
Qed.

Lemma includes_str_In (array : list string) (x : string) :
  includes_str array x = true <-> In x array.
Proof.
  unfold includes_str. rewrite existsb_exists. split.
  - intros [y [Hy Heq]]. apply String.eqb_eq in Heq. now subst.
  - intros H. exists x. split; [assumption | apply String.eqb_refl].
Qed.

(** A duplicate-free list of integers of [[min, max]] has at most
    [max - min + 1] elements. *)
Lemma NoDup_range_length (min max : Z) (l : list Z) :
  NoDup l -> Forall (in_range min max) l ->
  Z.of_nat (List.length l) <= Z.max 0 (max - min + 1).
Proof.
  intros Hnd Hall.
  set (univ := map (fun k => min + Z.of_nat k) (seq 0 (Z.to_nat (max - min + 1)))).
  assert (Hincl : incl l univ).
  { intros x Hx. rewrite Forall_forall in Hall. specialize (Hall x Hx).
    unfold in_range in Hall. unfold univ. apply in_map_iff.
    exists (Z.to_nat (x - min)). split; [lia|]. apply in_seq. lia. }
  pose proof (NoDup_incl_length Hnd Hincl) as Hlen.
  unfold univ in Hlen. rewrite length_map, length_seq in Hlen. lia.
Qed.

Lemma Forall_suffix {A} (P : A -> Prop) (l used rest : list A) :
  l = (used ++ rest)%list -> Forall P l -> Forall P rest.
Proof. intros -> H. apply Forall_app in H. tauto. Qed.

(* ------------------------------------------------------------------ *)
(** ** Timers *)
(* ------------------------------------------------------------------ *)

Lemma pending_clearTimer (id : nat) (a : BingoApp) :
  pending id (clearTimer (Some id) a) = None.
Proof.
  unfold pending, clearTimer. cbn [timers set_timers].
  induction (timers a) as [|t ts IH]; [reflexivity|].
  cbn [filter]. destruct (Nat.eqb_spec (timer_id t) id) as [Heq|Hne];
    cbn [negb]; [exact IH|].
  cbn [find]. destruct (Nat.eqb_spec (timer_id t) id); [contradiction|].
  exact IH.
Qed.

(* ------------------------------------------------------------------ *)
(** ** JavaScript numbers *)
(* ------------------------------------------------------------------ *)

(** The rounding of [SpecFloat], at the precision of binary64. *)
Local Abbreviation fexp := (SpecFloat.fexp Number.prec Number.emax).
Local Abbreviation BRA := (binary_round_aux Number.prec Number.emax).

Lemma fexp_eq (e : Z) : fexp e = Z.max (e - 53) (-1074).
Proof. reflexivity. Qed.

Lemma digits2_pos_bounds (p : positive) :
  2 ^ (Zpos (digits2_pos p) - 1) <= Zpos p < 2 ^ Zpos (digits2_pos p).
Proof.
  induction p as [p IH|p IH|]; cbn [digits2_pos];
    rewrite ?Pos2Z.inj_succ.
  - replace (Z.succ (Zpos (digits2_pos p)) - 1)
      with (Z.succ (Zpos (digits2_pos p) - 1)) by lia.
    rewrite !Z.pow_succ_r by lia. lia.
  - replace (Z.succ (Zpos (digits2_pos p)) - 1)
      with (Z.succ (Zpos (digits2_pos p) - 1)) by lia.
    rewrite !Z.pow_succ_r by lia. lia.
  - cbn. lia.
Qed.

Lemma Zdigits2_bounds (x : Z) :
  0 < x -> 2 ^ (Zdigits2 x - 1) <= x < 2 ^ Zdigits2 x.
Proof.
  destruct x as [|p|p]; try lia. intros _. apply digits2_pos_bounds.
Qed.

Lemma Zdigits2_nonneg (x : Z) : 0 <= Zdigits2 x.
Proof. destruct x; cbn; lia. Qed.

Lemma Zdigits2_unique (x d : Z) :
  0 < d -> 2 ^ (d - 1) <= x < 2 ^ d -> Zdigits2 x = d.
Proof.
  intros Hd [Hlo Hhi].
  assert (Hx : 0 < x) by (pose proof (Z.pow_pos_nonneg 2 (d - 1)); lia).
  pose proof (Zdigits2_bounds x Hx) as [Hlo' Hhi'].
  pose proof (Zdigits2_nonneg x) as Hn.
  destruct (Z.lt_trichotomy (Zdigits2 x) d) as [Hlt|[Heq|Hgt]];
    [exfalso | exact Heq | exfalso].
  - assert (2 ^ Zdigits2 x <= 2 ^ (d - 1)) by (apply Z.pow_le_mono_r; lia).
    lia.
  - assert (2 ^ d <= 2 ^ (Zdigits2 x - 1)) by (apply Z.pow_le_mono_r; lia).
    lia.
Qed.

Lemma Zdigits2_le (x k : Z) : 0 <= k -> 0 <= x < 2 ^ k -> Zdigits2 x <= k.
Proof.
  intros Hk [Hlo Hhi].
  destruct (Z.eq_dec x 0) as [->|Hx]; [cbn; lia|].
  pose proof (Zdigits2_bounds x ltac:(lia)) as [Hlo' _].
  destruct (Z_le_gt_dec (Zdigits2 x) k) as [|Hgt]; [assumption|exfalso].
  assert (2 ^ k <= 2 ^ (Zdigits2 x - 1)) by (apply Z.pow_le_mono_r; lia).
  lia.
Qed.

Lemma Zdigits2_shift (x k : Z) :
  0 < x -> 0 <= k -> Zdigits2 (x * 2 ^ k) = Zdigits2 x + k.
Proof.
  intros Hx Hk. pose proof (Zdigits2_bounds x Hx) as [Hlo Hhi].
  assert (Hd : 0 < Zdigits2 x) by (destruct x; cbn; lia).
  pose proof (Z.pow_pos_nonneg 2 k ltac:(lia) Hk) as Hp.
  apply Zdigits2_unique; [lia|].
  replace (Zdigits2 x + k - 1) with ((Zdigits2 x - 1) + k) by lia.
  rewrite !Z.pow_add_r by lia. nia.
Qed.

Lemma iter_pos_nat {A} (f : A -> A) (p : positive) (x : A) :
  iter_pos f p x = Nat.iter (Pos.to_nat p) f x.
Proof.
  revert x. induction p as [p IH|p IH|]; intros x; cbn [iter_pos].
  - rewrite !IH, Pos2Nat.inj_xI.
    replace (S (2 * Pos.to_nat p)) with (Pos.to_nat p + S (Pos.to_nat p))%nat
      by lia.
    rewrite Nat.iter_add, Nat.iter_succ_r. reflexivity.
  - rewrite !IH, Pos2Nat.inj_xO.
    replace (2 * Pos.to_nat p)%nat with (Pos.to_nat p + Pos.to_nat p)%nat
      by lia.
    rewrite Nat.iter_add. reflexivity.
  - reflexivity.
Qed.

Lemma shr_1_nonneg (m : Z) (r s : bool) :
  0 <= m ->
  shr_1 (Build_shr_record m r s)
  = Build_shr_record (m / 2) (Z.odd m) (r || s).
Proof.
  intros Hm. destruct m as [|p|p]; [reflexivity | | lia].
  destruct p as [p|p|]; cbn [shr_1 Z.odd]; f_equal.
  - apply (Z.div_unique _ _ _ 1); lia.
  - apply (Z.div_unique _ _ _ 0); lia.
Qed.

Lemma shr_inv_step (M n : Z) (mrs : shr_record) :
  0 <= n -> shr_inv M n mrs -> shr_inv M (n + 1) (shr_1 mrs).
Proof.
  intros Hn [Hm [rem [HM [Hrem Hloc]]]].
  destruct mrs as [m r s]. cbn [shr_m shr_r shr_s] in *.
  rewrite shr_1_nonneg by assumption. unfold shr_inv.
  cbn [shr_m shr_r shr_s].
  pose proof (Z.pow_pos_nonneg 2 n ltac:(lia) Hn) as Hp.
  rewrite Z.pow_add_r, Z.pow_1_r by lia.
  pose proof (Z.div2_odd m) as Hodd. rewrite Z.div2_div in Hodd.
  split; [apply Z.div_pos; lia|].
  exists (rem + (if Z.odd m then 1 else 0) * 2 ^ n).
  generalize dependent (2 ^ n). intros P HM Hrem Hloc HP.
  generalize dependent (m / 2). intros q Hodd.
  destruct (Z.odd m), r, s; cbn [orb Z.b2z] in *; subst m M;
    repeat split; try lia; try ring.
Qed.

Lemma shr_inv_iter (M : Z) (k : nat) :
  0 <= M ->
  shr_inv M (Z.of_nat k) (Nat.iter k shr_1 (Build_shr_record M false false)).
Proof.
  intros HM. induction k as [|k IH].
  - split; [assumption|]. exists 0.
    simpl. lia.
  - rewrite Nat2Z.inj_succ, <- Z.add_1_r, Nat.iter_succ.
    apply shr_inv_step; [lia | exact IH].
Qed.

(** The first shift of [binary_round_aux]. *)
Lemma shr_fexp_exact_inv (M E : Z) :
  0 <= M ->
  let d := Z.max 0 (fexp (Zdigits2 M + E) - E) in
  exists mrs, shr_fexp Number.prec Number.emax M E loc_Exact = (mrs, E + d) /\
              shr_inv M d mrs.
Proof.
  intros HM d. unfold shr_fexp, shr, shr_record_of_loc.
  fold (fexp (Zdigits2 M + E)).
  destruct (fexp (Zdigits2 M + E) - E) as [|p|p] eqn:Hd; subst d.
  - eexists. split; [rewrite Z.add_0_r; reflexivity|].
    change (Z.max 0 0) with (Z.of_nat 0). apply (shr_inv_iter M 0 HM).
  - eexists. split; [rewrite Z.max_r by lia; reflexivity|].
    rewrite iter_pos_nat, Z.max_r by lia.
    rewrite <- positive_nat_Z. apply shr_inv_iter. assumption.
  - eexists. split; [rewrite Z.max_l by lia; rewrite Z.add_0_r; reflexivity|].
    rewrite Z.max_l by lia.
    change 0 with (Z.of_nat 0) at 1. apply (shr_inv_iter M 0 HM).
Qed.

Lemma round_nearest_even_inv (M d : Z) (mrs : shr_record) :
  0 <= d -> shr_inv M d mrs ->
  let R := round_nearest_even (shr_m mrs) (loc_of_shr_record mrs) in
  shr_m mrs <= R <= shr_m mrs + 1 /\
  2 * Z.abs (R * 2 ^ d - M) <= 2 ^ d /\
  (M mod 2 ^ d = 0 -> R = shr_m mrs).
Proof.
  intros Hd [Hm [rem [HM [Hrem Hloc]]]] R. subst R.
  destruct mrs as [m r s]. cbn [shr_m shr_r shr_s] in *.
  pose proof (Z.pow_pos_nonneg 2 d ltac:(lia) Hd) as Hp.
  assert (Hmod : M mod 2 ^ d = rem).
  { symmetry. apply (Z.mod_unique _ _ m); [lia | lia]. }
  rewrite Hmod.
  destruct r, s; cbn [loc_of_shr_record round_nearest_even];
    try destruct (Z.even m); repeat split; try nia; try lia.
Qed.

Lemma shr_inv_zero (R : Z) (mrs : shr_record) :
  shr_inv R 0 mrs -> shr_m mrs = R.
Proof.
  intros [_ [rem [HR [Hrem _]]]]. rewrite Z.pow_0_r in *. lia.
Qed.

Lemma shr_inv_quotient (M d : Z) (mrs : shr_record) :
  0 <= d -> shr_inv M d mrs -> shr_m mrs = M / 2 ^ d.
Proof.
  intros Hd [_ [rem [HM [Hrem _]]]].
  apply (Z.div_unique _ _ _ rem); lia.
Qed.

(** [binary_round_aux] on an exact product [M * 2^E]: the mantissa [R] it
    keeps is [M / 2^d] rounded to the nearest, ties to even, where [d] is
    the number of places dropped. *)
Lemma binary_round_aux_struct (s : bool) (M : positive) (E : Z) :
  let d := Z.max 0 (fexp (Zpos (digits2_pos M) + E) - E) in
  E + d + 1 <= 971 ->
  exists R : Z,
    0 <= R /\ 2 * Z.abs (R * 2 ^ d - Zpos M) <= 2 ^ d /\
    (Zpos M mod 2 ^ d = 0 -> R = Zpos M / 2 ^ d) /\
    ((R = 0 /\ BRA s (Zpos M) E loc_Exact = S754_zero s) \/
     (exists m', Zpos m' = R /\ R < 2 ^ 53 /\
                 BRA s (Zpos M) E loc_Exact = S754_finite s m' (E + d)) \/
     (R = 2 ^ 53 /\
      BRA s (Zpos M) E loc_Exact
      = S754_finite s (2 ^ 52)%positive (E + d + 1))).
Proof.
  intros d Hover.
  assert (Hd : 0 <= d) by (unfold d; lia).
  destruct (shr_fexp_exact_inv (Zpos M) E ltac:(lia)) as [mrs [Hshr Hinv]].
  change (Zdigits2 (Zpos M)) with (Zpos (digits2_pos M)) in Hshr, Hinv.
  fold d in Hshr, Hinv.
  destruct (round_nearest_even_inv (Zpos M) d mrs Hd Hinv)
    as (HR1 & HR2 & HR3).
  set (R := round_nearest_even (shr_m mrs) (loc_of_shr_record mrs)) in *.
  pose proof (shr_inv_quotient _ _ _ Hd Hinv) as Hq.
  assert (Hm0 : 0 <= shr_m mrs) by apply Hinv.
  assert (Hm53 : shr_m mrs < 2 ^ 53).
  { destruct Hinv as [_ [rem [HM [Hrem _]]]].
    pose proof (digits2_pos_bounds M) as [_ Hhi].
    assert (Hle : 2 ^ Zpos (digits2_pos M) <= 2 ^ (d + 53)).
    { apply Z.pow_le_mono_r; [lia|]. unfold d. rewrite fexp_eq. lia. }
    rewrite Z.pow_add_r in Hle by lia.
    pose proof (Z.pow_pos_nonneg 2 d ltac:(lia) Hd). nia. }
  assert (Hemin : -1074 <= E + d) by (unfold d; rewrite fexp_eq; lia).
  destruct (shr_fexp_exact_inv R (E + d) ltac:(lia))
    as [mrs2 [Hshr2 Hinv2]].
  exists R. split; [lia|]. split; [exact HR2|]. split.
  { intros Hmod. rewrite <- Hq. now apply HR3. }
  unfold binary_round_aux. rewrite Hshr. fold R. rewrite Hshr2.
  destruct (Z_lt_ge_dec R (2 ^ 53)) as [Hlt|Hge].
  - assert (Hd2 : Z.max 0 (fexp (Zdigits2 R + (E + d)) - (E + d)) = 0).
    { pose proof (Zdigits2_le R 53 ltac:(lia) ltac:(lia)).
      rewrite fexp_eq. lia. }
    rewrite Hd2 in *. apply shr_inv_zero in Hinv2. rewrite Hinv2.
    rewrite Z.add_0_r.
    destruct R as [|m'|m'] eqn:HeqR; [left; split; reflexivity | | lia].
    right. left. exists m'. split; [reflexivity|]. split; [assumption|].
    destruct (Z.leb_spec (E + d) (Number.emax - Number.prec)) as [_|Hbad];
      [reflexivity|].
    unfold Number.emax, Number.prec in Hbad. lia.
  - assert (HR53 : R = 2 ^ 53) by lia.
    assert (Hd2 : Z.max 0 (fexp (Zdigits2 R + (E + d)) - (E + d)) = 1).
    { rewrite HR53. change (Zdigits2 (2 ^ 53)) with 54.
      rewrite fexp_eq. lia. }
    rewrite Hd2 in *.
    assert (Hm2 : shr_m mrs2 = 2 ^ 52).
    { destruct Hinv2 as [_ [rem [HR' [Hrem _]]]].
      rewrite HR53 in HR'. change (2 ^ 1) with 2 in *.
      change (2 ^ 53) with 9007199254740992 in HR'.
      change (2 ^ 52) with 4503599627370496. lia. }
    rewrite Hm2. right. right. split; [assumption|].
    change (2 ^ 52) with (Zpos (2 ^ 52)).
    cbv iota beta.
    destruct (Z.leb_spec (E + d + 1) (Number.emax - Number.prec)) as [_|Hbad];
      [reflexivity|].
    unfold Number.emax, Number.prec in Hbad. lia.
Qed.

(** When nothing is lost the result is explicit. *)
Lemma binary_round_aux_exact (s : bool) (M : positive) (E : Z) :
  let d := Z.max 0 (fexp (Zpos (digits2_pos M) + E) - E) in
  E + d + 1 <= 971 ->
  Zpos M mod 2 ^ d = 0 ->
  BRA s (Zpos M) E loc_Exact
  = S754_finite s (Z.to_pos (Zpos M / 2 ^ d)) (E + d).
Proof.
  intros d Hover Hmod.
  assert (Hd : 0 <= d) by (unfold d; lia).
  pose proof (Z.pow_pos_nonneg 2 d ltac:(lia) Hd) as Hp.
  assert (Hq : 0 < Zpos M / 2 ^ d).
  { apply Z.div_str_pos. split; [lia|].
    apply Z.mod_divide in Hmod; [|lia]. apply Z.divide_pos_le; [lia|assumption]. }
  assert (Hq53 : Zpos M / 2 ^ d < 2 ^ 53).
  { pose proof (digits2_pos_bounds M) as [_ Hhi].
    assert (Hle : 2 ^ Zpos (digits2_pos M) <= 2 ^ (d + 53)).
    { apply Z.pow_le_mono_r; [lia|]. unfold d. rewrite fexp_eq. lia. }
    rewrite Z.pow_add_r in Hle by lia.
    apply Z.div_lt_upper_bound; [lia|]. nia. }
  destruct (binary_round_aux_struct s M E Hover)
    as (R & HR0 & _ & Hex & [[HR Hres]|[(m' & Hm' & _ & Hres)|[HR Hres]]]);
    fold d in Hex, Hres; specialize (Hex Hmod).
  - lia.
  - rewrite Hres. f_equal. rewrite <- Hex, <- Hm'. reflexivity.
  - lia.
Qed.

Lemma Pos_iter_xO (m d : positive) :
  Zpos (Pos.iter xO m d) = Zpos m * 2 ^ Zpos d.
Proof.
  induction d as [|d IH] using Pos.peano_ind.
  - cbn [Pos.iter]. lia.
  - rewrite Pos.iter_succ, Pos2Z.inj_xO, IH, Pos2Z.inj_succ,
      Z.pow_succ_r by lia.
    ring.
Qed.

Lemma shl_align_le (mx : positive) (ex ex' : Z) :
  ex' <= ex ->
  exists mx', shl_align mx ex ex' = (mx', ex') /\
              Zpos mx' = Zpos mx * 2 ^ (ex - ex').
Proof.
  intros Hle. unfold shl_align.
  destruct (ex' - ex) as [|p|p] eqn:Hd; try lia.
  - assert (ex' = ex) by lia. subst ex'. exists mx.
    rewrite Z.sub_diag, Z.pow_0_r. split; [reflexivity | lia].
  - eexists. split; [reflexivity|]. rewrite Pos_iter_xO.
    replace (ex - ex') with (Zpos p) by lia. reflexivity.
Qed.

Lemma shl_align_ge (mx : positive) (ex ex' : Z) :
  ex <= ex' -> shl_align mx ex ex' = (mx, ex).
Proof.
  intros Hle. unfold shl_align.
  destruct (ex' - ex) as [|p|p] eqn:Hd; try reflexivity. lia.
Qed.

(** Rounding [c * 2^e], written with any number [k] of trailing zeros in
    the mantissa, is exact when [c] has at most 53 digits. *)
Lemma binary_round_canonical (s : bool) (m : positive) (e c k : Z) :
  0 < c -> 0 <= k -> Zpos m = c * 2 ^ k -> Zdigits2 c <= 53 ->
  -1074 <= Zdigits2 c + e - 53 <= 970 ->
  binary_round Number.prec Number.emax s m (e - k) = canon s c e.
Proof.
  intros Hc Hk Hm Hdc He. unfold binary_round, canon.
  assert (Hdm : Zpos (digits2_pos m) = Zdigits2 c + k).
  { change (Zpos (digits2_pos m)) with (Zdigits2 (Zpos m)).
    rewrite Hm. now apply Zdigits2_shift. }
  assert (Hdc0 : 0 < Zdigits2 c) by (destruct c; cbn; lia).
  set (e0 := Zdigits2 c + e - 53).
  assert (Hfexp : fexp (Zpos (digits2_pos m) + (e - k)) = e0).
  { rewrite fexp_eq, Hdm. unfold e0. lia. }
  rewrite Hfexp.
  destruct (Z_le_gt_dec e0 (e - k)) as [Hle|Hgt].
  - destruct (shl_align_le m (e - k) e0 Hle) as [mz [-> Hmz]].
    assert (Hmz' : Zpos mz = c * 2 ^ (53 - Zdigits2 c)).
    { rewrite Hmz, Hm, <- Z.mul_assoc, <- Z.pow_add_r by lia.
      f_equal. f_equal. unfold e0. lia. }
    assert (Hdz : Zpos (digits2_pos mz) = 53).
    { change (Zpos (digits2_pos mz)) with (Zdigits2 (Zpos mz)).
      rewrite Hmz', Zdigits2_shift by lia. lia. }
    assert (Hd : Z.max 0 (fexp (Zpos (digits2_pos mz) + e0) - e0) = 0).
    { rewrite Hdz, fexp_eq. lia. }
    pose proof (binary_round_aux_exact s mz e0) as Hex. cbv zeta in Hex.
    rewrite Hd, Z.pow_0_r, Z.mod_1_r, Z.div_1_r, Z.add_0_r in Hex.
    rewrite Hex by lia. now rewrite Hmz'.
  - rewrite shl_align_ge by lia.
    set (d := e0 - (e - k)).
    assert (Hd : Z.max 0 (fexp (Zpos (digits2_pos m) + (e - k)) - (e - k))
                 = d) by (rewrite Hfexp; unfold d; lia).
    assert (Hdk : 0 < d <= k) by (unfold d, e0; lia).
    assert (Hsplit : Zpos m = c * 2 ^ (53 - Zdigits2 c) * 2 ^ d).
    { rewrite Hm, <- Z.mul_assoc, <- Z.pow_add_r by lia.
      f_equal. f_equal. unfold d, e0. lia. }
    pose proof (Z.pow_pos_nonneg 2 d ltac:(lia) ltac:(lia)) as Hp.
    pose proof (binary_round_aux_exact s m (e - k)) as Hex. cbv zeta in Hex.
    rewrite Hd in Hex. rewrite Hex.
    + rewrite Hsplit, Z.div_mul by lia. f_equal. unfold d. lia.
    + unfold d, e0. lia.
    + rewrite Hsplit. apply Z.mod_mul. lia.
Qed.

Lemma binary_normalize_canonical (c k e : Z) :
  0 <= k -> Z.abs c < 2 ^ 53 -> c <> 0 ->
  -1074 <= Zdigits2 (Z.abs c) + e - 53 <= 970 ->
  binary_normalize Number.prec Number.emax (c * 2 ^ k) (e - k) false
  = canon (c <? 0) (Z.abs c) e.
Proof.
  intros Hk Hc Hc0 He.
  pose proof (Z.pow_pos_nonneg 2 k ltac:(lia) Hk) as Hp.
  assert (Hdig : Zdigits2 (Z.abs c) <= 53)
    by (apply Zdigits2_le; lia).
  unfold binary_normalize.
  destruct (c * 2 ^ k) as [|m|m] eqn:Hm.
  - nia.
  - assert (0 < c) by nia.
    destruct (Z.ltb_spec c 0); [lia|].
    apply (binary_round_canonical false m e (Z.abs c) k); lia.
  - assert (c < 0) by nia.
    destruct (Z.ltb_spec c 0); [|lia].
    apply (binary_round_canonical true m e (Z.abs c) k); lia.
Qed.

(** The number of an integer below [2^53] in absolute value. *)
Lemma of_Z_canon (z : Z) :
  Z.abs z < 2 ^ 53 -> z <> 0 ->
  Number.of_Z z = canon (z <? 0) (Z.abs z) 0.
Proof.
  intros Hz Hz0. unfold Number.of_Z.
  pose proof (binary_normalize_canonical z 0 0 ltac:(lia) Hz Hz0) as H.
  rewrite Z.pow_0_r, Z.mul_1_r in H. apply H.
  pose proof (Zdigits2_le (Z.abs z) 53 ltac:(lia) ltac:(lia)).
  assert (0 < Zdigits2 (Z.abs z)) by (destruct z; cbn; lia).
  lia.
Qed.

Lemma canon_mantissa (c : Z) :
  0 < c < 2 ^ 53 ->
  Zpos (Z.to_pos (c * 2 ^ (53 - Zdigits2 c))) = c * 2 ^ (53 - Zdigits2 c) /\
  2 ^ 52 <= c * 2 ^ (53 - Zdigits2 c) < 2 ^ 53 /\
  0 < Zdigits2 c <= 53.
Proof.
  intros Hc.
  pose proof (Zdigits2_le c 53 ltac:(lia) ltac:(lia)) as Hd.
  assert (Hd0 : 0 < Zdigits2 c) by (destruct c; cbn; lia).
  pose proof (Zdigits2_bounds c ltac:(lia)) as [Hlo Hhi].
  pose proof (Z.pow_pos_nonneg 2 (53 - Zdigits2 c) ltac:(lia) ltac:(lia)).
  assert (H52 : 2 ^ 52 = 2 ^ (Zdigits2 c - 1) * 2 ^ (53 - Zdigits2 c)).
  { rewrite <- Z.pow_add_r by lia. f_equal. lia. }
  assert (H53 : 2 ^ 53 = 2 ^ Zdigits2 c * 2 ^ (53 - Zdigits2 c)).
  { rewrite <- Z.pow_add_r by lia. f_equal. lia. }
  split; [rewrite Z2Pos.id; nia|]. split; [|lia].
  rewrite H52, H53. nia.
Qed.

Lemma to_Z_of_Z (z : Z) : Z.abs z < 2 ^ 53 -> Number.to_Z (Number.of_Z z) = z.
Proof.
  intros Hz. destruct (Z.eq_dec z 0) as [->|Hz0]; [reflexivity|].
  rewrite of_Z_canon by assumption. unfold canon, Number.to_Z.
  destruct (canon_mantissa (Z.abs z) ltac:(lia)) as (Hm & _ & Hd).
  rewrite Hm, Z.shiftl_div_pow2 by lia.
  replace (- (Zdigits2 (Z.abs z) + 0 - 53)) with (53 - Zdigits2 (Z.abs z))
    by lia.
  pose proof (Z.pow_pos_nonneg 2 (53 - Zdigits2 (Z.abs z))
                ltac:(lia) ltac:(lia)).
  destruct (Z.ltb_spec z 0); cbn [cond_Zopp].
  - rewrite <- Z.mul_opp_l, Z.div_mul by lia. lia.
  - rewrite Z.div_mul by lia. lia.
Qed.

(** Aligning the mantissa of an integer to a smaller exponent. *)
Lemma canon_align (s : bool) (c ez : Z) :
  0 < c < 2 ^ 53 -> ez <= Zdigits2 c - 53 ->
  match canon s c 0 with
  | S754_finite s' m e =>
      s' = s /\ e = Zdigits2 c - 53 /\
      cond_Zopp s' (Zpos (fst (shl_align m e ez)))
      = cond_Zopp s c * 2 ^ (- ez)
  | _ => False
  end.
Proof.
  intros Hc Hez. unfold canon.
  destruct (canon_mantissa c Hc) as (Hm & _ & Hd).
  split; [reflexivity|]. split; [lia|].
  destruct (shl_align_le (Z.to_pos (c * 2 ^ (53 - Zdigits2 c)))
              (Zdigits2 c + 0 - 53) ez ltac:(lia)) as [m' [-> Hm']].
  cbn [fst]. rewrite Hm', Hm, <- Z.mul_assoc, <- Z.pow_add_r by lia.
  replace (53 - Zdigits2 c + (Zdigits2 c + 0 - 53 - ez)) with (- ez) by lia.
  destruct s; cbn [cond_Zopp]; lia.
Qed.

Lemma cond_Zopp_abs (z : Z) : cond_Zopp (z <? 0) (Z.abs z) = z.
Proof. destruct (Z.ltb_spec z 0); cbn [cond_Zopp]; lia. Qed.

Lemma add_of_Z (a b : Z) :
  Z.abs a < 2 ^ 53 -> Z.abs b < 2 ^ 53 -> Z.abs (a + b) < 2 ^ 53 ->
  Number.add (Number.of_Z a) (Number.of_Z b) = Number.of_Z (a + b).
Proof.
  intros Ha Hb Hab.
  destruct (Z.eq_dec a 0) as [->|Ha0].
  { destruct (Z.eq_dec b 0) as [->|Hb0]; [reflexivity|].
    rewrite Z.add_0_l, (of_Z_canon b) by assumption. reflexivity. }
  destruct (Z.eq_dec b 0) as [->|Hb0].
  { rewrite Z.add_0_r, (of_Z_canon a) by assumption. reflexivity. }
  rewrite (of_Z_canon a), (of_Z_canon b) by assumption.
  set (ez := Z.min (Zdigits2 (Z.abs a) - 53) (Zdigits2 (Z.abs b) - 53)).
  pose proof (canon_align (a <? 0) (Z.abs a) ez ltac:(lia) ltac:(unfold ez; lia))
    as Haa.
  pose proof (canon_align (b <? 0) (Z.abs b) ez ltac:(lia) ltac:(unfold ez; lia))
    as Hbb.
  destruct (canon (a <? 0) (Z.abs a) 0) as [| | |sa ma ea]; try contradiction.
  destruct (canon (b <? 0) (Z.abs b) 0) as [| | |sb mb eb]; try contradiction.
  destruct Haa as (-> & -> & Haa), Hbb as (-> & -> & Hbb).
  unfold Number.add, SFadd. fold ez. rewrite Haa, Hbb, !cond_Zopp_abs.
  rewrite <- Z.mul_add_distr_r.
  destruct (canon_mantissa (Z.abs a) ltac:(lia)) as (_ & _ & Hda).
  destruct (canon_mantissa (Z.abs b) ltac:(lia)) as (_ & _ & Hdb).
  destruct (Z.eq_dec (a + b) 0) as [H0|H0].
  - rewrite H0. reflexivity.
  - rewrite (of_Z_canon (a + b)) by assumption.
    replace ez with (0 - (- ez)) at 2 by lia.
    apply binary_normalize_canonical; try lia.
    destruct (canon_mantissa (Z.abs (a + b)) ltac:(lia)) as (_ & _ & Hd).
    lia.
Qed.

Lemma sub_of_Z (a b : Z) :
  Z.abs a < 2 ^ 53 -> Z.abs b < 2 ^ 53 -> Z.abs (a - b) < 2 ^ 53 ->
  Number.sub (Number.of_Z a) (Number.of_Z b) = Number.of_Z (a - b).
Proof.
  intros Ha Hb Hab.
  destruct (Z.eq_dec b 0) as [->|Hb0].
  { rewrite Z.sub_0_r.
    destruct (Z.eq_dec a 0) as [->|Ha0]; [reflexivity|].
    rewrite (of_Z_canon a) by assumption. reflexivity. }
  destruct (Z.eq_dec a 0) as [->|Ha0].
  { rewrite Z.sub_0_l, (of_Z_canon b), (of_Z_canon (- b)) by lia.
    unfold canon. cbn [Number.sub SFsub Number.of_Z binary_normalize].
    rewrite Z.abs_opp. f_equal.
    destruct (Z.ltb_spec b 0), (Z.ltb_spec (- b) 0); try lia; reflexivity. }
  rewrite (of_Z_canon a), (of_Z_canon b) by assumption.
  set (ez := Z.min (Zdigits2 (Z.abs a) - 53) (Zdigits2 (Z.abs b) - 53)).
  pose proof (canon_align (a <? 0) (Z.abs a) ez ltac:(lia) ltac:(unfold ez; lia))
    as Haa.
  pose proof (canon_align (b <? 0) (Z.abs b) ez ltac:(lia) ltac:(unfold ez; lia))
    as Hbb.
  destruct (canon (a <? 0) (Z.abs a) 0) as [| | |sa ma ea]; try contradiction.
  destruct (canon (b <? 0) (Z.abs b) 0) as [| | |sb mb eb]; try contradiction.
  destruct Haa as (-> & -> & Haa), Hbb as (-> & -> & Hbb).
  unfold Number.sub, SFsub. fold ez. rewrite Haa, Hbb, !cond_Zopp_abs.
  rewrite <- Z.mul_sub_distr_r.
  destruct (canon_mantissa (Z.abs a) ltac:(lia)) as (_ & _ & Hda).
  destruct (canon_mantissa (Z.abs b) ltac:(lia)) as (_ & _ & Hdb).
  destruct (Z.eq_dec (a - b) 0) as [H0|H0].
  - rewrite H0. reflexivity.
  - rewrite (of_Z_canon (a - b)) by assumption.
    replace ez with (0 - (- ez)) at 2 by lia.
    apply binary_normalize_canonical; try lia.
    destruct (canon_mantissa (Z.abs (a - b)) ltac:(lia)) as (_ & _ & Hd).
    lia.
Qed.

(** A draw is [0] or [m * 2^e] with [m < 2^53] and [e <= -53]. *)
Lemma unit_interval_inv (u : spec_float) :
  unit_interval u ->
  (exists s, u = S754_zero s) \/
  (exists m e, u = S754_finite false m e /\
               -1074 <= e <= -53 /\ Zpos m < 2 ^ 53).
Proof.
  intros (Hvalid & Hle & Hlt). destruct u as [s|s| |s m e].
  - left. now exists s.
  - destruct s; discriminate.
  - discriminate.
  - right. exists m, e. destruct s; [discriminate|]. split; [reflexivity|].
    cbn [valid_binary] in Hvalid. unfold bounded, canonical_mantissa in Hvalid.
    apply andb_prop in Hvalid. destruct Hvalid as [Hcanon _].
    apply Z.eqb_eq in Hcanon. rewrite fexp_eq in Hcanon.
    pose proof (digits2_pos_bounds m) as [Hlo Hhi].
    assert (Hd : Zpos (digits2_pos m) <= 53) by lia.
    assert (Hm : Zpos m < 2 ^ 53).
    { eapply Z.lt_le_trans; [exact Hhi|]. apply Z.pow_le_mono_r; lia. }
    split; [|assumption].
    change (Number.of_Z 1) with (S754_finite false 4503599627370496 (-52))
      in Hlt.
    unfold SFltb, SFcompare in Hlt.
    destruct (Z.compare_spec e (-52)) as [He|He|He]; try discriminate.
    + subst e. exfalso.
      destruct (Pos.compare_cont Eq m 4503599627370496) eqn:Hc;
        try discriminate.
      assert (Hc' : Zpos m < 4503599627370496) by exact Hc.
      clear Hc Hle Hlt.
      assert (Zpos (digits2_pos m) = 53) by lia.
      assert (2 ^ 52 <= Zpos m) by (replace 52 with (Zpos (digits2_pos m) - 1) by lia; assumption).
      change (2 ^ 52) with 4503599627370496 in *. lia.
    + lia.
Qed.

Lemma floor_nonneg (m : positive) (e : Z) :
  Number.floor (S754_finite false m e)
  = Number.of_Z (Number.to_Z (S754_finite false m e)).
Proof. reflexivity. Qed.

(** [Math.floor(r) + min] for a number [r] that is zero or positive. *)
Lemma add_floor (r : spec_float) (min : Z) :
  ((exists s, r = S754_zero s) \/ (exists m e, r = S754_finite false m e)) ->
  Z.abs (Number.to_Z r) < 2 ^ 53 -> Z.abs min < 2 ^ 53 ->
  Z.abs (Number.to_Z r + min) < 2 ^ 53 ->
  Number.to_Z (Number.add (Number.floor r) (Number.of_Z min))
  = Number.to_Z r + min.
Proof.
  intros [[s ->]|[m [e ->]]] Hr Hmin Hsum.
  - cbn [Number.floor Number.to_Z]. rewrite Z.add_0_l.
    destruct (Z.eq_dec min 0) as [->|Hm0].
    + destruct s; reflexivity.
    + rewrite <- (to_Z_of_Z min) at 2 by assumption.
      rewrite (of_Z_canon min) by assumption. reflexivity.
  - rewrite floor_nonneg, add_of_Z, to_Z_of_Z by assumption. reflexivity.
Qed.

(** What [to_Z] reads in a rounded product. *)
Lemma to_Z_binary_round_aux (M : positive) (E : Z) :
  let d := Z.max 0 (fexp (Zpos (digits2_pos M) + E) - E) in
  E + d + 1 <= 971 ->
  exists R : Z,
    0 <= R /\ 2 * Z.abs (R * 2 ^ d - Zpos M) <= 2 ^ d /\
    (Zpos M mod 2 ^ d = 0 -> R * 2 ^ d = Zpos M) /\
    Number.to_Z (BRA false (Zpos M) E loc_Exact) = Z.shiftl R (E + d) /\
    ((exists s, BRA false (Zpos M) E loc_Exact = S754_zero s) \/
     (exists m e, BRA false (Zpos M) E loc_Exact = S754_finite false m e)).
Proof.
  intros d Hover.
  assert (Hd : 0 <= d) by (unfold d; lia).
  pose proof (Z.pow_pos_nonneg 2 d ltac:(lia) Hd) as Hp.
  destruct (binary_round_aux_struct false M E Hover)
    as (R & HR0 & HR & Hex & Hres). fold d in HR, Hex, Hres.
  exists R. split; [assumption|]. split; [assumption|]. split.
  { intros Hmod. rewrite (Hex Hmod).
    apply Z.mod_divide in Hmod; [|lia]. destruct Hmod as [q Hq].
    rewrite Hq, Z.div_mul by lia. reflexivity. }
  destruct Hres as [[-> ->]|[(m' & Hm' & _ & ->)|[-> ->]]].
  - split; [|left; now exists false]. cbn [Number.to_Z].
    now rewrite Z.shiftl_0_l.
  - split; [|right; now exists m', (E + d)]. cbn [Number.to_Z cond_Zopp].
    now rewrite Hm'.
  - split; [|right; now eexists _, _]. cbn [Number.to_Z cond_Zopp].
    change (2 ^ 53) with (Z.shiftl (Zpos (2 ^ 52)) 1).
    rewrite Z.shiftl_shiftl by lia. f_equal. lia.
Qed.

(** The heart of the range: the product of a draw and an integer [n], once
    rounded, is still below [n]. *)
Lemma mul_unit_interval (u : spec_float) (n : Z) :
  unit_interval u -> 0 < n < 2 ^ 53 ->
  0 <= Number.to_Z (Number.mul u (Number.of_Z n)) < n /\
  ((exists s, Number.mul u (Number.of_Z n) = S754_zero s) \/
   (exists m e, Number.mul u (Number.of_Z n) = S754_finite false m e)).
Proof.
  intros Hu Hn.
  rewrite of_Z_canon by lia.
  destruct (Z.ltb_spec n 0) as [|_]; [lia|]. rewrite Z.abs_eq by lia.
  unfold canon.
  destruct (canon_mantissa n Hn) as (Hmn & Hmn52 & Hdn).
  set (mn := Z.to_pos (n * 2 ^ (53 - Zdigits2 n))) in *.
  rewrite <- Hmn in Hmn52.
  set (en := Zdigits2 n + 0 - 53).
  assert (Hen : -52 <= en <= 0) by (unfold en; lia).
  assert (Hnmn : Zpos mn = n * 2 ^ (- en)).
  { rewrite Hmn. unfold en. f_equal. f_equal. lia. }
  destruct (unit_interval_inv u Hu) as [[s ->]|(mu & eu & -> & Heu & Hmu)].
  { cbn. split; [lia|]. left. now eexists. }
  cbn [Number.mul SFmul xorb].
  set (M := (mu * mn)%positive). set (E := eu + en).
  assert (HM : Zpos M = Zpos mu * Zpos mn) by reflexivity.
  assert (HdM : Zpos (digits2_pos M) <= 106).
  { change (Zpos (digits2_pos M)) with (Zdigits2 (Zpos M)).
    apply Zdigits2_le; [lia|]. rewrite HM.
    change (2 ^ 106) with (2 ^ 53 * 2 ^ 53). nia. }
  set (d := Z.max 0 (fexp (Zpos (digits2_pos M) + E) - E)).
  assert (Hd : 0 <= d <= 53).
  { unfold d, E. rewrite fexp_eq. lia. }
  destruct (to_Z_binary_round_aux M E) as (R & HR0 & HR & _ & -> & Hshape).
  { fold d. unfold E. lia. }
  fold d in HR |- *. split; [|exact Hshape].
  set (K := - eu).
  assert (HK : 53 <= K) by (unfold K; lia).
  assert (HmuK : Zpos mu + 1 <= 2 ^ K).
  { assert (2 ^ 53 <= 2 ^ K) by (apply Z.pow_le_mono_r; lia). lia. }
  replace (E + d) with (- (K - en - d)) by (unfold E, K; lia).
  rewrite Z.shiftl_div_pow2 by lia.
  replace (- - (K - en - d)) with (K - en - d) by lia.
  pose proof (Z.pow_pos_nonneg 2 (K - en - d) ltac:(lia) ltac:(lia)) as Hp.
  split; [apply Z.div_pos; lia|].
  apply Z.div_lt_upper_bound; [lia|].
  pose proof (Z.pow_pos_nonneg 2 d ltac:(lia) ltac:(lia)) as Hpd.
  pose proof (Z.pow_pos_nonneg 2 (K - d) ltac:(lia) ltac:(lia)) as HpKd.
  assert (HsplitK : 2 ^ K = 2 ^ (K - d) * 2 ^ d).
  { rewrite <- Z.pow_add_r by lia. f_equal. lia. }
  assert (Hgoal : 2 ^ (K - en - d) * n = 2 ^ (K - d) * Zpos mn).
  { rewrite Hnmn. replace (K - en - d) with ((K - d) + - en) by lia.
    rewrite Z.pow_add_r by lia. ring. }
  rewrite Hgoal.
  (* 2^d < 2 * mn *)
  assert (H2d : 2 ^ d < 2 * Zpos mn).
  { destruct (Z.eq_dec d 53) as [Hd53|Hd53].
    - assert (HdM' : Zpos (digits2_pos M) = 106).
      { unfold d, E in Hd53. rewrite fexp_eq in Hd53. lia. }
      pose proof (digits2_pos_bounds M) as [Hlo _]. rewrite HdM' in Hlo.
      change (2 ^ (106 - 1)) with (2 ^ 52 * 2 ^ 53) in Hlo.
      rewrite Hd53. change (2 ^ 53) with (2 * 2 ^ 52) in *.
      assert (2 ^ 52 < Zpos mn); [|lia].
      destruct (Z_lt_ge_dec (2 ^ 52) (Zpos mn)); [assumption|exfalso].
      assert (Zpos mn = 2 ^ 52) by lia.
      pose proof (Z.pow_pos_nonneg 2 52 ltac:(lia) ltac:(lia)). nia.
    - assert (2 ^ d <= 2 ^ 52) by (apply Z.pow_le_mono_r; lia). lia. }
  assert (HRd : R * 2 ^ d < 2 ^ K * Zpos mn).
  { assert (2 * (R * 2 ^ d) <= 2 * Zpos M + 2 ^ d) by lia.
    rewrite HM in *. nia. }
  rewrite HsplitK in HRd. nia.
Qed.

(* ------------------------------------------------------------------ *)
(** ** The draw generator *)
(* ------------------------------------------------------------------ *)

(** The product is rounded as the multiplication of doubles rounds it.  At
    the double just below 3/5 the product by 5 is 3, so the draw of
    [[4, 8]] is 7, where the product of the reals would give 6; and beyond
    [2^53] not every integer is a double: [2^53 + 5] is never drawn. *)
Example generateRandomNumber_rounds :
  generateRandomNumber 4 8 (Number.dyadic 5404319552844595 53) = 7 /\
  generateRandomNumber 1 90 (Number.dyadic 850679929614427 52) = 18 /\
  generateRandomNumber (2 ^ 53) (2 ^ 53 + 10) (Number.dyadic 1 1)
  = 2 ^ 53 + 4.
Proof. repeat split; vm_compute; reflexivity. Qed.

Lemma safe_range_intro (min max : Z) :
  - 2 ^ 53 < min <= max -> max < 2 ^ 53 -> max - min + 1 < 2 ^ 53 ->
  safe_range min max.
Proof. unfold safe_range, Number.isSafeInteger. lia. Qed.

Section DrawGenerator.

(** The bounds of a draw, shared by everything that follows. *)
Variables min max : Z.
Hypothesis Hbounds : min <= max.
Hypothesis Hsafe : safe_range min max.

(** With safe bounds the sums and the difference are exact: only the product
    is rounded, and its floor is the rank of the result in the range. *)
Lemma generateRandomNumber_product (u : spec_float) :
  unit_interval u ->
  generateRandomNumber min max u
  = Number.to_Z (Number.mul u (Number.of_Z (max - min + 1))) + min /\
  0 <= Number.to_Z (Number.mul u (Number.of_Z (max - min + 1)))
    < max - min + 1.
Proof.
  intros Hu. destruct Hsafe as (Hmin & Hmax & Hsize).
  unfold Number.isSafeInteger in *. unfold generateRandomNumber.
  rewrite sub_of_Z, add_of_Z by lia.
  destruct (mul_unit_interval u (max - min + 1) Hu ltac:(lia))
    as [Hrange Hshape].
  split; [|exact Hrange].
  apply add_floor; [exact Hshape | lia | lia | lia].
Qed.

Lemma generateRandomNumber_range (u : spec_float) :
  unit_interval u ->
  in_range min max (generateRandomNumber min max u).
Proof.
  intros Hu. destruct (generateRandomNumber_product u Hu) as [-> H].
  unfold in_range. lia.
Qed.

(** The invariant of the [while] loop of [generateRandomNumbers]: the numbers
    collected so far are pairwise distinct, within the bounds, and no more
    than asked for. *)
Lemma generateRandomNumbers_loop_spec (length : Z)
  (draws : list spec_float) :
  Forall unit_interval draws ->
  forall numbers result rest,
    NoDup numbers ->
    Forall (in_range min max) numbers ->
    Z.of_nat (List.length numbers) <= length ->
    generateRandomNumbers_loop min max length numbers draws
      = Some (result, rest) ->
    Z.of_nat (List.length result) = length /\
    NoDup result /\
    Forall (in_range min max) result /\
    (exists used, draws = used ++ rest)%list.
Proof.
  intros Hdraws.
  induction Hdraws as [|u draws' Hu Hdraws' IH];
    intros numbers result rest Hnd Hin Hlen Hrun.
  - simpl in Hrun.
    destruct (Z.ltb_spec (Z.of_nat (List.length numbers)) length);
      [discriminate|].
    injection Hrun as <- <-. repeat split; try assumption; try lia.
    now exists [].
  - cbn [generateRandomNumbers_loop] in Hrun.
    destruct (Z.ltb_spec (Z.of_nat (List.length numbers)) length) as [Hlt|Hge].
    + rewrite indexOf_eqb_absent in Hrun.
      destruct (includes numbers (generateRandomNumber min max u)) eqn:Hinc;
        cbn [negb] in Hrun.
      * destruct (IH numbers result rest Hnd Hin Hlen Hrun)
          as (H1 & H2 & H3 & used & ->).
        repeat split; try assumption. now exists (u :: used).
      * assert (Hfresh : ~ In (generateRandomNumber min max u) numbers).
        { intros H. apply includes_In in H. congruence. }
        destruct (IH (numbers ++ [generateRandomNumber min max u])%list
                    result rest) as (H1 & H2 & H3 & used & ->).
        -- apply NoDup_app; [assumption | repeat constructor; intros [] | ].
           intros x Hx [<-|[]]. contradiction.
        -- apply Forall_app. split; [assumption|]. constructor; [|constructor].
           now apply generateRandomNumber_range.
        -- rewrite length_app. simpl. lia.
        -- assumption.
        -- repeat split; try assumption. now exists (u :: used).
    + injection Hrun as <- <-. repeat split; try assumption; try lia.
      now exists [].
Qed.

(** When more numbers are asked for than the range holds, the loop never
    finishes, whatever is drawn. *)
Lemma generateRandomNumbers_exhausted (length : Z)
  (draws : list spec_float) :
  max - min + 1 < length ->
  Forall unit_interval draws ->
  generateRandomNumbers min max length draws = None.
Proof.
  intros Hlen Hdraws.
  destruct (generateRandomNumbers min max length draws) as [[numbers rest]|]
    eqn:Hrun; [|reflexivity].
  exfalso.
  destruct (generateRandomNumbers_loop_spec length draws Hdraws
              [] numbers rest) as (H1 & H2 & H3 & _);
    [constructor | constructor | simpl; lia | exact Hrun |].
  pose proof (NoDup_range_length min max numbers H2 H3). lia.
Qed.

(** The invariant of the [while] loop of
    [generateRandomNumberNotAlreadyCalled]: [number] is [false], or a number
    of the range that is not in [array]. *)
Lemma generateRandomNumberNotAlreadyCalled_loop_number
  (array : list Z) (draws : list spec_float) :
  Forall unit_interval draws ->
  forall number v rest,
    (number = JsFalse \/
     exists n, number = JsNumber n /\ in_range min max n /\ ~ In n array) ->
    generateRandomNumberNotAlreadyCalled_loop min max array number draws
      = Some (v, rest) ->
    (exists n, v = JsNumber n /\ n <> 0 /\ in_range min max n /\
               ~ In n array) /\
    (exists used, draws = used ++ rest)%list.
Proof.
  intros Hdraws.
  induction Hdraws as [|u draws' Hu Hdraws' IH]; intros number v rest Hinv Hrun.
  - simpl in Hrun. destruct (js_not number) eqn:Hnot; [discriminate|].
    injection Hrun as <- <-. split; [|now exists []].
    destruct Hinv as [->|[n [-> [Hr Hfresh]]]]; [discriminate|].
    exists n. repeat split; try assumption; try apply Hr.
    simpl in Hnot. now apply Z.eqb_neq.
  - cbn [generateRandomNumberNotAlreadyCalled_loop] in Hrun.
    destruct (js_not number) eqn:Hnot.
    + rewrite indexOf_eqb_absent in Hrun.
      destruct (includes array (generateRandomNumber min max u)) eqn:Hinc;
        cbn [negb] in Hrun.
      * destruct (IH number v rest Hinv Hrun) as [H1 [used ->]].
        split; [assumption | now exists (u :: used)].
      * destruct (IH (JsNumber (generateRandomNumber min max u)) v rest)
          as [H1 [used ->]]; [|assumption|].
        -- right. eexists. split; [reflexivity|]. split.
           ++ now apply generateRandomNumber_range.
           ++ intros H. apply includes_In in H. congruence.
        -- split; [assumption | now exists (u :: used)].
    + injection Hrun as <- <-. split; [|now exists []].
      destruct Hinv as [->|[n [-> [Hr Hfresh]]]]; [discriminate|].
      exists n. repeat split; try assumption; try apply Hr.
      simpl in Hnot. now apply Z.eqb_neq.
Qed.

Lemma generateRandomNumberNotAlreadyCalled_spec
  (array : list Z) (draws : list spec_float) (n : Z)
  (rest : list spec_float) :
  Forall unit_interval draws ->
  generateRandomNumberNotAlreadyCalled min max array draws = Some (n, rest) ->
  in_range min max n /\ ~ In n array /\
  (exists used, draws = used ++ rest)%list.
Proof.
  intros Hdraws Hrun. unfold generateRandomNumberNotAlreadyCalled in Hrun.
  destruct (generateRandomNumberNotAlreadyCalled_loop min max array JsFalse
              draws) as [[v rest']|] eqn:Hloop; [|discriminate].
  destruct (generateRandomNumberNotAlreadyCalled_loop_number array
              draws Hdraws JsFalse v rest' (or_introl eq_refl) Hloop)
    as [[m [-> [Hm0 [Hr Hfresh]]]] Hused].
  injection Hrun as <- <-. auto.
Qed.

End DrawGenerator.

(** The ranges the game draws from. *)
Lemma safe_range_1_90 : safe_range 1 90.
Proof. apply safe_range_intro; vm_compute; intuition discriminate. Qed.

Lemma safe_range_5000_8000 : safe_range 5000 8000.
Proof. apply safe_range_intro; vm_compute; intuition discriminate. Qed.

Lemma safe_range_4_8 : safe_range 4 8.
Proof. apply safe_range_intro; vm_compute; intuition discriminate. Qed.

Lemma safe_range_3_6 : safe_range 3 6.
Proof. apply safe_range_intro; vm_compute; intuition discriminate. Qed.

(** Whatever the bounds, the loop of
    [generateRandomNumberNotAlreadyCalled] only leaves with a number that is
    not 0 and not in [array]. *)
Lemma generateRandomNumberNotAlreadyCalled_loop_fresh
  (min max : Z) (array : list Z) (draws : list spec_float) :
  forall number v rest,
    (number = JsFalse \/ exists n, number = JsNumber n /\ ~ In n array) ->
    generateRandomNumberNotAlreadyCalled_loop min max array number draws
      = Some (v, rest) ->
    exists n, v = JsNumber n /\ n <> 0 /\ ~ In n array.
Proof.
  induction draws as [|u draws' IH]; intros number v rest Hinv Hrun.
  - simpl in Hrun. destruct (js_not number) eqn:Hnot; [discriminate|].
    injection Hrun as <- <-.
    destruct Hinv as [->|[n [-> Hfresh]]]; [discriminate|].
    exists n. repeat split; try assumption.
    simpl in Hnot. now apply Z.eqb_neq.
  - cbn [generateRandomNumberNotAlreadyCalled_loop] in Hrun.
    destruct (js_not number) eqn:Hnot.
    + rewrite indexOf_eqb_absent in Hrun.
      destruct (includes array (generateRandomNumber min max u)) eqn:Hinc;
        cbn [negb] in Hrun.
      * apply (IH number v rest Hinv Hrun).
      * apply (IH (JsNumber (generateRandomNumber min max u)) v rest);
          [|assumption].
        right. eexists. split; [reflexivity|].
        intros H. apply includes_In in H. congruence.
    + injection Hrun as <- <-.
      destruct Hinv as [->|[n [-> Hfresh]]]; [discriminate|].
      exists n. repeat split; try assumption.
      simpl in Hnot. now apply Z.eqb_neq.
Qed.


Lemma dyadic_canon (j t : Z) :
  0 < j < 2 ^ 53 -> -1074 <= Zdigits2 j - t - 53 <= 970 ->
  Number.dyadic j t = canon false j (- t).
Proof.
  intros Hj Ht. unfold Number.dyadic.
  pose proof (binary_normalize_canonical j 0 (- t)) as H.
  rewrite Z.pow_0_r, Z.mul_1_r, Z.sub_0_r, Z.abs_eq in H by lia.
  destruct (Z.ltb_spec j 0); [lia|]. apply H; lia.
Qed.

Lemma dyadic_unit_interval (j t : Z) :
  0 <= t <= 53 -> 0 <= j < 2 ^ t -> unit_interval (Number.dyadic j t).
Proof.
  intros Ht Hj.
  destruct (Z.eq_dec j 0) as [->|Hj0]; [repeat split|].
  assert (Hj53 : 0 < j < 2 ^ 53).
  { assert (2 ^ t <= 2 ^ 53) by (apply Z.pow_le_mono_r; lia). lia. }
  pose proof (Zdigits2_le j t ltac:(lia) ltac:(lia)) as Hdj.
  destruct (canon_mantissa j Hj53) as (Hm & Hm52 & Hd).
  rewrite dyadic_canon by lia. unfold canon, unit_interval.
  set (m := Z.to_pos (j * 2 ^ (53 - Zdigits2 j))) in *.
  rewrite <- Hm in Hm52.
  assert (Hdm : Zpos (digits2_pos m) = 53).
  { change (Zpos (digits2_pos m)) with (Zdigits2 (Zpos m)).
    apply Zdigits2_unique; [lia|]. exact Hm52. }
  split; [|split].
  - cbn [valid_binary]. unfold bounded, canonical_mantissa.
    rewrite Hdm, fexp_eq. apply andb_true_intro. split.
    + apply Z.eqb_eq. lia.
    + apply Z.leb_le. unfold Number.emax, Number.prec. lia.
  - reflexivity.
  - change (Number.of_Z 1) with (S754_finite false 4503599627370496 (-52)).
    unfold SFltb, SFcompare.
    destruct (Z.compare_spec (Zdigits2 j + - t - 53) (-52)); [lia| |lia].
    reflexivity.
Qed.

(** A product that fits in 53 bits is not rounded. *)
Lemma mul_dyadic (j t n : Z) :
  0 <= t <= 53 -> 0 <= j < 2 ^ t -> 0 < n < 2 ^ 53 -> j * n < 2 ^ 53 ->
  Number.to_Z (Number.mul (Number.dyadic j t) (Number.of_Z n))
  = (j * n) / 2 ^ t.
Proof.
  intros Ht Hj Hn Hjn.
  rewrite (of_Z_canon n) by lia.
  destruct (Z.ltb_spec n 0) as [|_]; [lia|]. rewrite Z.abs_eq by lia.
  destruct (Z.eq_dec j 0) as [->|Hj0]; [reflexivity|].
  assert (Hj53 : 0 < j < 2 ^ 53).
  { assert (2 ^ t <= 2 ^ 53) by (apply Z.pow_le_mono_r; lia). lia. }
  pose proof (Zdigits2_le j t ltac:(lia) ltac:(lia)) as Hdj.
  destruct (canon_mantissa j Hj53) as (Hmj & _ & Hdj').
  destruct (canon_mantissa n Hn) as (Hmn & _ & Hdn).
  rewrite dyadic_canon by lia. unfold canon.
  set (mj := Z.to_pos (j * 2 ^ (53 - Zdigits2 j))) in *.
  set (mn := Z.to_pos (n * 2 ^ (53 - Zdigits2 n))) in *.
  cbn [Number.mul SFmul xorb].
  set (a := (53 - Zdigits2 j) + (53 - Zdigits2 n)).
  assert (Ha : 0 <= a) by (unfold a; lia).
  pose proof (Z.pow_pos_nonneg 2 a ltac:(lia) Ha) as Hpa.
  assert (HM : Zpos (mj * mn) = j * n * 2 ^ a).
  { rewrite Pos2Z.inj_mul, Hmj, Hmn. unfold a.
    rewrite Z.pow_add_r by lia. ring. }
  set (E := Zdigits2 j + - t - 53 + (Zdigits2 n + 0 - 53)).
  assert (HE : E = - t - a) by (unfold E, a; lia).
  assert (Hjn0 : 0 < j * n) by nia.
  pose proof (Zdigits2_le (j * n) 53 ltac:(lia) ltac:(lia)) as Hdjn.
  assert (Hdjn0 : 0 < Zdigits2 (j * n)) by (destruct (j * n); cbn; lia).
  assert (HdM : Zpos (digits2_pos (mj * mn)) = Zdigits2 (j * n) + a).
  { change (Zpos (digits2_pos (mj * mn))) with (Zdigits2 (Zpos (mj * mn))).
    rewrite HM. apply Zdigits2_shift; lia. }
  set (d := Z.max 0 (fexp (Zpos (digits2_pos (mj * mn)) + E) - E)).
  assert (Hd : 0 <= d <= a).
  { unfold d. rewrite HdM, fexp_eq, HE. lia. }
  destruct (to_Z_binary_round_aux (mj * mn) E)
    as (R & HR0 & _ & Hex & -> & _).
  { fold d. lia. }
  fold d in Hex |- *.
  assert (Hmod : Zpos (mj * mn) mod 2 ^ d = 0).
  { rewrite HM. replace a with ((a - d) + d) by lia.
    rewrite Z.pow_add_r, Z.mul_assoc by lia.
    apply Z.mod_mul. pose proof (Z.pow_pos_nonneg 2 d); lia. }
  specialize (Hex Hmod).
  assert (H1 : Z.shiftl R (E + d) = Z.shiftl (Z.shiftl R d) E).
  { rewrite Z.shiftl_shiftl by lia. f_equal. lia. }
  rewrite H1, (Z.shiftl_mul_pow2 R d), Hex, HM by lia.
  rewrite <- (Z.shiftl_mul_pow2 (j * n) a), Z.shiftl_shiftl by lia.
  rewrite HE. replace (a + (- t - a)) with (- t) by lia.
  rewrite Z.shiftl_div_pow2 by lia. f_equal. f_equal. lia.
Qed.

Lemma draw_numerator (n k : Z) :
  0 <= k < n -> n <= 2 ^ 26 ->
  let j := (k * 2 ^ 26 + n - 1) / n in
  0 <= j < 2 ^ 26 /\ k * 2 ^ 26 <= j * n < (k + 1) * 2 ^ 26.
Proof.
  intros Hk Hn j.
  pose proof (Z.div_mod (k * 2 ^ 26 + n - 1) n ltac:(lia)) as Hdiv.
  pose proof (Z.mod_pos_bound (k * 2 ^ 26 + n - 1) n ltac:(lia)) as Hmod.
  fold j in Hdiv.
  change (2 ^ 26) with 67108864 in *.
  assert (Hjn : k * 67108864 <= j * n < (k + 1) * 67108864) by nia.
  split; [|exact Hjn]. split; nia.
Qed.

Lemma draw_unit_interval (n k : Z) :
  0 <= k < n -> n <= 2 ^ 26 -> unit_interval (draw n k).
Proof.
  intros Hk Hn. destruct (draw_numerator n k Hk Hn) as [Hj _].
  apply dyadic_unit_interval; [lia | exact Hj].
Qed.

Lemma generateRandomNumber_draw (min max k : Z) :
  min <= max -> safe_range min max -> max - min + 1 <= 2 ^ 26 ->
  0 <= k < max - min + 1 ->
  generateRandomNumber min max (draw (max - min + 1) k) = min + k.
Proof.
  intros Hmm Hsafe Hn Hk.
  destruct (generateRandomNumber_product min max Hmm Hsafe
              (draw (max - min + 1) k)) as [-> _].
  { now apply draw_unit_interval. }
  destruct (draw_numerator (max - min + 1) k Hk Hn) as [Hj Hjn].
  unfold draw. cbv zeta in Hj, Hjn.
  set (j := (k * 2 ^ 26 + (max - min + 1) - 1) / (max - min + 1)) in *.
  rewrite mul_dyadic.
  - assert (Hq : j * (max - min + 1) / 2 ^ 26 = k); [|lia].
    symmetry.
    apply (Z.div_unique _ _ _ (j * (max - min + 1) - k * 2 ^ 26)); lia.
  - lia.
  - exact Hj.
  - change (2 ^ 53) with 9007199254740992. change (2 ^ 26) with 67108864 in *.
    lia.
  - change (2 ^ 53) with (2 ^ 26 * 2 ^ 27). change (2 ^ 26) with 67108864 in *.
    nia.
Qed.

Lemma ascending_draws_unit (n : Z) (from count : nat) :
  Z.of_nat (from + count) <= n -> n <= 2 ^ 26 ->
  Forall unit_interval (ascending_draws n from count).
Proof.
  intros Hn Hn26. apply Forall_forall. intros u Hu.
  apply in_map_iff in Hu. destruct Hu as [k [<- Hk]]. apply in_seq in Hk.
  apply draw_unit_interval; lia.
Qed.

(** Every number of a range of at most [2^26] numbers is drawn by some value
    of [Math.random()]. *)
Lemma generateRandomNumber_onto (min max k : Z) :
  safe_range min max -> max - min + 1 <= 2 ^ 26 ->
  in_range min max k ->
  exists u, unit_interval u /\ generateRandomNumber min max u = k.
Proof.
  intros Hsafe Hn [Hlo Hhi].
  exists (draw (max - min + 1) (k - min)). split.
  - apply draw_unit_interval; lia.
  - rewrite generateRandomNumber_draw by (assumption || lia). lia.
Qed.

Lemma generateRandomNumbers_loop_ascending (min max length : Z) :
  min <= max -> safe_range min max -> max - min + 1 <= 2 ^ 26 ->
  forall (count from : nat) (numbers : list Z),
    length <= max - min + 1 ->
    Z.of_nat (from + count) = length ->
    numbers = map (fun k => min + Z.of_nat k) (seq 0 from) ->
    generateRandomNumbers_loop min max length numbers
      (ascending_draws (max - min + 1) from count)
    = Some (map (fun k => min + Z.of_nat k) (seq 0 (from + count)), []).
Proof.
  intros Hmm Hsafe Hn.
  induction count as [|count IH]; intros from numbers Hle Hlen ->.
  - simpl. rewrite length_map, length_seq.
    destruct (Z.ltb_spec (Z.of_nat from) length); [lia|].
    now rewrite Nat.add_0_r.
  - cbn [ascending_draws seq map generateRandomNumbers_loop].
    rewrite length_map, length_seq.
    destruct (Z.ltb_spec (Z.of_nat from) length); [|lia].
    rewrite generateRandomNumber_draw by (assumption || lia).
    assert (Hfresh : indexOf (map (fun k => min + Z.of_nat k) (seq 0 from))
                       (min + Z.of_nat from) = -1).
    { apply indexOf_absent. intros Hin. apply in_map_iff in Hin.
      destruct Hin as [k [Hk Hin]]. apply in_seq in Hin. lia. }
    rewrite Hfresh. cbn [Z.eqb Pos.eqb].
    replace (from + S count)%nat with (S from + count)%nat by lia.
    apply (IH (S from)); [assumption | lia |].
    now rewrite seq_S, map_app.
Qed.

(** A draw that brings a number of [[1, max]] not yet in [array] ends the
    loop at once. *)
Lemma generateRandomNumberNotAlreadyCalled_fresh
  (max : Z) (array : list Z) (u : spec_float) (rest : list spec_float) :
  1 <= max -> safe_range 1 max -> unit_interval u ->
  ~ In (generateRandomNumber 1 max u) array ->
  generateRandomNumberNotAlreadyCalled 1 max array (u :: rest)
  = Some (generateRandomNumber 1 max u, rest).
Proof.
  intros Hmax Hsafe Hu Hfresh. unfold generateRandomNumberNotAlreadyCalled.
  cbn [generateRandomNumberNotAlreadyCalled_loop js_not].
  apply indexOf_absent in Hfresh. rewrite Hfresh. cbn [Z.eqb Pos.eqb].
  pose proof (generateRandomNumber_range 1 max Hmax Hsafe u Hu) as Hr.
  unfold in_range in Hr.
  destruct rest as [|u' rest'];
    cbn [generateRandomNumberNotAlreadyCalled_loop js_not];
    destruct (Z.eqb_spec (generateRandomNumber 1 max u) 0); try lia;
    reflexivity.
Qed.

(** As long as fewer than 90 numbers have been called, some number of
    [[1, 90]] is still missing. *)
Lemma missing_number (called : list Z) :
  (List.length called < 90)%nat ->
  exists k, in_range 1 90 k /\ ~ In k called.
Proof.
  intros Hlen.
  set (univ := map Z.of_nat (seq 1 90)).
  destruct (existsb (fun k => negb (includes called k)) univ) eqn:E.
  - apply existsb_exists in E. destruct E as [k [Hk Hneg]].
    exists k. split.
    + unfold univ in Hk. apply in_map_iff in Hk.
      destruct Hk as [i [<- Hi]]. apply in_seq in Hi. unfold in_range. lia.
    + intros Hin. apply includes_In in Hin. rewrite Hin in Hneg.
      discriminate.
  - exfalso.
    assert (Hincl : incl univ called).
    { intros k Hk. apply includes_In.
      destruct (includes called k) eqn:Hinc; [reflexivity|].
      assert (Hex : existsb (fun k => negb (includes called k)) univ = true).
      { apply existsb_exists. exists k. split; [assumption|].
        now rewrite Hinc. }
      congruence. }
    assert (Hnd : NoDup univ).
    { unfold univ. apply Injective_map_NoDup.
      - intros x y. lia.
      - apply seq_NoDup. }
    pose proof (NoDup_incl_length Hnd Hincl) as Hlen'.
    unfold univ in Hlen'. rewrite length_map, length_seq in Hlen'. lia.
Qed.

(* ------------------------------------------------------------------ *)
(** ** C2: the unique-draw generator *)
(* ------------------------------------------------------------------ *)




(* ------------------------------------------------------------------ *)
(** ** Claim verification *)
(* ------------------------------------------------------------------ *)

(** The row loop is given [length gamecard] turns, and they suffice: once
    the index has passed the end of the card, further turns add nothing. *)
Lemma rows_loop_fuel (gamecard : list Z) :
  forall (fuel fuel' i : nat) (rows : list (list Z)),
    (List.length gamecard <= i + 5 * fuel)%nat -> (fuel <= fuel')%nat ->
    rows_loop fuel' i gamecard rows = rows_loop fuel i gamecard rows.
Proof.
  induction fuel as [|fuel IH]; intros fuel' i rows Hlen Hle.
  - destruct fuel' as [|f]; [reflexivity|]. cbn [rows_loop].
    destruct (Nat.ltb_spec i (List.length gamecard)); [lia | reflexivity].
  - destruct fuel' as [|f]; [lia|]. cbn [rows_loop].
    destruct (Nat.ltb_spec i (List.length gamecard)); [|reflexivity].
    apply IH; lia.
Qed.

Lemma card_rows_fuel (gamecard : list Z) (extra : nat) :
  rows_loop (List.length gamecard + extra) 0 gamecard [] = card_rows gamecard.
Proof. unfold card_rows. apply rows_loop_fuel; lia. Qed.

Lemma claimValid_fold (f : list Z -> bool) (lines : list (list Z)) (b : bool) :
  fold_left (fun claimValid line => if f line then true else claimValid)
    lines b
  = b || existsb f lines.
Proof.
  revert b. induction lines as [|line lines IH]; intros b; simpl.
  - now rewrite orb_false_r.
  - rewrite IH. destruct (f line), b; reflexivity.
Qed.

(** [verifyClaim] holds exactly when some row or some column is made of
    called numbers only. *)
Lemma verifyClaim_lines (called gamecard : list Z) :
  verifyClaim called gamecard = true <->
  exists line, In line (card_rows gamecard ++ card_columns gamecard)%list /\
               forall number, In number line -> In number called.
Proof.
  unfold verifyClaim. rewrite claimValid_fold. cbn [orb].
  rewrite existsb_exists. split; intros [line [Hline Hall]]; exists line;
    (split; [assumption|]).
  - rewrite forallb_forall in Hall. intros n Hn. apply includes_In. auto.
  - apply forallb_forall. intros n Hn. apply includes_In. auto.
Qed.

Lemma card_lines_25 (gamecard : list Z) :
  List.length gamecard = 25%nat ->
  (card_rows gamecard ++ card_columns gamecard)%list
  = map (map (fun i => nth i gamecard 0)) line_indices.
Proof.
  intros Hlen.
  do 25 (destruct gamecard as [|? gamecard]; [discriminate|]).
  destruct gamecard; [|discriminate]. reflexivity.
Qed.

Lemma line_indices_spec (idx : list nat) :
  In idx line_indices <->
  (exists r, (r < 5)%nat /\ idx = row_indices r) \/
  (exists c, (c < 5)%nat /\ idx = column_indices c).
Proof.
  unfold line_indices. rewrite in_app_iff, !in_map_iff.
  split; (intros [[k [H1 H2]]|[k [H1 H2]]]; [left|right]; exists k).
  - apply in_seq in H2. split; [lia | auto].
  - apply in_seq in H2. split; [lia | auto].
  - split; [auto | apply in_seq; lia].
  - split; [auto | apply in_seq; lia].
Qed.

Lemma row_indices_spec (r i : nat) :
  In i (row_indices r) <-> (5 * r <= i < 5 * r + 5)%nat.
Proof. unfold row_indices. rewrite in_seq. lia. Qed.

Lemma column_indices_spec (c i : nat) :
  In i (column_indices c) <-> (i < 25)%nat /\ (i mod 5 = c)%nat.
Proof.
  unfold column_indices. rewrite filter_In, in_seq, Nat.eqb_eq. lia.
Qed.

(* ------------------------------------------------------------------ *)
(** ** C1: rows and columns *)
(* ------------------------------------------------------------------ *)

(** C1. For a card of 25 numbers and any list of called numbers,
    [verifyClaim] answers [true] if and only if one of the five rows (index
    blocks 0-4, 5-9, 10-14, 15-19, 20-24) or one of the five columns (index
    classes modulo 5) is made of called numbers only.  Nothing else, and so no
    diagonal, makes a claim valid. *)
Theorem verifyClaim_rows_or_columns (called gamecard : list Z) :
  List.length gamecard = 25%nat ->
  (verifyClaim called gamecard = true <->
   (exists r, (r < 5)%nat /\ row_called called gamecard r) \/
   (exists c, (c < 5)%nat /\ column_called called gamecard c)).
Proof.
  intros Hlen. rewrite verifyClaim_lines, (card_lines_25 gamecard Hlen).
  split.
  - intros [line [Hline Hall]]. apply in_map_iff in Hline.
    destruct Hline as [idx [<- Hidx]]. apply line_indices_spec in Hidx.
    destruct Hidx as [[r [Hr ->]]|[c [Hc ->]]]; [left; exists r|right; exists c];
      (split; [assumption|]).
    + intros i Hi. apply Hall. apply in_map_iff. exists i.
      split; [reflexivity | now apply row_indices_spec].
    + intros i Hi Hmod. apply Hall. apply in_map_iff. exists i.
      split; [reflexivity | now apply column_indices_spec].
  - intros [[r [Hr Hrow]]|[c [Hc Hcol]]].
    + exists (map (fun i => nth i gamecard 0) (row_indices r)). split.
      * apply in_map, line_indices_spec. left. now exists r.
      * intros n Hn. apply in_map_iff in Hn. destruct Hn as [i [<- Hi]].
        apply Hrow. now apply row_indices_spec.
    + exists (map (fun i => nth i gamecard 0) (column_indices c)). split.
      * apply in_map, line_indices_spec. right. now exists c.
      * intros n Hn. apply in_map_iff in Hn. destruct Hn as [i [<- Hi]].
        apply column_indices_spec in Hi. now apply Hcol.
Qed.

(** The card 1..25 with its first column (1, 6, 11, 16, 21) called. *)
Lemma verifyClaim_rows_or_columns_witness :
  verifyClaim [1; 6; 11; 16; 21] (map Z.of_nat (seq 1 25)) = true.
Proof.
  apply (proj2 (verifyClaim_rows_or_columns [1; 6; 11; 16; 21]
                  (map Z.of_nat (seq 1 25)) eq_refl)).
  right. exists 0%nat. split; [lia|].
  intros i Hi Hmod.
  do 25 (destruct i as [|i]; [first [discriminate Hmod | simpl; tauto]|]).
  lia.
Defined.

(** Both diagonals of the card 1..25 called, and no row or column: the claim
    is not valid. *)
Example verifyClaim_ignores_diagonals :
  verifyClaim [1; 7; 13; 19; 25; 5; 9; 17; 21] (map Z.of_nat (seq 1 25))
  = false.
Proof. reflexivity. Qed.

(* ------------------------------------------------------------------ *)
(** ** C10: the empty card *)
(* ------------------------------------------------------------------ *)

(** C10. For the empty card [verifyClaim] answers [true] whatever has been
    called: there is no row, the five columns are empty, and [every] holds of
    an empty array.  So when the host handles a claim with an empty card from
    a peer that is not disqualified, it announces the claim and schedules
    the valid outcome, whose callback broadcasts [claimvalid] for the
    claimer. *)
Theorem verifyClaim_empty_card :
  (forall called, verifyClaim called [] = true) /\
  (forall (a : BingoApp) (claimer : string) (u : spec_float) (draws : list spec_float),
     party_role (party a) = host ->
     ~ In claimer (game_disqualified (game a)) ->
     exists a',
       handleCommand (Claim claimer []) a (u :: draws) = Some (a', draws) /\
       sent (relay a') = (sent (relay a) ++ [Claimmade claimer])%list /\
       timers a'
       = (timers (pauseCalling a)
          ++ [mkTimer (nextTimerId a) (cb_claimValid claimer)
                (generateRandomNumber 4 8 u * 1000) false])%list /\
       forall b draws',
         exists b',
           runCallback (cb_claimValid claimer) b draws' = Some (b', draws') /\
           sent (relay b') = (sent (relay b) ++ [Claimvalid claimer])%list).
Proof.
  split; [reflexivity|].
  intros a claimer u draws Hrole Hdq.
  assert (Hinc : includes_str (game_disqualified (game a)) claimer = false).
  { destruct (includes_str (game_disqualified (game a)) claimer) eqn:E;
      [|reflexivity].
    apply includes_str_In in E. contradiction. }
  eexists. split; [|split; [|split]].
  - cbn [handleCommand]. unfold commandClaim. rewrite Hrole, Hinc.
    cbn [Role_eqb negb andb]. change (verifyClaim _ []) with true.
    cbv iota. unfold setTimeout, schedule. reflexivity.
  - unfold pauseCalling, clearInterval, clearTimer.
    destruct (callingInterval a); reflexivity.
  - unfold pauseCalling, clearInterval, clearTimer.
    destruct (callingInterval a); reflexivity.
  - intros b draws'. eexists. split; reflexivity.
Qed.

Lemma verifyClaim_empty_card_witness :
  exists a',
    handleCommand (Claim "5e1f0001" []) samplePlayingHost [Number.dyadic 7 3]
    = Some (a', []) /\
    sent (relay a')
    = (sent (relay samplePlayingHost) ++ [Claimmade "5e1f0001"])%list.
Proof.
  destruct (proj2 verifyClaim_empty_card samplePlayingHost
              "5e1f0001"%string (Number.dyadic 7 3) [])
    as [a' [Hrun [Hsent _]]].
  - reflexivity.
  - vm_compute. tauto.
  - exists a'. split; assumption.
Defined.

(* ------------------------------------------------------------------ *)
(** ** C3: join gating *)
(* ------------------------------------------------------------------ *)

(** C3. A host that receives [join] while its game is [joining] appends the
    requester to its roster, sends [joined] with the requester's identity and
    then broadcasts the whole roster; in any other game status it sends
    [hold] and its roster stays as it was. *)
Theorem commandJoinGame_gating (a : BingoApp) (id : string) (draws : list spec_float) :
  party_role (party a) = host ->
  exists a',
    handleCommand (Join id) a draws = Some (a', draws) /\
    (game_status (game a) = joining ->
     party_players (party a') = (party_players (party a) ++ [id])%list /\
     sent (relay a')
     = (sent (relay a)
        ++ [Joined id; Players (party_players (party a) ++ [id])])%list) /\
    (game_status (game a) <> joining ->
     party_players (party a') = party_players (party a) /\
     sent (relay a') = (sent (relay a) ++ [Hold (clientID (relay a))])%list).
Proof.
  intros Hrole. eexists. split; [reflexivity|].
  unfold commandJoinGame. rewrite Hrole. cbn [Role_eqb].
  destruct (game_status (game a)); cbn [Status_eqb]; split; intros H;
    try discriminate; try (now contradiction H).
  - split; [reflexivity|]. cbn. now rewrite <- app_assoc.
  - split; reflexivity.
Qed.

Lemma commandJoinGame_gating_witness :
  exists a',
    handleCommand (Join "5e1f0001") sampleHost [] = Some (a', []) /\
    party_players (party a') = ["a1b2c3d4"; "5e1f0001"]%string.
Proof.
  destruct (commandJoinGame_gating sampleHost "5e1f0001" [] eq_refl)
    as [a' [Hrun [Hjoin _]]].
  exists a'. split; [exact Hrun|].
  exact (proj1 (Hjoin eq_refl)).
Defined.

(* ------------------------------------------------------------------ *)
(** ** C4: claims of disqualified peers *)
(* ------------------------------------------------------------------ *)

(** C4. A claim whose claimer is already disqualified leaves the host exactly
    as it was: nothing is sent, no timer is cleared or started, the game is
    untouched, and no draw is consumed. *)
Theorem commandClaim_disqualified_ignored
  (a : BingoApp) (claimer : string) (gamecard : list Z) (draws : list spec_float) :
  party_role (party a) = host ->
  In claimer (game_disqualified (game a)) ->
  handleCommand (Claim claimer gamecard) a draws = Some (a, draws).
Proof.
  intros Hrole Hdq. apply includes_str_In in Hdq.
  cbn [handleCommand]. unfold commandClaim.
  now rewrite Hrole, Hdq.
Qed.

Lemma commandClaim_disqualified_ignored_witness :
  handleCommand (Claim "0badc0de" [4; 8; 15; 16; 23]) sampleHostAfterBadClaim []
  = Some (sampleHostAfterBadClaim, []).
Proof.
  apply commandClaim_disqualified_ignored.
  - reflexivity.
  - simpl. left. reflexivity.
Defined.

(* ------------------------------------------------------------------ *)
(** ** C5: host election *)
(* ------------------------------------------------------------------ *)

(** C5. When the host-election timeout fires on a peer whose roster is empty,
    the peer becomes host: its role is [host], its host is itself, it sends
    [iamhost] with its identity, and its roster is itself alone.  With a
    roster that is not empty the callback changes nothing. *)
Theorem possiblyAssumeHost_election (a : BingoApp) (draws : list spec_float) :
  (party_players (party a) = [] ->
   exists a',
     runCallback cb_possiblyAssumeHost a draws = Some (a', draws) /\
     party_role (party a') = host /\
     role a' = Some host /\
     party_host (party a') = Some (clientID (relay a)) /\
     sent (relay a') = (sent (relay a) ++ [Iamhost (clientID (relay a))])%list /\
     party_players (party a') = [clientID (relay a)]) /\
  (party_players (party a) <> [] ->
   runCallback cb_possiblyAssumeHost a draws = Some (a, draws)).
Proof.
  cbn [runCallback]. unfold possiblyAssumeHost. split.
  - intros Hempty. rewrite Hempty. cbn [List.length Nat.ltb Nat.leb].
    eexists. split; [reflexivity|].
    cbn. rewrite Hempty. repeat split; reflexivity.
  - intros Hne. destruct (party_players (party a)) as [|p ps];
      [contradiction|]. reflexivity.
Qed.

Lemma possiblyAssumeHost_election_witness :
  (exists a',
     runCallback cb_possiblyAssumeHost samplePeer [] = Some (a', []) /\
     party_role (party a') = host /\
     party_players (party a') = ["a1b2c3d4"%string]) /\
  runCallback cb_possiblyAssumeHost sampleHost [] = Some (sampleHost, []).
Proof.
  split.
  - destruct (proj1 (possiblyAssumeHost_election samplePeer []) eq_refl)
      as [a' (Hrun & Hrole & _ & _ & _ & Hplayers)].
    exists a'. repeat split; assumption.
  - apply (proj2 (possiblyAssumeHost_election sampleHost [])).
    discriminate.
Defined.

(* ------------------------------------------------------------------ *)
(** ** C6: reset *)
(* ------------------------------------------------------------------ *)

(** C6. Handling [reset] puts the game back to its initial values (status
    [joining], empty card, nothing called, nobody disqualified) and starts a
    ready-poll interval of 1000 ms whose handle is kept in
    [getReadyInterval]; the party (roster, host, role) is left as it was. *)
Theorem commandResetGame_frame (a : BingoApp) (draws : list spec_float) :
  exists a',
    handleCommand Reset a draws = Some (a', draws) /\
    game a' = mkGame joining [] [] [] /\
    party a' = party a /\
    getReadyInterval a' = Some (nextTimerId a) /\
    timers a'
    = (timers a ++ [mkTimer (nextTimerId a) cb_getReady 1000 true])%list.
Proof.
  eexists. split; [reflexivity|]. repeat split; reflexivity.
Qed.

(* ------------------------------------------------------------------ *)
(** ** C7: roster replacement *)
(* ------------------------------------------------------------------ *)

(** What the [forEach] of [commandUpdatePlayers] leaves behind. *)
Lemma addPlayer_forEach (players : list string) (a : BingoApp) :
  fold_left (fun a p => addPlayer p a) players a
  = match players with
    | [] => a
    | _ :: _ =>
        updatePlayerList
          (set_party_players (party_players (party a) ++ players) a)
    end.
Proof.
  revert a. induction players as [|p ps IH]; intros a; [reflexivity|].
  cbn [fold_left]. rewrite IH. destruct ps as [|q qs]; [reflexivity|].
  unfold addPlayer. cbn [party_players party updatePlayerList
    set_players_innerHTML set_elements set_party_players set_party].
  rewrite <- app_assoc. reflexivity.
Qed.

Lemma commandUpdatePlayers_roster (players : list string) (a : BingoApp) :
  party_role (party a) <> host ->
  party_players (party (commandUpdatePlayers players a)) = players.
Proof.
  intros Hrole. unfold commandUpdatePlayers.
  destruct (party_role (party a)); [|contradiction]. cbn [Role_eqb negb].
  rewrite addPlayer_forEach. destruct players; reflexivity.
Qed.

(** C7. On a peer that is not host, a [players] broadcast replaces the
    roster by the received list, in the received order; handling the same
    broadcast a second time changes nothing more.  On a host the broadcast
    changes nothing. *)
Theorem commandUpdatePlayers_idempotent
  (a : BingoApp) (players : list string) (draws : list spec_float) :
  (party_role (party a) <> host ->
   exists a',
     handleCommand (Players players) a draws = Some (a', draws) /\
     party_players (party a') = players /\
     handleCommand (Players players) a' draws = Some (a', draws)) /\
  (party_role (party a) = host ->
   handleCommand (Players players) a draws = Some (a, draws)).
Proof.
  cbn [handleCommand]. split.
  - intros Hrole. eexists. split; [reflexivity|]. split.
    + now apply commandUpdatePlayers_roster.
    + f_equal. f_equal. unfold commandUpdatePlayers.
      destruct (party_role (party a)) eqn:E; [|contradiction].
      cbn [Role_eqb negb]. rewrite !addPlayer_forEach.
      destruct players as [|p ps].
      * cbn. rewrite E. reflexivity.
      * cbn. rewrite E. reflexivity.
  - intros Hrole. unfold commandUpdatePlayers. now rewrite Hrole.
Qed.

Lemma commandUpdatePlayers_idempotent_witness :
  (exists a',
     handleCommand (Players ["a1b2c3d4"; "5e1f0001"]%string) samplePeer []
     = Some (a', []) /\
     party_players (party a') = ["a1b2c3d4"; "5e1f0001"]%string /\
     handleCommand (Players ["a1b2c3d4"; "5e1f0001"]%string) a' []
     = Some (a', [])) /\
  handleCommand (Players ["5e1f0001"%string]) sampleHost []
  = Some (sampleHost, []).
Proof.
  split.
  - apply (proj1 (commandUpdatePlayers_idempotent samplePeer
                    ["a1b2c3d4"; "5e1f0001"]%string [])).
    discriminate.
  - apply (proj2 (commandUpdatePlayers_idempotent sampleHost
                    ["5e1f0001"%string] [])).
    reflexivity.
Defined.

(* ------------------------------------------------------------------ *)
(** ** C9: the delay of the outcome *)
(* ------------------------------------------------------------------ *)

(** The delay of an outcome can be a full 8 seconds for a valid claim and a
    full 6 seconds for an invalid one: the bounds of [generateRandomNumber]
    are inclusive, so the half-open intervals [4,8) and [3,6) do not hold. *)
Lemma commandClaim_delay_reaches_upper_bound :
  unit_interval (Number.dyadic 7 3) /\
  party_role (party samplePlayingHost) = host /\
  game_disqualified (game samplePlayingHost) = [] /\
  game_called (game samplePlayingHost) = [1; 2; 3; 4; 5] /\
  (exists a',
     handleCommand (Claim "a1b2c3d4" (map Z.of_nat (seq 1 25)))
       samplePlayingHost [Number.dyadic 7 3] = Some (a', []) /\
     In (mkTimer 5 (cb_claimValid "a1b2c3d4") 8000 false) (timers a')) /\
  (exists a',
     handleCommand (Claim "5e1f0001" (map Z.of_nat (seq 26 25)))
       samplePlayingHost [Number.dyadic 7 3] = Some (a', []) /\
     In (mkTimer 5 (cb_claimInvalid "5e1f0001") 6000 false) (timers a')) /\
  ~ (8000 < 8 * 1000) /\ ~ (6000 < 6 * 1000).
Proof.
  split; [repeat split|].
  split; [reflexivity|]. split; [reflexivity|]. split; [reflexivity|].
  split; [|split; [|lia]].
  - eexists. split; [vm_compute; reflexivity|]. simpl. tauto.
  - eexists. split; [vm_compute; reflexivity|]. simpl. tauto.
Qed.

(** C9 (amended). When the host arbitrates a claim of a peer that is not
    disqualified, it schedules the outcome after a whole number [k] of
    seconds, [k = generateRandomNumber (4, 8)] for a valid claim and
    [k = generateRandomNumber (3, 6)] for an invalid one: whatever double
    [Math.random()] returns, [k] lies in the inclusive range [[4, 8]],
    respectively [[3, 6]]; and every [k] of the range, the upper bound
    included, is the delay for some value of [Math.random()]. *)
Theorem commandClaim_delay_inclusive
  (a : BingoApp) (claimer : string) (gamecard : list Z) :
  party_role (party a) = host ->
  ~ In claimer (game_disqualified (game a)) ->
  (forall (u : spec_float) (draws : list spec_float),
     unit_interval u ->
     exists a' k,
       handleCommand (Claim claimer gamecard) a (u :: draws)
       = Some (a', draws) /\
       timers a'
       = (timers (pauseCalling a)
          ++ [outcome_timer a claimer gamecard (k * 1000)])%list /\
       if verifyClaim (game_called (game a)) gamecard
       then 4 <= k <= 8 else 3 <= k <= 6) /\
  (forall k : Z,
     (if verifyClaim (game_called (game a)) gamecard
      then 4 <= k <= 8 else 3 <= k <= 6) ->
     exists u, unit_interval u /\
       forall draws : list spec_float,
       exists a',
         handleCommand (Claim claimer gamecard) a (u :: draws)
         = Some (a', draws) /\
         timers a'
         = (timers (pauseCalling a)
            ++ [outcome_timer a claimer gamecard (k * 1000)])%list).
Proof.
  intros Hrole Hdq.
  assert (Hinc : includes_str (game_disqualified (game a)) claimer = false).
  { destruct (includes_str (game_disqualified (game a)) claimer) eqn:E;
      [|reflexivity].
    apply includes_str_In in E. contradiction. }
  assert (Hnext : forall m, nextTimerId (on_relay m (pauseCalling a))
                            = nextTimerId a).
  { intros m. unfold pauseCalling, clearInterval, clearTimer.
    destruct (callingInterval a); reflexivity. }
  assert (Htimers : forall m, timers (on_relay m (pauseCalling a))
                              = timers (pauseCalling a)) by reflexivity.
  assert (Hcalled : forall m, game_called (game (on_relay m (pauseCalling a)))
                              = game_called (game a)).
  { intros m. unfold pauseCalling, clearInterval, clearTimer.
    destruct (callingInterval a); reflexivity. }
  assert (Hstep : forall u draws,
             exists a',
               handleCommand (Claim claimer gamecard) a (u :: draws)
               = Some (a', draws) /\
               timers a'
               = (timers (pauseCalling a)
                  ++ [outcome_timer a claimer gamecard
                        ((if verifyClaim (game_called (game a)) gamecard
                          then generateRandomNumber 4 8 u
                          else generateRandomNumber 3 6 u) * 1000)])%list).
  { intros u draws. cbn [handleCommand]. unfold commandClaim, outcome_timer.
    rewrite Hrole, Hinc. cbn [Role_eqb negb andb]. rewrite Hcalled.
    destruct (verifyClaim (game_called (game a)) gamecard).
    - exists (snd (setTimeout (cb_claimValid claimer)
                     (generateRandomNumber 4 8 u * 1000)
                     (on_relay (RelayM.claimMade claimer) (pauseCalling a)))).
      split; [reflexivity|].
      cbn [setTimeout schedule snd timers set_timers].
      now rewrite Hnext, Htimers.
    - exists (snd (setTimeout (cb_claimInvalid claimer)
                     (generateRandomNumber 3 6 u * 1000)
                     (on_relay (RelayM.claimMade claimer) (pauseCalling a)))).
      split; [reflexivity|].
      cbn [setTimeout schedule snd timers set_timers].
      now rewrite Hnext, Htimers. }
  split.
  - intros u draws Hu. destruct (Hstep u draws) as [a' [Hrun Ht]].
    exists a'. eexists. split; [exact Hrun|]. split; [exact Ht|].
    destruct (verifyClaim (game_called (game a)) gamecard).
    + apply (generateRandomNumber_range 4 8 ltac:(lia) safe_range_4_8 u Hu).
    + apply (generateRandomNumber_range 3 6 ltac:(lia) safe_range_3_6 u Hu).
  - intros k Hk.
    destruct (verifyClaim (game_called (game a)) gamecard) eqn:Hverify.
    + destruct (generateRandomNumber_onto 4 8 k safe_range_4_8
                  ltac:(vm_compute; discriminate) Hk) as [u [Hu Hgen]].
      exists u. split; [exact Hu|]. intros draws.
      destruct (Hstep u draws) as [a' [Hrun Ht]].
      exists a'. split; [exact Hrun|]. now rewrite <- Hgen.
    + destruct (generateRandomNumber_onto 3 6 k safe_range_3_6
                  ltac:(vm_compute; discriminate) Hk) as [u [Hu Hgen]].
      exists u. split; [exact Hu|]. intros draws.
      destruct (Hstep u draws) as [a' [Hrun Ht]].
      exists a'. split; [exact Hrun|]. now rewrite <- Hgen.
Qed.

Lemma commandClaim_delay_inclusive_witness :
  exists a' k,
    handleCommand (Claim "5e1f0001" (map Z.of_nat (seq 26 25)))
      samplePlayingHost [Number.dyadic 1 1] = Some (a', []) /\
    timers a'
    = (timers (pauseCalling samplePlayingHost)
       ++ [outcome_timer samplePlayingHost "5e1f0001"
             (map Z.of_nat (seq 26 25)) (k * 1000)])%list /\
    3 <= k <= 6.
Proof.
  destruct (proj1 (commandClaim_delay_inclusive samplePlayingHost "5e1f0001"
                     (map Z.of_nat (seq 26 25)) eq_refl
                     ltac:(vm_compute; tauto))
              (Number.dyadic 1 1) [])
    as [a' [k [Hrun [Htimers Hk]]]].
  - repeat split.
  - exists a', k. split; [exact Hrun|]. split; [exact Htimers|].
    exact Hk.
Defined.

(* ------------------------------------------------------------------ *)
(** ** The draw tick *)
(* ------------------------------------------------------------------ *)

(** One draw tick, when it returns. *)
Lemma callNumber_spec (a a' : BingoApp) (draws rest : list spec_float) :
  Forall unit_interval draws ->
  callNumber a draws = Some (a', rest) ->
  exists number,
    in_range 1 90 number /\
    ~ In number (game_called (game a)) /\
    game_called (game a') = (game_called (game a) ++ [number])%list /\
    sent (relay a')
    = (sent (relay a)
       ++ [Call number (game_called (game a) ++ [number])])%list /\
    party a' = party a /\
    (List.length (game_called (game a')) = 90%nat ->
     forall id, callingInterval a = Some id -> pending id a' = None) /\
    (List.length (game_called (game a')) <> 90%nat -> timers a' = timers a) /\
    (exists used, draws = used ++ rest)%list.
Proof.
  intros Hdraws Hrun. unfold callNumber in Hrun.
  destruct (generateRandomNumberNotAlreadyCalled 1 90 (game_called (game a))
              draws) as [[number draws']|] eqn:Hgen; [|discriminate].
  destruct (generateRandomNumberNotAlreadyCalled_spec 1 90 ltac:(lia)
              safe_range_1_90 _ draws
              number draws' Hdraws Hgen) as (Hr & Hfresh & Hused).
  exists number.
  cbn [game_called game set_game_called set_game on_relay set_relay] in Hrun.
  destruct (Nat.eqb_spec (List.length (game_called (game a) ++ [number])) 90)
    as [Hlen|Hlen]; injection Hrun as <- <-.
  - unfold pauseCalling, clearInterval.
    cbn [callingInterval on_relay set_relay set_game_called set_game].
    split; [assumption|]. split; [assumption|].
    destruct (callingInterval a) as [h|] eqn:Hh.
    + split; [reflexivity|]. split; [reflexivity|]. split; [reflexivity|].
      split; [|split; [|assumption]].
      * intros _ id [= <-]. apply pending_clearTimer.
      * intros Hne. cbn in Hne. contradiction.
    + split; [reflexivity|]. split; [reflexivity|]. split; [reflexivity|].
      split; [|split; [|assumption]].
      * intros _ id [=].
      * intros Hne. cbn in Hne. contradiction.
  - split; [assumption|]. split; [assumption|].
    split; [reflexivity|]. split; [reflexivity|]. split; [reflexivity|].
    split; [|split; [reflexivity | assumption]].
    intros Heq. cbn in Heq. contradiction.
Qed.

(** The draw tick returns as soon as a draw brings a missing number, and one
    does while fewer than 90 numbers have been called. *)
Lemma callNumber_progress (a : BingoApp) :
  (List.length (game_called (game a)) < 90)%nat ->
  exists u, unit_interval u /\
            forall rest, exists a', callNumber a (u :: rest) = Some (a', rest).
Proof.
  intros Hlen. destruct (missing_number _ Hlen) as [k [Hk Hfresh]].
  destruct (generateRandomNumber_onto 1 90 k safe_range_1_90
              ltac:(vm_compute; discriminate) Hk) as [u [Hu Hgen]].
  exists u. split; [assumption|]. intros rest. unfold callNumber.
  rewrite generateRandomNumberNotAlreadyCalled_fresh;
    [|lia | exact safe_range_1_90 | assumption | now rewrite Hgen].
  destruct (_ =? _)%nat; eexists; reflexivity.
Qed.

(** Once all 90 numbers are called, a further draw tick never returns. *)
Lemma callNumber_exhausted (a : BingoApp) (draws : list spec_float) :
  Forall unit_interval draws ->
  called_ok (game_called (game a)) ->
  List.length (game_called (game a)) = 90%nat ->
  callNumber a draws = None.
Proof.
  intros Hdraws [Hnd Hall] Hlen.
  destruct (callNumber a draws) as [[a' rest]|] eqn:Hrun; [|reflexivity].
  exfalso.
  destruct (callNumber_spec a a' draws rest Hdraws Hrun)
    as (number & Hr & Hfresh & _).
  assert (Hnd' : NoDup (number :: game_called (game a)))
    by (constructor; assumption).
  assert (Hall' : Forall (in_range 1 90) (number :: game_called (game a)))
    by (constructor; assumption).
  pose proof (NoDup_range_length 1 90 _ Hnd' Hall') as Hbound.
  cbn [List.length] in Hbound. lia.
Qed.

Lemma called_ok_push (called : list Z) (number : Z) :
  called_ok called -> in_range 1 90 number -> ~ In number called ->
  called_ok (called ++ [number]).
Proof.
  intros [Hnd Hall] Hr Hfresh. split.
  - apply NoDup_app; [assumption | repeat constructor; intros [] |].
    intros x Hx [<-|[]]. contradiction.
  - apply Forall_app. split; [assumption|].
    constructor; [assumption | constructor].
Qed.

Lemma called_ok_length (called : list Z) :
  called_ok called -> (List.length called <= 90)%nat.
Proof.
  intros [Hnd Hall]. pose proof (NoDup_range_length 1 90 called Hnd Hall). lia.
Qed.

(* ------------------------------------------------------------------ *)
(** ** The host's called numbers along a run *)
(* ------------------------------------------------------------------ *)

Ltac break_conditions :=
  repeat match goal with
    | |- context [if ?c then _ else _] => destruct c
    | |- context [match ?h with Some _ => _ | None => _ end] => destruct h
    end.

(** The handlers that draw nothing leave the host's role and called numbers
    alone, except [reset], which empties the called numbers. *)
Lemma handleCommand_host_inv (command : Command) (a a' : BingoApp)
  (draws rest : list spec_float) :
  host_inv a -> Forall unit_interval draws ->
  handleCommand command a draws = Some (a', rest) ->
  host_inv a' /\ Forall unit_interval rest.
Proof.
  intros [Hrole Hok] Hdraws Hrun. unfold host_inv.
  destruct command; cbn [handleCommand] in Hrun;
    try (injection Hrun as <- <-; split; [|assumption]).
  - unfold commandHostIdentify. rewrite Hrole. cbn. auto.
  - unfold commandHostIdentified, tryToJoinGame, clearTimeout, clearTimer.
    cbn. break_conditions; cbn; auto.
  - unfold commandJoinGame. rewrite Hrole. cbn.
    break_conditions; cbn; auto.
  - unfold commandJoinedGame, clearTimeout, clearTimer.
    break_conditions; cbn; auto.
  - unfold commandHold, clearTimeout, clearTimer, setTimeout, schedule.
    break_conditions; cbn; auto.
  - unfold commandLeaveGame. rewrite Hrole. cbn. auto.
  - unfold commandUpdatePlayers. rewrite Hrole. cbn. auto.
  - unfold commandStartGame, generateGameCard in Hrun.
    destruct (generateRandomNumbers 1 90 25 draws) as [[numbers draws']|]
      eqn:Hgen; [|discriminate].
    destruct (generateRandomNumbers_loop_spec 1 90 ltac:(lia)
                  safe_range_1_90 25 draws Hdraws
                [] numbers draws') as (_ & _ & _ & used & Hused);
      [constructor | constructor | simpl; lia | exact Hgen |].
    assert (Hrest : Forall unit_interval draws')
      by (eapply Forall_suffix; eassumption).
    revert Hrun.
    unfold clearInterval, clearTimer, classList_add, setTimeout, schedule,
      startCalling, setInterval, schedule.
    cbn. break_conditions; cbn; intros Hrun; try discriminate;
      injection Hrun as <- <-; cbn; auto.
  - cbn. split; [assumption|]. split; constructor.
  - unfold commandCall. rewrite Hrole. cbn. auto.
  - unfold commandClaim in Hrun. rewrite Hrole in Hrun.
    cbn [Role_eqb andb] in Hrun. revert Hrun.
    unfold pauseCalling, clearInterval, clearTimer, setTimeout, schedule.
    destruct Hdraws as [|u draws' Hu Hdraws'];
      cbn; break_conditions; cbn; intros Hrun; try discriminate;
      injection Hrun as <- <-; cbn; auto.
  - cbn. auto.
  - unfold commandClaimValid, classList_add, classList_remove.
    break_conditions; cbn; auto.
  - cbn. auto.
  - auto.
Qed.

Lemma runCallback_host_inv (callback : Callback) (a a' : BingoApp)
  (draws rest : list spec_float) :
  host_inv a -> Forall unit_interval draws ->
  runCallback callback a draws = Some (a', rest) ->
  host_inv a' /\ Forall unit_interval rest.
Proof.
  intros [Hrole Hok] Hdraws Hrun. unfold host_inv.
  destruct callback; cbn [runCallback] in Hrun;
    try (injection Hrun as <- <-; split; [|assumption]).
  - unfold possiblyAssumeHost. break_conditions; cbn; auto.
  - unfold getReady, clearInterval, clearTimer.
    break_conditions; cbn; auto.
  - cbn. auto.
  - cbn. auto.
  - destruct (callNumber_spec a a' draws rest Hdraws Hrun)
      as (number & Hr & Hfresh & Hcalled & _ & Hparty & _ & _ & used & Hused).
    rewrite Hparty, Hcalled. split; [split; [assumption|]|].
    + now apply called_ok_push.
    + eapply Forall_suffix; eassumption.
  - cbn. auto.
  - cbn. auto.
Qed.

Lemma handleEvent_host_inv (e : Event) (a a' : BingoApp)
  (draws rest : list spec_float) :
  host_inv a -> Forall unit_interval draws ->
  handleEvent e a draws = Some (a', rest) ->
  host_inv a' /\ Forall unit_interval rest.
Proof.
  intros Hinv Hdraws Hrun.
  destruct e; cbn [handleEvent] in Hrun;
    try (injection Hrun as <- <-; split; [|assumption]; destruct Hinv;
         unfold host_inv).
  - eapply handleCommand_host_inv; eassumption.
  - unfold fireTimer in Hrun. destruct (pending id a) as [t|].
    + eapply runCallback_host_inv; [| |exact Hrun]; [|assumption].
      destruct Hinv. unfold host_inv.
      destruct (timer_repeats t); cbn; auto.
    + injection Hrun as <- <-. auto.
  - unfold startGame. break_conditions; cbn; auto.
  - unfold resetGame. break_conditions; cbn; auto.
  - cbn. auto.
  - cbn. auto.
Qed.

Lemma run_host_inv (events : list Event) :
  forall (a a' : BingoApp) (draws rest : list spec_float),
    host_inv a -> Forall unit_interval draws ->
    run events a draws = Some (a', rest) ->
    host_inv a' /\ Forall unit_interval rest.
Proof.
  induction events as [|e events IH]; intros a a' draws rest Hinv Hdraws Hrun.
  - injection Hrun as <- <-. auto.
  - cbn [run] in Hrun.
    destruct (handleEvent e a draws) as [[a1 draws1]|] eqn:Hstep;
      [|discriminate].
    destruct (handleEvent_host_inv e a a1 draws draws1 Hinv Hdraws Hstep)
      as [Hinv1 Hdraws1].
    eapply IH; eassumption.
Qed.

Lemma run_cons (e : Event) (events : list Event) (a : BingoApp)
  (draws : list spec_float) :
  run (e :: events) a draws
  = match handleEvent e a draws with
    | Some (a', draws') => run events a' draws'
    | None => None
    end.
Proof. reflexivity. Qed.

Lemma becomeHost_host_inv (b : BingoApp) :
  called_ok (game_called (game b)) -> host_inv (becomeHost b).
Proof. intros H. split; [reflexivity | exact H]. Qed.

(** A peer whose host-wait timeout (timer 1) fires before it has handled
    anything becomes a host on which the invariant holds for good. *)
Lemma fresh_host_called_ok (id : string) (u : spec_float) (events : list Event)
  (a' : BingoApp) (draws rest : list spec_float) :
  Forall unit_interval draws ->
  run (Fire 1 :: events) (newBingoApp id u) draws = Some (a', rest) ->
  host_inv a'.
Proof.
  intros Hdraws Hrun.
  assert (Hfire : handleEvent (Fire 1) (newBingoApp id u) draws
                  = Some (becomeHost (clearTimer (Some 1%nat)
                                        (newBingoApp id u)), draws))
    by (vm_compute; reflexivity).
  rewrite run_cons, Hfire in Hrun.
  eapply run_host_inv; [|exact Hdraws|exact Hrun].
  apply becomeHost_host_inv.
  assert (Hcalled : game_called (game (clearTimer (Some 1%nat)
                                         (newBingoApp id u))) = [])
    by (vm_compute; reflexivity).
  rewrite Hcalled. split; constructor.
Qed.

(* ------------------------------------------------------------------ *)
(** ** C8: the called numbers of the host *)
(* ------------------------------------------------------------------ *)

(** A peer handles the same [call] twice while it is still a player, then its
    host-wait timeout (timer 1) fires with an empty roster: it is now host,
    and its called numbers hold a duplicate. *)
Lemma host_called_duplicate_after_promotion :
  exists a',
    run [Deliver (Call 7 [7]); Deliver (Call 7 [7]); Fire 1] samplePeer []
    = Some (a', []) /\
    party_role (party a') = host /\
    game_called (game a') = [7; 7] /\
    ~ NoDup (game_called (game a')).
Proof.
  eexists. split; [vm_compute; reflexivity|].
  split; [reflexivity|]. split; [reflexivity|].
  cbn. intros H. inversion H as [|x l Hnotin _]; subst.
  apply Hnotin. now left.
Qed.

(** C8 (amended). On a host whose called numbers are pairwise distinct and
    within [[1, 90]] (as they are when nothing has been called yet), they stay
    so, and never number more than 90, whatever commands, timers and clicks
    the host handles next.  Every draw tick that returns appends one number of
    [[1, 90]] that was not called yet and broadcasts it with the whole list of
    called numbers; a tick that brings the list to 90 entries clears the
    interval kept in [callingInterval]; and while fewer than 90 numbers are
    called, some draw makes the tick return. *)
Theorem host_called_numbers (a : BingoApp) :
  party_role (party a) = host ->
  called_ok (game_called (game a)) ->
  (forall events draws a' rest,
     Forall unit_interval draws ->
     run events a draws = Some (a', rest) ->
     party_role (party a') = host /\
     called_ok (game_called (game a')) /\
     (List.length (game_called (game a')) <= 90)%nat) /\
  (forall draws a' rest,
     Forall unit_interval draws ->
     callNumber a draws = Some (a', rest) ->
     exists number,
       in_range 1 90 number /\
       ~ In number (game_called (game a)) /\
       game_called (game a') = (game_called (game a) ++ [number])%list /\
       sent (relay a')
       = (sent (relay a)
          ++ [Call number (game_called (game a) ++ [number])])%list /\
       (List.length (game_called (game a')) = 90%nat ->
        forall id, callingInterval a = Some id -> pending id a' = None)) /\
  ((List.length (game_called (game a)) < 90)%nat ->
   exists u, unit_interval u /\
             forall rest,
             exists a', callNumber a (u :: rest) = Some (a', rest)).
Proof.
  intros Hrole Hok. split; [|split].
  - intros events draws a' rest Hdraws Hrun.
    destruct (run_host_inv events a a' draws rest (conj Hrole Hok) Hdraws Hrun)
      as [[Hrole' Hok'] _].
    split; [assumption|]. split; [assumption|]. now apply called_ok_length.
  - intros draws a' rest Hdraws Hrun.
    destruct (callNumber_spec a a' draws rest Hdraws Hrun)
      as (number & Hr & Hfresh & Hcalled & Hsent & _ & Hpause & _).
    exists number. auto.
  - apply callNumber_progress.
Qed.

Lemma host_called_numbers_witness :
  party_role (party samplePlayingHost) = host /\
  called_ok (game_called (game samplePlayingHost)) /\
  (List.length (game_called (game samplePlayingHost)) <= 90)%nat.
Proof.
  apply (proj1 (host_called_numbers sampleHost eq_refl
                  (conj (NoDup_nil Z) (Forall_nil (in_range 1 90))))
           [Deliver (Join "5e1f0001"); Deliver Start;
            Fire 4; Fire 4; Fire 4; Fire 4; Fire 4]
           (ascending_draws 90 0 25 ++ ascending_draws 90 0 5)%list
           samplePlayingHost []).
  - apply Forall_app. split; apply ascending_draws_unit; simpl; lia.
  - vm_compute. reflexivity.
Defined.

(* ================================================================== *)
(** * Further properties of the code *)
(* ================================================================== *)

(* ------------------------------------------------------------------ *)
(** ** The draw generator *)
(* ------------------------------------------------------------------ *)

(** X1. For safe bounds [min <= max], [generateRandomNumber (min, max)]
    lies within its inclusive bounds whatever double [Math.random()]
    returns; and when the range holds at most [2^26] numbers, every integer
    of [[min, max]] is the result for some value of [Math.random()]: both
    bounds are reached. *)
Theorem generateRandomNumber_inclusive_onto (min max : Z) :
  min <= max -> safe_range min max ->
  (forall u, unit_interval u ->
             min <= generateRandomNumber min max u <= max) /\
  (max - min + 1 <= 2 ^ 26 ->
   forall k, min <= k <= max ->
             exists u, unit_interval u /\ generateRandomNumber min max u = k).
Proof.
  intros Hmm Hsafe. split.
  - intros u Hu. now apply generateRandomNumber_range.
  - intros Hn k Hk. now apply generateRandomNumber_onto.
Qed.

Lemma generateRandomNumber_inclusive_onto_witness :
  5000 <= generateRandomNumber 5000 8000 (draw 3001 3000) <= 8000 /\
  exists u, unit_interval u /\ generateRandomNumber 5000 8000 u = 8000.
Proof.
  split.
  - apply (proj1 (generateRandomNumber_inclusive_onto 5000 8000 ltac:(lia)
                    safe_range_5000_8000)).
    repeat split.
  - apply (proj2 (generateRandomNumber_inclusive_onto 5000 8000 ltac:(lia)
                    safe_range_5000_8000)).
    + vm_compute. discriminate.
    + lia.
Defined.

(** X2. For safe bounds [min <= max], [generateRandomNumbers (min, max,
    length)] asked for more numbers than the range holds loops for ever
    whatever is drawn; asked for [length <= max - min + 1] numbers of a range
    of at most [2^26] numbers, it returns for suitable draws. *)
Theorem generateRandomNumbers_returns_iff (min max length : Z) :
  min <= max -> safe_range min max ->
  (max - min + 1 < length ->
   forall draws, Forall unit_interval draws ->
                 generateRandomNumbers min max length draws = None) /\
  (length <= max - min + 1 -> max - min + 1 <= 2 ^ 26 ->
   exists draws numbers rest,
     Forall unit_interval draws /\
     generateRandomNumbers min max length draws = Some (numbers, rest)).
Proof.
  intros Hmm Hsafe. split.
  - intros Hgt draws Hdraws.
    now apply generateRandomNumbers_exhausted.
  - intros Hle Hn. destruct (Z.le_gt_cases length 0) as [Hneg|Hpos].
    + exists [], [], []. split; [constructor|].
      unfold generateRandomNumbers. cbn.
      destruct (Z.ltb_spec 0 length); [lia | reflexivity].
    + exists (ascending_draws (max - min + 1) 0 (Z.to_nat length)).
      exists (map (fun k => min + Z.of_nat k) (seq 0 (Z.to_nat length))), [].
      split; [apply ascending_draws_unit; lia|].
      unfold generateRandomNumbers.
      apply (generateRandomNumbers_loop_ascending min max length
               Hmm Hsafe Hn (Z.to_nat length) 0%nat []);
        [lia | lia | reflexivity].
Qed.

Lemma generateRandomNumbers_returns_iff_witness :
  generateRandomNumbers 1 3 4
    [Number.of_Z 0; Number.dyadic 1 1; Number.dyadic 7 3; Number.dyadic 1 2]
  = None.
Proof.
  apply (proj1 (generateRandomNumbers_returns_iff 1 3 4 ltac:(lia)
                  ltac:(apply safe_range_intro; vm_compute;
                        intuition discriminate))).
  - lia.
  - repeat constructor.
Defined.

(** X3. When [generateRandomNumberNotAlreadyCalled (min, max, array)]
    returns, its result is not in [array] and is not 0 (a drawn 0 reads as
    "no number yet"), whatever the bounds and the draws; and it lies within
    [[min, max]] when the bounds are safe integers [min <= max]. *)
Theorem generateRandomNumberNotAlreadyCalled_result
  (min max : Z) (array : list Z) (draws : list spec_float) (n : Z)
  (rest : list spec_float) :
  generateRandomNumberNotAlreadyCalled min max array draws = Some (n, rest) ->
  ~ In n array /\ n <> 0 /\
  (min <= max -> safe_range min max -> Forall unit_interval draws ->
   min <= n <= max).
Proof.
  intros Hrun.
  unfold generateRandomNumberNotAlreadyCalled in Hrun.
  destruct (generateRandomNumberNotAlreadyCalled_loop min max array JsFalse
              draws) as [[v rest']|] eqn:Hloop; [|discriminate].
  destruct (generateRandomNumberNotAlreadyCalled_loop_fresh min max array
              draws JsFalse v rest' (or_introl eq_refl) Hloop)
    as [m [-> [Hm0 Hfresh]]].
  injection Hrun as <- <-. split; [exact Hfresh|]. split; [exact Hm0|].
  intros Hmm Hsafe Hdraws.
  destruct (generateRandomNumberNotAlreadyCalled_loop_number min max Hmm
              Hsafe array draws Hdraws JsFalse (JsNumber m) rest'
              (or_introl eq_refl) Hloop)
    as [[m' [Heq [_ [Hr _]]]] _].
  injection Heq as ->. exact Hr.
Qed.

Lemma generateRandomNumberNotAlreadyCalled_result_witness :
  ~ In 3 [1; 2] /\ 3 <> 0 /\ 1 <= 3 <= 90.
Proof.
  destruct (generateRandomNumberNotAlreadyCalled_result 1 90 [1; 2]
              [draw 90 0; draw 90 1; draw 90 2] 3 [] eq_refl)
    as (Hfresh & Hn0 & Hrange).
  split; [exact Hfresh|]. split; [exact Hn0|].
  apply Hrange; [lia | exact safe_range_1_90 | repeat constructor].
Defined.

(** X4. For safe bounds [min <= max] of a range of at most [2^26] numbers,
    [generateRandomNumberNotAlreadyCalled (min, max, array)] can return
    exactly when some number of [[min, max]] other than 0 is missing from
    [array]: with every such number in [array] it loops for ever, even if 0
    lies in the range and is missing. *)
Theorem generateRandomNumberNotAlreadyCalled_returns_iff
  (min max : Z) (array : list Z) :
  min <= max -> safe_range min max -> max - min + 1 <= 2 ^ 26 ->
  ((exists draws n rest,
      Forall unit_interval draws /\
      generateRandomNumberNotAlreadyCalled min max array draws
      = Some (n, rest)) <->
   (exists k, min <= k <= max /\ k <> 0 /\ ~ In k array)).
Proof.
  intros Hmm Hsafe Hn. split.
  - intros (draws & n & rest & Hdraws & Hrun). exists n.
    destruct (generateRandomNumberNotAlreadyCalled_result min max array draws
                n rest Hrun) as (Hfresh & Hn0 & Hr).
    auto.
  - intros (k & Hr & Hk0 & Hfresh).
    destruct (generateRandomNumber_onto min max k Hsafe Hn Hr)
      as [u [Hu Hgen]].
    exists [u], k, []. split; [constructor; [assumption | constructor]|].
    unfold generateRandomNumberNotAlreadyCalled.
    cbn [generateRandomNumberNotAlreadyCalled_loop js_not]. rewrite Hgen.
    apply indexOf_absent in Hfresh. rewrite Hfresh. cbn [Z.eqb Pos.eqb].
    destruct (Z.eqb_spec k 0); [contradiction | reflexivity].
Qed.

Lemma generateRandomNumberNotAlreadyCalled_returns_iff_witness :
  ~ (exists draws n rest,
       Forall unit_interval draws /\
       generateRandomNumberNotAlreadyCalled 0 2 [1; 2] draws = Some (n, rest)).
Proof.
  intros H.
  apply (proj1 (generateRandomNumberNotAlreadyCalled_returns_iff 0 2 [1; 2]
                  ltac:(lia)
                  ltac:(apply safe_range_intro; vm_compute;
                        intuition discriminate)
                  ltac:(vm_compute; discriminate))) in H.
  destruct H as (k & Hr & Hk0 & Hfresh).
  apply Hfresh. simpl. lia.
Defined.

(* ------------------------------------------------------------------ *)
(** ** Claim verification on any card *)
(* ------------------------------------------------------------------ *)

(** Every row the row loop pushes holds at least one number. *)
Lemma rows_loop_nonempty (gamecard : list Z) :
  forall (fuel i : nat) (rows : list (list Z)),
    Forall (fun row => row <> []) rows ->
    Forall (fun row => row <> []) (rows_loop fuel i gamecard rows).
Proof.
  induction fuel as [|fuel IH]; intros i rows Hrows; cbn [rows_loop];
    [assumption|].
  destruct (Nat.ltb_spec i (List.length gamecard)) as [Hlt|Hge];
    [|assumption].
  apply IH. apply Forall_app. split; [assumption|].
  constructor; [|constructor].
  unfold slice. replace (i + 5 - i)%nat with 5%nat by lia.
  intros Hnil.
  assert (Hlen : List.length (firstn 5 (skipn i gamecard)) = 0%nat)
    by now rewrite Hnil.
  rewrite length_firstn, length_skipn in Hlen. lia.
Qed.

Lemma filter_index_from_In {A} (p : nat -> bool) (d : A) :
  forall (array : list A) (i k : nat),
    (k < List.length array)%nat -> p (i + k)%nat = true ->
    In (nth k array d) (filter_index_from i p array).
Proof.
  induction array as [|x array IH]; intros i k Hk Hp; [simpl in Hk; lia|].
  cbn [filter_index_from]. destruct k as [|k].
  - rewrite Nat.add_0_r in Hp. rewrite Hp. now left.
  - assert (Hin : In (nth k array d) (filter_index_from (S i) p array)).
    { apply IH; [simpl in Hk; lia|].
      now replace (S i + k)%nat with (i + S k)%nat by lia. }
    cbn [nth]. destruct (p i); [now right | assumption].
Qed.

(** X5. A claim that is valid stays valid when more numbers have been
    called: [verifyClaim] is monotone in the list of called numbers. *)
Theorem verifyClaim_monotone (called called' gamecard : list Z) :
  incl called called' ->
  verifyClaim called gamecard = true ->
  verifyClaim called' gamecard = true.
Proof.
  intros Hincl Hvalid. apply verifyClaim_lines in Hvalid.
  destruct Hvalid as [line [Hline Hall]].
  apply verifyClaim_lines. exists line. split; [assumption|].
  intros n Hn. apply Hincl. now apply Hall.
Qed.

Lemma verifyClaim_monotone_witness :
  verifyClaim [90; 1; 6; 11; 16; 21; 44] (map Z.of_nat (seq 1 25)) = true.
Proof.
  apply (verifyClaim_monotone [1; 6; 11; 16; 21]).
  - intros n Hn. simpl in *. tauto.
  - reflexivity.
Defined.

(** X6. A card of fewer than five numbers is judged valid whatever has been
    called: its last column is empty, and [every] holds of an empty array. *)
Theorem verifyClaim_short_card (called gamecard : list Z) :
  (List.length gamecard < 5)%nat ->
  verifyClaim called gamecard = true.
Proof.
  intros Hlen. apply verifyClaim_lines. exists []. split; [|intros n []].
  apply in_or_app. right.
  do 5 (destruct gamecard as [|? gamecard];
        [cbn; tauto|]).
  simpl in Hlen. lia.
Qed.

Lemma verifyClaim_short_card_witness :
  verifyClaim [] [17; 42; 63; 88] = true.
Proof. apply verifyClaim_short_card. simpl. lia. Defined.

(** X7. While nothing has been called, no card of five numbers or more is
    judged valid: each of its rows and columns holds some number. *)
Theorem verifyClaim_nothing_called (gamecard : list Z) :
  (5 <= List.length gamecard)%nat ->
  verifyClaim [] gamecard = false.
Proof.
  intros Hlen.
  destruct (verifyClaim [] gamecard) eqn:Hvalid; [|reflexivity].
  exfalso. apply verifyClaim_lines in Hvalid.
  destruct Hvalid as [line [Hline Hall]].
  assert (Hnil : line = []).
  { destruct line as [|n line]; [reflexivity|].
    destruct (Hall n (or_introl eq_refl)). }
  subst line. apply in_app_or in Hline. destruct Hline as [Hrow|Hcol].
  - pose proof (rows_loop_nonempty gamecard (List.length gamecard) 0 []
                  (Forall_nil _)) as Hrows.
    rewrite Forall_forall in Hrows. now apply (Hrows [] Hrow).
  - unfold card_columns in Hcol. apply in_map_iff in Hcol.
    destruct Hcol as [column [Hempty Hcolumn]]. apply in_seq in Hcolumn.
    assert (Hin : In (nth column gamecard 0)
                    (filter_index (fun i => (i mod 5 =? column)%nat)
                       gamecard)).
    { unfold filter_index. apply filter_index_from_In; [lia|].
      apply Nat.eqb_eq. apply Nat.mod_small. lia. }
    rewrite Hempty in Hin. destruct Hin.
Qed.

Lemma verifyClaim_nothing_called_witness :
  verifyClaim [] (map Z.of_nat (seq 1 25)) = false.
Proof.
  apply verifyClaim_nothing_called. simpl. lia.
Defined.

(* ------------------------------------------------------------------ *)
(** ** Starting a game and calling numbers *)
(* ------------------------------------------------------------------ *)

Lemma classList_add_frame (c : string) (b : BingoApp) :
  exists l, classList_add c b = set_classList l b.
Proof.
  unfold classList_add. destruct (existsb (String.eqb c) (classList b)).
  - exists (classList b). now destruct b.
  - eexists. reflexivity.
Qed.

(** X8. Handling [start] deals the peer a card of 25 pairwise distinct
    numbers of [[1, 90]], sets the status to [playing] and enables the claim
    button; the called numbers, the disqualified peers and the party are
    left as they were.  The ready poll is cancelled and a 5000 ms timeout for
    the status text is registered; a host also registers a draw interval of
    5000 ms and keeps its handle, a player does not.  Some draws make the
    handler return. *)
Theorem commandStartGame_deals_card (a : BingoApp) :
  (forall draws a' rest,
     Forall unit_interval draws ->
     handleCommand Start a draws = Some (a', rest) ->
     List.length (game_card (game a')) = 25%nat /\
     NoDup (game_card (game a')) /\
     Forall (in_range 1 90) (game_card (game a')) /\
     game_status (game a') = playing /\
     game_called (game a') = game_called (game a) /\
     game_disqualified (game a') = game_disqualified (game a) /\
     party a' = party a /\
     claimButton_disabled (elements a') = false /\
     timers a'
     = (timers (clearInterval (getReadyInterval a) a)
        ++ mkTimer (nextTimerId a) cb_clearStatus 5000 false
           :: (if Role_eqb (party_role (party a)) host
               then [mkTimer (S (nextTimerId a)) cb_callNumber 5000 true]
               else []))%list /\
     callingInterval a'
     = (if Role_eqb (party_role (party a)) host
        then Some (S (nextTimerId a)) else callingInterval a)) /\
  (exists draws a',
     Forall unit_interval draws /\
     handleCommand Start a draws = Some (a', [])).
Proof.
  split.
  - intros draws a' rest Hdraws Hrun. cbn [handleCommand] in Hrun.
    unfold commandStartGame, generateGameCard in Hrun.
    destruct (generateRandomNumbers 1 90 25 draws) as [[numbers draws']|]
      eqn:Hgen; [|discriminate].
    destruct (generateRandomNumbers_loop_spec 1 90 ltac:(lia)
                  safe_range_1_90 25 draws Hdraws
                [] numbers draws') as (Hlen & Hnd & Hall & _);
      [constructor | constructor | simpl; lia | exact Hgen |].
    unfold setTimeout, schedule in Hrun. cbv beta iota zeta in Hrun.
    match type of Hrun with
    | context [classList_add ?c ?b] =>
        destruct (classList_add_frame c b) as [l Hl]; rewrite Hl in Hrun
    end.
    revert Hrun.
    unfold clearInterval, clearTimer, startCalling, setInterval, schedule.
    destruct (getReadyInterval a) as [g|]; cbn;
      destruct (party_role (party a)); cbn;
      intros Hrun; injection Hrun as <- <-; cbn;
      (split; [lia|]); (split; [assumption|]); (split; [assumption|]);
      repeat (split; [reflexivity|]);
      try (split; [now rewrite <- app_assoc | reflexivity]); try reflexivity.
  - exists (ascending_draws 90 0 25).
    assert (Hgen : generateRandomNumbers 1 90 25 (ascending_draws 90 0 25)
                   = Some (map (fun k => 1 + Z.of_nat k) (seq 0 25), []))
      by (vm_compute; reflexivity).
    assert (Hrun : exists a', handleCommand Start a (ascending_draws 90 0 25)
                              = Some (a', [])).
    { cbn [handleCommand]. unfold commandStartGame, generateGameCard.
      rewrite Hgen. unfold setTimeout, schedule. cbv beta iota zeta.
      match goal with
      | |- context [if ?c then _ else _] => destruct c
      end; eexists; reflexivity. }
    destruct Hrun as [a' Hrun]. exists a'.
    split; [apply ascending_draws_unit; simpl; lia | exact Hrun].
Qed.

Lemma commandStartGame_deals_card_witness :
  exists a',
    handleCommand Start sampleJoiner (ascending_draws 90 20 25)
    = Some (a', []) /\
    List.length (game_card (game a')) = 25%nat /\
    NoDup (game_card (game a')) /\
    game_status (game a') = playing.
Proof.
  assert (Hrun : exists a', handleCommand Start sampleJoiner
                              (ascending_draws 90 20 25) = Some (a', []))
    by (eexists; vm_compute; reflexivity).
  destruct Hrun as [a' Hrun]. exists a'. split; [exact Hrun|].
  destruct (proj1 (commandStartGame_deals_card sampleJoiner)
              (ascending_draws 90 20 25) a' []) as (H1 & H2 & _ & H4 & _).
  - apply ascending_draws_unit; simpl; lia.
  - exact Hrun.
  - auto.
Defined.

(** X9. A player appends every [call] it handles to its called numbers
    without looking for the number in them: the same call handled twice
    leaves the number twice.  A host appends nothing (it did when it drew). *)
Theorem commandCall_appends_unchecked
  (a : BingoApp) (number : Z) (calledNumbers calledNumbers' : list Z)
  (draws : list spec_float) :
  exists a',
    run [Deliver (Call number calledNumbers);
         Deliver (Call number calledNumbers')] a draws = Some (a', draws) /\
    (party_role (party a) <> host ->
     game_called (game a')
     = (game_called (game a) ++ [number; number])%list) /\
    (party_role (party a) = host ->
     game_called (game a') = game_called (game a)) /\
    next_innerText (elements a') = Some number /\
    called_innerHTML (elements a') = game_called (game a').
Proof.
  eexists. split; [reflexivity|]. unfold commandCall.
  destruct (party_role (party a)) eqn:Hrole; cbn; rewrite ?Hrole; cbn.
  - split; [intros _; now rewrite <- app_assoc|].
    split; [discriminate|]. split; reflexivity.
  - split; [intros H; now contradiction H|].
    split; [reflexivity|]. split; reflexivity.
Qed.

(** X10. A draw tick of the host and the handling of its [call] by a player
    keep the two lists of called numbers equal: the player that had the
    host's called numbers before the tick has them after the call, and they
    are the list the message carries. *)
Theorem commandCall_mirrors_host
  (h h' p : BingoApp) (draws rest ds : list spec_float) :
  Forall unit_interval draws ->
  callNumber h draws = Some (h', rest) ->
  party_role (party p) <> host ->
  game_called (game p) = game_called (game h) ->
  exists number p',
    sent (relay h')
    = (sent (relay h) ++ [Call number (game_called (game h'))])%list /\
    handleCommand (Call number (game_called (game h'))) p ds
    = Some (p', ds) /\
    game_called (game p') = game_called (game h').
Proof.
  intros Hdraws Htick Hrole Hsame.
  destruct (callNumber_spec h h' draws rest Hdraws Htick)
    as (number & _ & _ & Hcalled & Hsent & _).
  exists number. eexists. split; [now rewrite Hcalled|].
  split; [reflexivity|]. unfold commandCall.
  destruct (party_role (party p)); [|now contradiction Hrole].
  cbn. now rewrite Hsame, Hcalled.
Qed.

Lemma commandCall_mirrors_host_witness :
  exists number p',
    handleCommand (Call number [1; 2; 3; 4; 5; 6])
      (fold_left (fun p n => commandCall n p) [1; 2; 3; 4; 5] sampleJoiner) []
    = Some (p', []) /\
    game_called (game p') = [1; 2; 3; 4; 5; 6].
Proof.
  assert (Htick : exists h', callNumber samplePlayingHost [draw 90 5]
                             = Some (h', []) /\
                             game_called (game h') = [1; 2; 3; 4; 5; 6])
    by (eexists; split; vm_compute; reflexivity).
  destruct Htick as [h' [Htick Hcalled]].
  destruct (commandCall_mirrors_host samplePlayingHost h'
              (fold_left (fun p n => commandCall n p) [1; 2; 3; 4; 5]
                 sampleJoiner) [draw 90 5] [] [])
    as (number & p' & _ & Hrun & Hmirror).
  - repeat constructor.
  - exact Htick.
  - vm_compute. discriminate.
  - vm_compute. reflexivity.
  - exists number, p'. rewrite Hcalled in Hrun, Hmirror. auto.
Defined.

(* ------------------------------------------------------------------ *)
(** ** The roster *)
(* ------------------------------------------------------------------ *)

(** X11. When a host handles [leave], every occurrence of the leaving peer
    disappears from its roster, the other entries stay, in their order, and
    the roster it then broadcasts is the new one; a peer that was not in the
    roster changes nothing in it, and the roster is broadcast all the same. *)
Theorem commandLeaveGame_removes (a : BingoApp) (id : string)
  (draws : list spec_float) :
  party_role (party a) = host ->
  exists a',
    handleCommand (Leave id) a draws = Some (a', draws) /\
    ~ In id (party_players (party a')) /\
    (forall p, p <> id ->
       count_occ string_dec (party_players (party a')) p
       = count_occ string_dec (party_players (party a)) p) /\
    (exists keep,
       party_players (party a')
       = map (fun i => nth i (party_players (party a)) id) keep /\
       StronglySorted lt keep) /\
    (~ In id (party_players (party a)) ->
     party_players (party a') = party_players (party a)) /\
    sent (relay a')
    = (sent (relay a) ++ [Players (party_players (party a'))])%list.
Proof.
  intros Hrole. eexists. split; [reflexivity|].
  unfold commandLeaveGame. rewrite Hrole. cbn.
  set (roster := party_players (party a)).
  assert (Hneq : forall p, negb (String.eqb p id) = true <-> p <> id).
  { intros p. destruct (String.eqb_spec p id); cbn; split; congruence. }
  split; [|split; [|split; [|split]]].
  - intros Hin. apply filter_In in Hin. destruct Hin as [_ Hin].
    now apply Hneq in Hin.
  - intros p Hp. induction roster as [|q roster IH]; [reflexivity|].
    cbn [filter]. destruct (String.eqb_spec q id) as [->|Hq]; cbn [negb].
    + cbn [count_occ]. destruct (string_dec id p); [congruence | exact IH].
    + cbn [count_occ]. destruct (string_dec q p); now rewrite IH.
  - clearbody roster.
    assert (Hgen : forall l,
               exists keep,
                 filter (fun p => negb (String.eqb p id)) l
                 = map (fun i => nth i l id) keep /\
                 StronglySorted lt keep /\
                 Forall (fun i => i < List.length l)%nat keep).
    { induction l as [|q l [keep (Heq & Hsorted & Hbound)]].
      - exists []. repeat split; constructor.
      - assert (Hshift : map (fun i => nth i l id) keep
                         = map (fun i => nth i (q :: l) id) (map S keep))
          by now rewrite map_map.
        assert (Hsorted' : StronglySorted lt (map S keep)).
        { clear -Hsorted. induction Hsorted as [|i keep Hs IH Hall];
            [constructor|].
          cbn. constructor; [assumption|].
          rewrite Forall_map. eapply Forall_impl; [|exact Hall].
          intros j Hj. cbn in *. lia. }
        assert (Hbound' : Forall (fun i => i < List.length (q :: l))%nat
                            (map S keep)).
        { rewrite Forall_map. eapply Forall_impl; [|exact Hbound].
          intros j Hj. cbn in *. lia. }
        cbn [filter]. destruct (negb (String.eqb q id)).
        + exists (0%nat :: map S keep). split; [|split].
          * cbn [map nth]. now rewrite Heq, Hshift.
          * constructor; [assumption|]. rewrite Forall_map.
            apply Forall_forall. intros j _. cbn. lia.
          * constructor; [cbn; lia | assumption].
        + exists (map S keep). split; [|split]; try assumption.
          now rewrite Heq, Hshift. }
    destruct (Hgen roster) as [keep (Heq & Hsorted & _)].
    exists keep. auto.
  - intros Hnotin. clearbody roster.
    induction roster as [|q roster IH]; [reflexivity|].
    cbn [filter]. destruct (String.eqb_spec q id) as [->|Hq]; cbn [negb].
    + exfalso. apply Hnotin. now left.
    + f_equal. apply IH. intros Hin. apply Hnotin. now right.
  - reflexivity.
Qed.

Lemma commandLeaveGame_removes_witness :
  exists a',
    handleCommand (Leave "5e1f0001") samplePlayingHost []
    = Some (a', []) /\
    party_players (party a') = ["a1b2c3d4"%string].
Proof.
  destruct (commandLeaveGame_removes samplePlayingHost "5e1f0001" [] eq_refl)
    as [a' [Hrun _]].
  exists a'. split; [exact Hrun|].
  vm_compute in Hrun. injection Hrun as <-. reflexivity.
Defined.

(** X12. On a host whose game is [joining], a [join] followed by a [leave]
    of the same peer leaves the roster without that peer: it gives back the
    roster as it was exactly when the peer was not in it before.  The host
    has then sent [joined] for the peer, the roster with the peer, and the
    roster without it. *)
Theorem join_then_leave_restores_roster (a : BingoApp) (id : string)
  (draws : list spec_float) :
  party_role (party a) = host ->
  game_status (game a) = joining ->
  exists a',
    run [Deliver (Join id); Deliver (Leave id)] a draws = Some (a', draws) /\
    party_players (party a')
    = filter (fun p => negb (String.eqb p id)) (party_players (party a)) /\
    (party_players (party a') = party_players (party a) <->
     ~ In id (party_players (party a))) /\
    sent (relay a')
    = (sent (relay a)
       ++ [Joined id; Players (party_players (party a) ++ [id]);
           Players (party_players (party a'))])%list.
Proof.
  intros Hrole Hstatus.
  assert (Hfilter : filter (fun p => negb (String.eqb p id))
                      (party_players (party a) ++ [id])
                    = filter (fun p => negb (String.eqb p id))
                        (party_players (party a))).
  { rewrite filter_app. cbn. rewrite String.eqb_refl. cbn.
    apply app_nil_r. }
  assert (Hiff : filter (fun p => negb (String.eqb p id))
                   (party_players (party a)) = party_players (party a) <->
                 ~ In id (party_players (party a))).
  { split.
    - intros Heq Hin. rewrite <- Heq in Hin. apply filter_In in Hin.
      destruct Hin as [_ Hneg]. rewrite String.eqb_refl in Hneg.
      discriminate.
    - intros Hnotin. clear Hfilter.
      induction (party_players (party a)) as [|q roster IH]; [reflexivity|].
      cbn [filter]. destruct (String.eqb_spec q id) as [->|Hq]; cbn [negb].
      + exfalso. apply Hnotin. now left.
      + f_equal. apply IH. intros Hin. apply Hnotin. now right. }
  eexists. split; [reflexivity|].
  unfold commandLeaveGame, commandJoinGame. rewrite Hrole, Hstatus. cbn.
  rewrite Hrole. cbn. rewrite Hfilter. split; [reflexivity|].
  split; [exact Hiff|].
  now rewrite <- !app_assoc.
Qed.

Lemma join_then_leave_restores_roster_witness :
  exists a',
    run [Deliver (Join "5e1f0001"); Deliver (Leave "5e1f0001")] sampleHost []
    = Some (a', []) /\
    party_players (party a') = party_players (party sampleHost).
Proof.
  destruct (join_then_leave_restores_roster sampleHost "5e1f0001" [])
    as [a' [Hrun [_ [Hroster _]]]].
  - reflexivity.
  - reflexivity.
  - exists a'. split; [exact Hrun|]. apply Hroster.
    vm_compute. intros [H|[]]. discriminate H.
Defined.

(** X13. The roster a host broadcasts when it has handled a [join] (game
    [joining]) or a [leave] is its own new roster, and a player that handles
    the broadcast ends with that very roster, whatever roster it had. *)
Theorem roster_broadcast_converges (h p : BingoApp) (id : string)
  (command : Command) (draws ds : list spec_float) :
  party_role (party h) = host ->
  party_role (party p) <> host ->
  (command = Join id /\ game_status (game h) = joining) \/
  command = Leave id ->
  exists h' before p',
    handleCommand command h draws = Some (h', draws) /\
    sent (relay h')
    = (sent (relay h) ++ before
       ++ [Players (party_players (party h'))])%list /\
    handleCommand (Players (party_players (party h'))) p ds
    = Some (p', ds) /\
    party_players (party p') = party_players (party h').
Proof.
  intros Hh Hp Hcommand.
  assert (Hplayer : forall roster,
             party_players (party (commandUpdatePlayers roster p)) = roster)
    by (intros roster; now apply commandUpdatePlayers_roster).
  destruct Hcommand as [[-> Hstatus]| ->].
  - exists (commandJoinGame id h), [Joined id]. eexists.
    split; [reflexivity|]. split; [|split; [reflexivity | apply Hplayer]].
    unfold commandJoinGame. rewrite Hh, Hstatus. cbn.
    now rewrite <- app_assoc.
  - exists (commandLeaveGame id h), []. eexists.
    split; [reflexivity|]. split; [|split; [reflexivity | apply Hplayer]].
    unfold commandLeaveGame. rewrite Hh. reflexivity.
Qed.

Lemma roster_broadcast_converges_witness :
  exists h' p',
    handleCommand (Leave "5e1f0001") samplePlayingHost [] = Some (h', []) /\
    handleCommand (Players (party_players (party h'))) sampleJoiner []
    = Some (p', []) /\
    party_players (party p') = party_players (party h').
Proof.
  destruct (roster_broadcast_converges samplePlayingHost sampleJoiner
              "5e1f0001" (Leave "5e1f0001") [] [])
    as (h' & before & p' & Hrun & _ & Hsync & Hroster).
  - reflexivity.
  - vm_compute. discriminate.
  - now right.
  - exists h', p'. auto.
Defined.

(* ------------------------------------------------------------------ *)
(** ** Role gating, election and joining *)
(* ------------------------------------------------------------------ *)

(** X14. A peer that is not host does nothing at all with the commands and
    clicks meant for the host: [hostidentify], [join], [leave] and [claim],
    and the start and reset buttons, leave its state as it was, send nothing
    and consume no draw. *)
Theorem player_ignores_host_commands (a : BingoApp) (e : Event)
  (draws : list spec_float) :
  party_role (party a) <> host ->
  (e = Deliver Hostidentify \/
   (exists id, e = Deliver (Join id)) \/
   (exists id, e = Deliver (Leave id)) \/
   (exists claimer gamecard, e = Deliver (Claim claimer gamecard)) \/
   e = ClickStart \/ e = ClickReset) ->
  handleEvent e a draws = Some (a, draws).
Proof.
  intros Hrole He.
  assert (Hplayer : party_role (party a) = player)
    by (destruct (party_role (party a)); [reflexivity | now contradiction Hrole]).
  destruct He as [->|[[id ->]|[[id ->]|[[claimer [gamecard ->]]|[->| ->]]]]];
    cbn [handleEvent handleCommand];
    unfold commandHostIdentify, commandJoinGame, commandLeaveGame,
      commandClaim, startGame, resetGame;
    rewrite Hplayer; reflexivity.
Qed.

Lemma player_ignores_host_commands_witness :
  handleEvent (Deliver (Claim "a1b2c3d4" [])) sampleJoiner []
  = Some (sampleJoiner, []).
Proof.
  apply player_ignores_host_commands.
  - vm_compute. discriminate.
  - right. right. right. left. now exists "a1b2c3d4"%string, [].
Defined.

(** X15. Once a peer has handled [iamhost], the announced peer is recorded as
    its host and the host-wait timeout it held is cancelled, so that firing
    that timer no longer promotes the peer; a peer still waiting to join
    sends one [join] with its own identity, any other peer sends nothing. *)
Theorem commandHostIdentified_cancels_election
  (a : BingoApp) (id : string) (h : nat) (draws : list spec_float) :
  hostWaitTimeout a = Some h ->
  exists a',
    handleCommand (Iamhost id) a draws = Some (a', draws) /\
    party_host (party a') = Some id /\
    party_role (party a') = party_role (party a) /\
    party_players (party a') = party_players (party a) /\
    pending h a' = None /\
    fireTimer h a' draws = Some (a', draws) /\
    sent (relay a')
    = (sent (relay a)
       ++ if waitingToJoin a then [Join (clientID (relay a))] else [])%list.
Proof.
  intros Hh.
  assert (Hstep : commandHostIdentified id a
                  = let b := clearTimer (Some h) (set_party_host (Some id) a) in
                    if waitingToJoin a then tryToJoinGame b else b).
  { unfold commandHostIdentified. cbn [hostWaitTimeout set_party_host set_party].
    now rewrite Hh. }
  assert (Hpending : pending h (commandHostIdentified id a) = None).
  { rewrite Hstep. cbv zeta.
    pose proof (pending_clearTimer h (set_party_host (Some id) a)) as Hp.
    destruct (waitingToJoin a); exact Hp. }
  eexists. split; [reflexivity|].
  split; [|split; [|split; [|split; [exact Hpending|split]]]].
  - rewrite Hstep. cbv zeta. destruct (waitingToJoin a); reflexivity.
  - rewrite Hstep. cbv zeta. destruct (waitingToJoin a); reflexivity.
  - rewrite Hstep. cbv zeta. destruct (waitingToJoin a); reflexivity.
  - unfold fireTimer. now rewrite Hpending.
  - rewrite Hstep. cbv zeta.
    destruct (waitingToJoin a); cbn; [reflexivity | now rewrite app_nil_r].
Qed.

Lemma commandHostIdentified_cancels_election_witness :
  exists a',
    handleCommand (Iamhost "a1b2c3d4") (newBingoApp "5e1f0001" (Number.dyadic 1 2)) []
    = Some (a', []) /\
    fireTimer 1 a' [] = Some (a', []) /\
    party_role (party a') = player.
Proof.
  destruct (commandHostIdentified_cancels_election
              (newBingoApp "5e1f0001" (Number.dyadic 1 2)) "a1b2c3d4" 1 [] eq_refl)
    as (a' & Hrun & _ & Hrole & _ & _ & Hfire & _).
  exists a'. split; [exact Hrun|]. split; [exact Hfire|].
  rewrite Hrole. reflexivity.
Defined.

(** X16. A [joined] addressed to the peer ends its joining: it is no longer
    waiting, the retry timeout it held is cancelled, and a later [hold]
    leaves it untouched.  A [joined] addressed to another peer changes
    nothing. *)
Theorem commandJoinedGame_addressed (a : BingoApp) (id : string)
  (draws : list spec_float) :
  (id = clientID (relay a) ->
   exists a',
     handleCommand (Joined id) a draws = Some (a', draws) /\
     waitingToJoin a' = false /\
     (forall h, gameWaitingTimeout a = Some h -> pending h a' = None) /\
     party a' = party a /\ game a' = game a /\ relay a' = relay a /\
     forall host_id, handleCommand (Hold host_id) a' draws = Some (a', draws)) /\
  (id <> clientID (relay a) ->
   handleCommand (Joined id) a draws = Some (a, draws)).
Proof.
  cbn [handleCommand]. unfold commandJoinedGame. split.
  - intros ->. rewrite String.eqb_refl. eexists. split; [reflexivity|].
    unfold clearTimeout. cbn [gameWaitingTimeout set_waitingToJoin].
    split; [|split; [|split; [|split; [|split]]]].
    + destruct (gameWaitingTimeout a); reflexivity.
    + intros h Hh. rewrite Hh. apply pending_clearTimer.
    + destruct (gameWaitingTimeout a); reflexivity.
    + destruct (gameWaitingTimeout a); reflexivity.
    + destruct (gameWaitingTimeout a); reflexivity.
    + intros host_id. unfold commandHold.
      destruct (gameWaitingTimeout a); reflexivity.
  - intros Hne. destruct (String.eqb_spec id (clientID (relay a)));
      [contradiction | reflexivity].
Qed.

Lemma commandJoinedGame_addressed_witness :
  (exists a',
     handleCommand (Joined "5e1f0001") (commandHold sampleJoiner) []
     = Some (a', []) /\
     waitingToJoin a' = false /\
     pending 3 a' = None) /\
  handleCommand (Joined "0badc0de") sampleJoiner [] = Some (sampleJoiner, []).
Proof.
  split.
  - destruct (proj1 (commandJoinedGame_addressed (commandHold sampleJoiner)
                       "5e1f0001" []) eq_refl)
      as (a' & Hrun & Hwait & Hpending & _).
    exists a'. split; [exact Hrun|]. split; [exact Hwait|].
    apply Hpending. reflexivity.
  - apply (proj2 (commandJoinedGame_addressed sampleJoiner "0badc0de" [])).
    vm_compute. discriminate.
Defined.

(* ------------------------------------------------------------------ *)
(** ** Timers *)
(* ------------------------------------------------------------------ *)

Lemma timers_fresh_clearTimer (handle : option nat) (a : BingoApp) :
  timers_fresh a -> timers_fresh (clearTimer handle a).
Proof.
  intros Hfresh. destruct handle as [id|]; [|assumption].
  intros t Ht. cbn in Ht. apply filter_In in Ht. cbn. now apply Hfresh.
Qed.

Lemma timers_fresh_schedule (repeats : bool) (callback : Callback)
  (delay : Z) (a : BingoApp) :
  timers_fresh a -> timers_fresh (snd (schedule repeats callback delay a)).
Proof.
  intros Hfresh t Ht. cbn in *. apply in_app_or in Ht.
  destruct Ht as [Ht|[<-|[]]]; [apply Hfresh in Ht; lia | cbn; lia].
Qed.

(** A timer that has just been registered is pending under its handle. *)
Lemma pending_schedule (repeats : bool) (callback : Callback) (delay : Z)
  (a : BingoApp) :
  timers_fresh a ->
  pending (nextTimerId a) (snd (schedule repeats callback delay a))
  = Some (mkTimer (nextTimerId a) callback delay repeats).
Proof.
  intros Hfresh. unfold pending, schedule. cbn.
  unfold timers_fresh in Hfresh.
  induction (timers a) as [|t ts IH]; cbn.
  - now rewrite Nat.eqb_refl.
  - destruct (Nat.eqb_spec (timer_id t) (nextTimerId a)) as [Heq|Hne].
    + specialize (Hfresh t (or_introl eq_refl)). lia.
    + apply IH. intros t' Ht'. apply Hfresh. now right.
Qed.

(** Cancelling the timer that was registered last undoes its registration. *)
Lemma clearTimer_schedule (repeats : bool) (callback : Callback) (delay : Z)
  (a : BingoApp) :
  timers_fresh a ->
  timers (clearTimer (Some (nextTimerId a))
            (snd (schedule repeats callback delay a)))
  = timers a.
Proof.
  intros Hfresh. cbn. rewrite filter_app. cbn. rewrite Nat.eqb_refl. cbn.
  rewrite app_nil_r. unfold timers_fresh in Hfresh.
  induction (timers a) as [|t ts IH]; [reflexivity|].
  cbn [filter]. destruct (Nat.eqb_spec (timer_id t) (nextTimerId a)) as [Heq|Hne].
  - specialize (Hfresh t (or_introl eq_refl)). lia.
  - cbn [negb]. f_equal. apply IH. intros t' Ht'. apply Hfresh. now right.
Qed.

(** X17. [startCalling] does not cancel a draw loop that is already
    running: once it has run twice (a [start] handled twice, or two invalid
    claims settled in a row), two draw intervals are pending, and
    [pauseCalling] cancels only the one registered last. *)
Theorem startCalling_twice_leaves_a_loop (a : BingoApp) :
  timers_fresh a ->
  let a2 := startCalling (startCalling a) in
  callingInterval a2 = Some (S (nextTimerId a)) /\
  pending (S (nextTimerId a)) (pauseCalling a2) = None /\
  pending (nextTimerId a) (pauseCalling a2)
  = Some (mkTimer (nextTimerId a) cb_callNumber 5000 true).
Proof.
  intros Hfresh a2. split; [reflexivity|]. split.
  - apply pending_clearTimer.
  - unfold pending, a2, pauseCalling, startCalling, clearInterval, setInterval,
      schedule. cbn. rewrite !filter_app. cbn.
    rewrite Nat.eqb_refl.
    destruct (Nat.eqb_spec (nextTimerId a) (S (nextTimerId a))); [lia|].
    cbn. rewrite app_nil_r. unfold timers_fresh in Hfresh.
    induction (timers a) as [|t ts IH]; cbn.
    + now rewrite Nat.eqb_refl.
    + destruct (Nat.eqb_spec (timer_id t) (S (nextTimerId a))); cbn.
      * apply IH. intros t' Ht'. apply Hfresh. now right.
      * destruct (Nat.eqb_spec (timer_id t) (nextTimerId a)) as [Heq|Hne].
        -- specialize (Hfresh t (or_introl eq_refl)). lia.
        -- apply IH. intros t' Ht'. apply Hfresh. now right.
Qed.

Lemma startCalling_twice_leaves_a_loop_witness :
  pending 3 (pauseCalling (startCalling (startCalling sampleHost)))
  = Some (mkTimer 3 cb_callNumber 5000 true).
Proof.
  apply (startCalling_twice_leaves_a_loop sampleHost).
  intros t Ht. vm_compute in Ht. destruct Ht as [<-|[]]. vm_compute. lia.
Defined.

(* ------------------------------------------------------------------ *)
(** ** Claim arbitration, from the claim to its outcome *)
(* ------------------------------------------------------------------ *)

Lemma includes_str_false (array : list string) (x : string) :
  ~ In x array -> includes_str array x = false.
Proof.
  intros Hnotin. destruct (includes_str array x) eqn:E; [|reflexivity].
  apply includes_str_In in E. contradiction.
Qed.

(** What the host is left with once it has handled a claim that it accepts
    to arbitrate. *)
Lemma commandClaim_arbitrated (a : BingoApp) (claimer : string)
  (gamecard : list Z) (u : spec_float) (draws : list spec_float) :
  party_role (party a) = host ->
  ~ In claimer (game_disqualified (game a)) ->
  handleCommand (Claim claimer gamecard) a (u :: draws)
  = Some (snd (schedule false
                 (if verifyClaim (game_called (game a)) gamecard
                  then cb_claimValid claimer else cb_claimInvalid claimer)
                 (generateRandomNumber
                    (if verifyClaim (game_called (game a)) gamecard
                     then 4 else 3)
                    (if verifyClaim (game_called (game a)) gamecard
                     then 8 else 6) u * 1000)
                 (on_relay (RelayM.claimMade claimer) (pauseCalling a))),
          draws).
Proof.
  intros Hrole Hdq. cbn [handleCommand]. unfold commandClaim.
  rewrite Hrole, (includes_str_false _ _ Hdq). cbn [Role_eqb negb andb].
  assert (Hcalled : game_called
                      (game (on_relay (RelayM.claimMade claimer)
                               (pauseCalling a)))
                    = game_called (game a)).
  { unfold pauseCalling, clearInterval, clearTimer.
    destruct (callingInterval a); reflexivity. }
  rewrite Hcalled. unfold setTimeout.
  destruct (verifyClaim (game_called (game a)) gamecard);
    destruct (schedule false _ _ _); reflexivity.
Qed.

(** X18. An invalid claim, from the claim to its outcome.  When the host has
    handled the claim of a peer that is not disqualified and whose card does
    not win, and the timeout it registered has fired, the host has sent
    [claimmade] and [claiminvalid] for the claimer, the claimer is
    disqualified, the called numbers are as before, and a new draw interval
    is pending under [callingInterval].  From then on a claim of the same
    peer has no effect. *)
Theorem invalid_claim_disqualifies (a : BingoApp) (claimer : string)
  (gamecard : list Z) (u : spec_float) (draws : list spec_float) :
  party_role (party a) = host ->
  ~ In claimer (game_disqualified (game a)) ->
  verifyClaim (game_called (game a)) gamecard = false ->
  timers_fresh a ->
  exists a',
    run [Deliver (Claim claimer gamecard); Fire (nextTimerId a)] a (u :: draws)
    = Some (a', draws) /\
    sent (relay a')
    = (sent (relay a) ++ [Claimmade claimer; Claiminvalid claimer])%list /\
    game_disqualified (game a')
    = (game_disqualified (game a) ++ [claimer])%list /\
    game_called (game a') = game_called (game a) /\
    game_status (game a') = game_status (game a) /\
    callingInterval a' = Some (S (nextTimerId a)) /\
    timers a'
    = (timers (pauseCalling a)
       ++ [mkTimer (S (nextTimerId a)) cb_callNumber 5000 true])%list /\
    forall card ds, handleCommand (Claim claimer card) a' ds = Some (a', ds).
Proof.
  intros Hrole Hdq Hinvalid Hfresh.
  set (b := on_relay (RelayM.claimMade claimer) (pauseCalling a)).
  assert (Hb : timers_fresh b)
    by (apply (timers_fresh_clearTimer (callingInterval a)); exact Hfresh).
  assert (Hnext : nextTimerId b = nextTimerId a).
  { unfold b, pauseCalling, clearInterval, clearTimer.
    destruct (callingInterval a); reflexivity. }
  pose proof (commandClaim_arbitrated a claimer gamecard u draws Hrole Hdq)
    as Hclaim.
  rewrite Hinvalid in Hclaim. fold b in Hclaim.
  set (delay := generateRandomNumber 3 6 u * 1000) in *.
  set (a1 := snd (schedule false (cb_claimInvalid claimer) delay b)) in *.
  assert (Hfire : fireTimer (nextTimerId a) a1 draws
                  = Some (claimInvalidOutcome claimer
                            (clearTimer (Some (nextTimerId a)) a1), draws)).
  { unfold fireTimer. rewrite <- Hnext. unfold a1.
    rewrite (pending_schedule false _ _ b Hb). reflexivity. }
  exists (claimInvalidOutcome claimer (clearTimer (Some (nextTimerId a)) a1)).
  split.
  { rewrite run_cons. cbn [handleEvent]. rewrite Hclaim.
    rewrite run_cons. cbn [handleEvent]. rewrite Hfire. reflexivity. }
  assert (Htimers : timers (clearTimer (Some (nextTimerId a)) a1)
                    = timers (pauseCalling a)).
  { rewrite <- Hnext. unfold a1. now rewrite clearTimer_schedule. }
  assert (Hrest : forall x : BingoApp,
             x = clearTimer (Some (nextTimerId a)) a1 ->
             relay x = RelayM.claimMade claimer (relay a) /\
             game x = game a /\ party x = party a /\
             nextTimerId x = S (nextTimerId a)).
  { intros x ->. unfold a1, b, pauseCalling, clearInterval, clearTimer.
    destruct (callingInterval a); cbn; auto. }
  destruct (Hrest _ eq_refl) as (Hrelay & Hgame & Hparty & Hid).
  revert Hrelay Hgame Hparty Hid Htimers. clear Hrest Hfire.
  generalize (clearTimer (Some (nextTimerId a)) a1).
  intros x Hrelay Hgame Hparty Hid Htimers.
  unfold claimInvalidOutcome, startCalling, setInterval, schedule.
  cbn. rewrite ?Hrelay, ?Hgame, ?Hparty, ?Hid, ?Htimers. cbn.
  split; [now rewrite <- app_assoc|]. split; [reflexivity|].
  split; [reflexivity|]. split; [reflexivity|]. split; [reflexivity|].
  split; [reflexivity|].
  intros card ds. unfold commandClaim. cbn.
  rewrite ?Hgame, ?Hparty, ?Hrole. cbn.
  assert (Hin : includes_str (game_disqualified (game a) ++ [claimer]) claimer
                = true).
  { apply includes_str_In. apply in_or_app. right. now left. }
  unfold includes_str in Hin. rewrite Hin. reflexivity.
Qed.

Lemma invalid_claim_disqualifies_witness :
  exists a',
    run [Deliver (Claim "5e1f0001" (map Z.of_nat (seq 26 25))); Fire 5]
      samplePlayingHost [Number.dyadic 1 1] = Some (a', []) /\
    game_disqualified (game a') = ["5e1f0001"%string] /\
    handleCommand (Claim "5e1f0001" (map Z.of_nat (seq 1 25))) a' []
    = Some (a', []).
Proof.
  destruct (invalid_claim_disqualifies samplePlayingHost "5e1f0001"
              (map Z.of_nat (seq 26 25)) (Number.dyadic 1 1) [])
    as (a' & Hrun & _ & Hdq & _ & _ & _ & _ & Hignored).
  - reflexivity.
  - vm_compute. tauto.
  - vm_compute. reflexivity.
  - intros t Ht. vm_compute in Ht.
    destruct Ht as [<-|[<-|[]]]; vm_compute; lia.
  - exists a'. split; [exact Hrun|]. split; [exact Hdq | apply Hignored].
Defined.

(** X19. A valid claim, from the claim to its outcome.  When the host has
    handled the claim of a peer that is not disqualified and whose card wins,
    and the timeout it registered has fired, the host has sent [claimmade]
    and [claimvalid] for the claimer; its game (status, called numbers,
    disqualified peers) and its party are as before, and the draw loop it
    paused is not started again. *)
Theorem valid_claim_announced (a : BingoApp) (claimer : string)
  (gamecard : list Z) (u : spec_float) (draws : list spec_float) :
  party_role (party a) = host ->
  ~ In claimer (game_disqualified (game a)) ->
  verifyClaim (game_called (game a)) gamecard = true ->
  timers_fresh a ->
  exists a',
    run [Deliver (Claim claimer gamecard); Fire (nextTimerId a)] a (u :: draws)
    = Some (a', draws) /\
    sent (relay a')
    = (sent (relay a) ++ [Claimmade claimer; Claimvalid claimer])%list /\
    game a' = game a /\
    party a' = party a /\
    timers a' = timers (pauseCalling a) /\
    callingInterval a' = callingInterval a /\
    forall h, callingInterval a = Some h -> pending h a' = None.
Proof.
  intros Hrole Hdq Hvalid Hfresh.
  set (b := on_relay (RelayM.claimMade claimer) (pauseCalling a)).
  assert (Hb : timers_fresh b)
    by (apply (timers_fresh_clearTimer (callingInterval a)); exact Hfresh).
  assert (Hnext : nextTimerId b = nextTimerId a).
  { unfold b, pauseCalling, clearInterval, clearTimer.
    destruct (callingInterval a); reflexivity. }
  pose proof (commandClaim_arbitrated a claimer gamecard u draws Hrole Hdq)
    as Hclaim.
  rewrite Hvalid in Hclaim. fold b in Hclaim.
  set (delay := generateRandomNumber 4 8 u * 1000) in *.
  set (a1 := snd (schedule false (cb_claimValid claimer) delay b)) in *.
  assert (Hfire : fireTimer (nextTimerId a) a1 draws
                  = Some (claimValidOutcome claimer
                            (clearTimer (Some (nextTimerId a)) a1), draws)).
  { unfold fireTimer. rewrite <- Hnext. unfold a1.
    rewrite (pending_schedule false _ _ b Hb). reflexivity. }
  exists (claimValidOutcome claimer (clearTimer (Some (nextTimerId a)) a1)).
  split.
  { rewrite run_cons. cbn [handleEvent]. rewrite Hclaim.
    rewrite run_cons. cbn [handleEvent]. rewrite Hfire. reflexivity. }
  assert (Htimers : timers (clearTimer (Some (nextTimerId a)) a1)
                    = timers (pauseCalling a)).
  { rewrite <- Hnext. unfold a1. now rewrite clearTimer_schedule. }
  assert (Hrest : forall x : BingoApp,
             x = clearTimer (Some (nextTimerId a)) a1 ->
             relay x = RelayM.claimMade claimer (relay a) /\
             game x = game a /\ party x = party a /\
             callingInterval x = callingInterval a).
  { intros x ->. unfold a1, b, pauseCalling, clearInterval, clearTimer.
    destruct (callingInterval a) eqn:E; cbn; rewrite ?E; auto. }
  destruct (Hrest _ eq_refl) as (Hrelay & Hgame & Hparty & Hhandle).
  revert Hrelay Hgame Hparty Hhandle Htimers. clear Hrest Hfire.
  generalize (clearTimer (Some (nextTimerId a)) a1).
  intros x Hrelay Hgame Hparty Hhandle Htimers.
  unfold claimValidOutcome. cbn. rewrite ?Hrelay, ?Hgame, ?Hparty, ?Htimers.
  split; [cbn; now rewrite <- app_assoc|]. split; [reflexivity|].
  split; [reflexivity|]. split; [reflexivity|]. split; [exact Hhandle|].
  intros h Hh. unfold pauseCalling, clearInterval. rewrite Hh.
  apply (pending_clearTimer h a).
Qed.

Lemma valid_claim_announced_witness :
  exists a',
    run [Deliver (Claim "a1b2c3d4" (map Z.of_nat (seq 1 25))); Fire 5]
      samplePlayingHost [Number.dyadic 7 3] = Some (a', []) /\
    game a' = game samplePlayingHost /\
    pending 4 a' = None.
Proof.
  destruct (valid_claim_announced samplePlayingHost "a1b2c3d4"
              (map Z.of_nat (seq 1 25)) (Number.dyadic 7 3) [])
    as (a' & Hrun & _ & Hgame & _ & _ & _ & Hpaused).
  - reflexivity.
  - vm_compute. tauto.
  - vm_compute. reflexivity.
  - intros t Ht. vm_compute in Ht.
    destruct Ht as [<-|[<-|[]]]; vm_compute; lia.
  - exists a'. split; [exact Hrun|]. split; [exact Hgame|].
    apply Hpaused. reflexivity.
Defined.

(** X20. Handling [claimvalid] changes what the page shows and nothing else:
    the reset button is enabled (on every peer, host or not), the class
    [finished] replaces [started], and the game, the party, the timers and
    the relay are as before.  The status stays what it was, so a host whose
    game was [playing] keeps answering [join] with [hold] until a reset. *)
Theorem commandClaimValid_keeps_game (a : BingoApp) (claimer : string)
  (draws : list spec_float) :
  exists a',
    handleCommand (Claimvalid claimer) a draws = Some (a', draws) /\
    game a' = game a /\ party a' = party a /\ timers a' = timers a /\
    relay a' = relay a /\
    resetButton_disabled (elements a') = false /\
    In "finished"%string (classList a') /\
    ~ In "started"%string (classList a') /\
    (party_role (party a) = host -> game_status (game a) = playing ->
     forall id,
       exists a'',
         handleCommand (Join id) a' draws = Some (a'', draws) /\
         party_players (party a'') = party_players (party a) /\
         sent (relay a'')
         = (sent (relay a) ++ [Hold (clientID (relay a))])%list).
Proof.
  eexists. split; [reflexivity|]. unfold commandClaimValid.
  set (b := classList_remove "started" a).
  assert (Hb : ~ In "started"%string (classList b)).
  { unfold b, classList_remove. cbn. intros Hin. apply filter_In in Hin.
    destruct Hin as [_ Hin]. now rewrite String.eqb_refl in Hin. }
  assert (Hframe : game b = game a /\ party b = party a /\
                   timers b = timers a /\ relay b = relay a)
    by (repeat split; reflexivity).
  destruct Hframe as (Hgame & Hparty & Htimers & Hrelay).
  clearbody b. unfold classList_add.
  destruct (existsb (String.eqb "finished") (classList b)) eqn:Hfin; cbn;
    rewrite ?Hgame, ?Hparty, ?Htimers, ?Hrelay;
    (split; [reflexivity|]); (split; [reflexivity|]);
    (split; [reflexivity|]); (split; [reflexivity|]);
    (split; [reflexivity|]); (split; [|split]).
  - apply existsb_exists in Hfin. destruct Hfin as [c [Hc Heq]].
    apply String.eqb_eq in Heq. now subst.
  - assumption.
  - intros Hrole Hstatus id. eexists. split; [reflexivity|].
    unfold commandJoinGame. cbn.
    rewrite ?Hgame, ?Hparty, ?Hrelay, ?Hrole, ?Hstatus.
    cbn. rewrite ?Hparty, ?Hrelay. split; reflexivity.
  - apply in_or_app. right. now left.
  - intros Hin. apply in_app_or in Hin.
    destruct Hin as [Hin|[Heq|[]]]; [contradiction | discriminate].
  - intros Hrole Hstatus id. eexists. split; [reflexivity|].
    unfold commandJoinGame. cbn.
    rewrite ?Hgame, ?Hparty, ?Hrelay, ?Hrole, ?Hstatus.
    cbn. rewrite ?Hparty, ?Hrelay. split; reflexivity.
Qed.

(* ------------------------------------------------------------------ *)
(** ** The constructor and the client identifier *)
(* ------------------------------------------------------------------ *)

(** X21. A peer that has just been constructed is a player with no host and
    an empty roster, waits to join, has sent [hostidentify] and nothing
    else, and has two timers pending: the host-wait timeout, of a whole
    number of milliseconds within [[5000, 8000]] (both bounds included), and
    the ready poll of 1000 ms.  Its game is the initial one and its three
    buttons are disabled. *)
Theorem newBingoApp_initial (id : string) (u : spec_float) :
  unit_interval u ->
  let a := newBingoApp id u in
  clientID (relay a) = id /\
  sent (relay a) = [Hostidentify] /\
  party a = mkParty None player [] /\
  game a = mkGame joining [] [] [] /\
  waitingToJoin a = true /\
  (exists delay,
     5000 <= delay <= 8000 /\
     timers a = [mkTimer 1 cb_possiblyAssumeHost delay false;
                 mkTimer 2 cb_getReady 1000 true]) /\
  hostWaitTimeout a = Some 1%nat /\
  getReadyInterval a = Some 2%nat /\
  startButton_disabled (elements a) = true /\
  resetButton_disabled (elements a) = true /\
  claimButton_disabled (elements a) = true.
Proof.
  intros Hu a.
  assert (Ha : a = set_getReadyInterval (Some 2%nat)
                 (set_timers
                    [mkTimer 1 cb_possiblyAssumeHost
                       (generateRandomNumber 5000 8000 u) false;
                     mkTimer 2 cb_getReady 1000 true] 3
                    (set_hostWaitTimeout (Some 1%nat)
                       (getCurrentHost
                          (setInitialState
                             (mkBingoApp (mkRelay id [])
                                (mkElements "" [] [] None false false false [])
                                [] (mkParty None player []) initialGame
                                true None None None None None [] 1))))))
    by reflexivity.
  clearbody a. subst a.
  generalize (generateRandomNumber_range 5000 8000 ltac:(lia)
              safe_range_5000_8000 u Hu).
  generalize (generateRandomNumber 5000 8000 u). intros delay Hdelay.
  repeat (split; [reflexivity|]).
  split; [exists delay; split; [exact Hdelay | reflexivity]|].
  repeat (split; [reflexivity|]). reflexivity.
Qed.

Lemma newBingoApp_initial_witness :
  timers samplePeer = [mkTimer 1 cb_possiblyAssumeHost 6500 false;
                       mkTimer 2 cb_getReady 1000 true] /\
  sent (relay samplePeer) = [Hostidentify].
Proof.
  destruct (newBingoApp_initial "a1b2c3d4" (Number.dyadic 1 1)) as (_ & Hsent & _).
  - repeat split.
  - split; [vm_compute; reflexivity | exact Hsent].
Defined.

(** X22. The client identifier reads back as the 32-bit value it was made
    from, so two different values never give the same identifier; it is
    never the empty string. *)
Theorem generateClientId_injective :
  (forall n, HexString.Raw.to_N (generateClientId n) 0 = n) /\
  (forall m n, generateClientId m = generateClientId n -> m = n) /\
  (forall n, generateClientId n <> ""%string).
Proof.
  assert (Hread : forall n, HexString.Raw.to_N (generateClientId n) 0 = n).
  { intros [|p]; [reflexivity|].
    unfold generateClientId, Number_toString16.
    now rewrite HexString.Raw.to_N_of_pos. }
  split; [exact Hread|]. split.
  - intros m n Heq. rewrite <- (Hread m), <- (Hread n). now rewrite Heq.
  - intros [|p] Hempty; [discriminate|].
    assert (Hzero : HexString.Raw.to_N (generateClientId (Npos p)) 0 = 0%N)
      by now rewrite Hempty.
    rewrite Hread in Hzero. discriminate.
Qed.

(* ------------------------------------------------------------------ *)
(** ** After the ninetieth number *)
(* ------------------------------------------------------------------ *)

(** X23. Once the called numbers of the host are the 90 numbers of
    [[1, 90]], a further draw tick never returns, whatever is drawn: a draw
    loop that is still running then hangs the peer. *)
Theorem callNumber_hangs_after_ninety (a : BingoApp) (draws : list spec_float) :
  Forall unit_interval draws ->
  called_ok (game_called (game a)) ->
  List.length (game_called (game a)) = 90%nat ->
  runCallback cb_callNumber a draws = None.
Proof.
  intros Hdraws Hok Hlen. cbn [runCallback].
  now apply callNumber_exhausted.
Qed.

Lemma callNumber_hangs_after_ninety_witness :
  List.length (game_called (game sampleExhaustedHost)) = 90%nat /\
  pending 4 sampleExhaustedHost = None /\
  runCallback cb_callNumber sampleExhaustedHost (ascending_draws 90 0 90)
  = None.
Proof.
  assert (Hcalled : game_called (game sampleExhaustedHost)
                    = map Z.of_nat (seq 1 90))
    by (vm_compute; reflexivity).
  split; [now rewrite Hcalled|]. split; [vm_compute; reflexivity|].
  apply callNumber_hangs_after_ninety.
  - apply ascending_draws_unit; simpl; lia.
  - rewrite Hcalled. split.
    + apply Injective_map_NoDup; [intros x y; lia | apply seq_NoDup].
    + apply Forall_forall. intros k Hk. apply in_map_iff in Hk.
      destruct Hk as [i [<- Hi]]. apply in_seq in Hi. unfold in_range. lia.
  - now rewrite Hcalled.
Defined.

(* ------------------------------------------------------------------ *)
(** ** What holds along every run of the event loop *)
(* ------------------------------------------------------------------ *)

(** The state a callback runs in, and the timer that runs it. *)
Lemma fireTimer_cases (id : nat) (a a' : BingoApp) (draws rest : list spec_float) :
  fireTimer id a draws = Some (a', rest) ->
  (pending id a = None /\ a' = a /\ rest = draws) \/
  (exists t b,
     In t (timers a) /\ timer_id t = id /\
     (b = a \/ b = clearTimer (Some id) a) /\
     runCallback (timer_callback t) b draws = Some (a', rest)).
Proof.
  unfold fireTimer. intros Hrun.
  destruct (pending id a) as [t|] eqn:Hpending.
  - right. unfold pending in Hpending. apply find_some in Hpending.
    destruct Hpending as [Hin Hid]. apply Nat.eqb_eq in Hid.
    exists t. eexists. split; [exact Hin|]. split; [exact Hid|].
    split; [|exact Hrun]. destruct (timer_repeats t); auto.
  - left. injection Hrun as <- <-. auto.
Qed.

(** The role and the identity of a peer along one event. *)
Ltac role_done := cbn; split; [reflexivity | congruence].

Lemma handleEvent_role_identity (e : Event) (a a' : BingoApp)
  (draws rest : list spec_float) :
  handleEvent e a draws = Some (a', rest) ->
  clientID (relay a') = clientID (relay a) /\
  (party_role (party a) = host -> party_role (party a') = host).
Proof.
  intros Hrun. destruct e as [command|id| | | |]; cbn [handleEvent] in Hrun.
  - destruct command; cbn [handleCommand] in Hrun;
      try (injection Hrun as <- <-).
    + unfold commandHostIdentify. break_conditions; role_done.
    + unfold commandHostIdentified, tryToJoinGame, clearTimeout, clearTimer.
      cbn. break_conditions; role_done.
    + unfold commandJoinGame. break_conditions; role_done.
    + unfold commandJoinedGame, clearTimeout, clearTimer.
      break_conditions; role_done.
    + unfold commandHold, clearTimeout, clearTimer, setTimeout, schedule.
      break_conditions; role_done.
    + unfold commandLeaveGame. break_conditions; role_done.
    + unfold commandUpdatePlayers. rewrite addPlayer_forEach.
      destruct (party_role (party a)) eqn:E; cbn; [|role_done].
      destruct players; role_done.
    + unfold commandStartGame, generateGameCard in Hrun.
      destruct (generateRandomNumbers 1 90 25 draws) as [[numbers draws']|];
        [|discriminate].
      unfold setTimeout, schedule in Hrun. cbv beta iota zeta in Hrun.
      match type of Hrun with
      | context [classList_add ?c ?b] =>
          destruct (classList_add_frame c b) as [l Hl]; rewrite Hl in Hrun
      end.
      revert Hrun.
      unfold clearInterval, clearTimer, startCalling, setInterval, schedule.
      destruct (getReadyInterval a); cbn;
        destruct (party_role (party a)) eqn:E;
        cbn; intros Hrun; injection Hrun as <- <-; role_done.
    + role_done.
    + unfold commandCall. break_conditions; role_done.
    + revert Hrun.
      unfold commandClaim, pauseCalling, clearInterval, clearTimer, setTimeout,
        schedule.
      destruct draws; cbn; break_conditions; cbn; intros Hrun;
        try discriminate; injection Hrun as <- <-; role_done.
    + role_done.
    + unfold commandClaimValid.
      destruct (classList_add_frame "finished"
                  (classList_remove "started" a)) as [l ->].
      cbn. auto.
    + role_done.
    + role_done.
  - apply fireTimer_cases in Hrun.
    destruct Hrun as [(_ & -> & _)|(t & b & _ & _ & Hb & Hrun)]; [role_done|].
    assert (Hframe : clientID (relay b) = clientID (relay a) /\
                     party_role (party b) = party_role (party a))
      by (destruct Hb as [->| ->]; split; reflexivity).
    destruct Hframe as [Hid Hrole]. rewrite <- Hid, <- Hrole.
    clear Hb Hid Hrole.
    destruct (timer_callback t); cbn [runCallback] in Hrun;
      try (injection Hrun as <- <-).
    + unfold possiblyAssumeHost. break_conditions; role_done.
    + unfold getReady, clearInterval, clearTimer. break_conditions; role_done.
    + role_done.
    + role_done.
    + revert Hrun. unfold callNumber, pauseCalling, clearInterval, clearTimer.
      destruct (generateRandomNumberNotAlreadyCalled 1 90
                  (game_called (game b)) draws) as [[number draws']|];
        [|discriminate].
      cbn. break_conditions; cbn; intros Hrun; injection Hrun as <- <-;
        role_done.
    + role_done.
    + role_done.
  - injection Hrun as <- <-. unfold startGame. break_conditions; role_done.
  - injection Hrun as <- <-. unfold resetGame. break_conditions; role_done.
  - injection Hrun as <- <-. role_done.
  - injection Hrun as <- <-. role_done.
Qed.

(** X24. Along any run of the event loop the identity of the peer never
    changes, and a host stays host: no command, timer or click demotes
    it. *)
Theorem run_role_identity (events : list Event) :
  forall (a a' : BingoApp) (draws rest : list spec_float),
    run events a draws = Some (a', rest) ->
    clientID (relay a') = clientID (relay a) /\
    (party_role (party a) = host -> party_role (party a') = host).
Proof.
  induction events as [|e events IH]; intros a a' draws rest Hrun.
  - injection Hrun as <- <-. auto.
  - rewrite run_cons in Hrun.
    destruct (handleEvent e a draws) as [[a1 draws1]|] eqn:Hstep;
      [|discriminate].
    destruct (handleEvent_role_identity e a a1 draws draws1 Hstep)
      as [Hid Hrole].
    destruct (IH a1 a' draws1 rest Hrun) as [Hid' Hrole'].
    split; [congruence | auto].
Qed.

Lemma run_role_identity_witness :
  clientID (relay samplePlayingHost) = clientID (relay sampleHost) /\
  party_role (party samplePlayingHost) = host.
Proof.
  destruct (run_role_identity
              [Deliver (Join "5e1f0001"); Deliver Start;
               Fire 4; Fire 4; Fire 4; Fire 4; Fire 4]
              sampleHost samplePlayingHost
              (ascending_draws 90 0 25 ++ ascending_draws 90 0 5)%list [])
    as [Hid Hrole].
  - vm_compute. reflexivity.
  - split; [exact Hid | apply Hrole; reflexivity].
Defined.

Ltac player_sent Hsent :=
  cbn; rewrite ?app_nil_r;
  first [ exact Hsent
        | apply Forall_app; split;
          [exact Hsent | constructor; [cbn; auto | constructor]] ].

Ltac player_timers Htimers :=
  let t := fresh "t" in
  let Ht := fresh "Ht" in
  intros t Ht; cbn in Ht;
  repeat match type of Ht with
    | In _ (_ ++ _) => apply in_app_or in Ht; destruct Ht as [Ht|Ht]
    end;
  try (apply filter_In in Ht; destruct Ht as [Ht _]);
  first [ now apply Htimers
        | destruct Ht as [<-|[]]; cbn; tauto ].

Ltac player_done Hsent Htimers Hstart :=
  split; [player_sent Hsent
         | split; [player_timers Htimers | first [reflexivity | exact Hstart]]].

Lemma handleEvent_player_inv (id : string) (e : Event) (a a' : BingoApp)
  (draws rest : list spec_float) :
  clientID (relay a) = id ->
  player_inv id a ->
  handleEvent e a draws = Some (a', rest) ->
  player_inv id a'.
Proof.
  intros Hid Hinv Hrun Hrole'.
  assert (Hrole : party_role (party a) = player).
  { destruct (handleEvent_role_identity e a a' draws rest Hrun) as [_ H].
    destruct (party_role (party a)); [reflexivity|].
    specialize (H eq_refl). congruence. }
  destruct (Hinv Hrole) as (Hsent & Htimers & Hstart). clear Hinv.
  destruct e as [command|timer| | | |]; cbn [handleEvent] in Hrun.
  - destruct command; cbn [handleCommand] in Hrun;
      try (injection Hrun as <- <-).
    + unfold commandHostIdentify. rewrite Hrole. cbn [Role_eqb].
      player_done Hsent Htimers Hstart.
    + unfold commandHostIdentified, tryToJoinGame, clearTimeout, clearTimer.
      cbn. rewrite ?Hid.
      break_conditions; player_done Hsent Htimers Hstart.
    + unfold commandJoinGame. rewrite Hrole. cbn [Role_eqb].
      player_done Hsent Htimers Hstart.
    + unfold commandJoinedGame, clearTimeout, clearTimer.
      break_conditions; player_done Hsent Htimers Hstart.
    + unfold commandHold, clearTimeout, clearTimer, setTimeout, schedule.
      break_conditions; player_done Hsent Htimers Hstart.
    + unfold commandLeaveGame. rewrite Hrole. cbn [Role_eqb].
      player_done Hsent Htimers Hstart.
    + unfold commandUpdatePlayers. rewrite addPlayer_forEach, Hrole.
      cbn [Role_eqb negb]. destruct players;
        player_done Hsent Htimers Hstart.
    + unfold commandStartGame, generateGameCard in Hrun.
      destruct (generateRandomNumbers 1 90 25 draws) as [[numbers draws']|];
        [|discriminate].
      unfold setTimeout, schedule in Hrun. cbv beta iota zeta in Hrun.
      match type of Hrun with
      | context [classList_add ?c ?b] =>
          destruct (classList_add_frame c b) as [l Hl]; rewrite Hl in Hrun
      end.
      clear Hl Hrole'. revert Hrun.
      unfold clearInterval, clearTimer, startCalling, setInterval, schedule.
      destruct (getReadyInterval a); cbn; rewrite Hrole; cbn;
        intros Hrun; injection Hrun as <- <-;
        player_done Hsent Htimers Hstart.
    + unfold commandResetGame, setInterval, schedule.
      player_done Hsent Htimers Hstart.
    + unfold commandCall. rewrite Hrole. cbn [Role_eqb negb].
      player_done Hsent Htimers Hstart.
    + unfold commandClaim in Hrun. rewrite Hrole in Hrun.
      cbn [Role_eqb andb] in Hrun. injection Hrun as <- <-.
      player_done Hsent Htimers Hstart.
    + player_done Hsent Htimers Hstart.
    + unfold commandClaimValid.
      destruct (classList_add_frame "finished"
                  (classList_remove "started" a)) as [l ->].
      player_done Hsent Htimers Hstart.
    + player_done Hsent Htimers Hstart.
    + player_done Hsent Htimers Hstart.
  - apply fireTimer_cases in Hrun.
    destruct Hrun as [(_ & -> & _)|(t & b & Hin & _ & Hb & Hrun)];
      [player_done Hsent Htimers Hstart|].
    pose proof (Htimers t Hin) as Hcallback.
    assert (Hframe : clientID (relay b) = id /\
                     party_role (party b) = player /\
                     Forall (player_message id) (sent (relay b)) /\
                     (forall t, In t (timers b) ->
                                ~ host_callback (timer_callback t)) /\
                     startButton_disabled (elements b) = true).
    { destruct Hb as [->| ->]; repeat (split; [assumption|]);
        try assumption.
      split; [player_timers Htimers | exact Hstart]. }
    clear Hid Hrole Hsent Htimers Hstart Hb Hin.
    destruct Hframe as (Hid & Hrole & Hsent & Htimers & Hstart).
    destruct (timer_callback t); cbn [runCallback] in Hrun;
      try (injection Hrun as <- <-);
      try (exfalso; apply Hcallback; exact I).
    + revert Hrole'. unfold possiblyAssumeHost.
      break_conditions; cbn; intros Hrole'; [discriminate|].
      player_done Hsent Htimers Hstart.
    + unfold getReady. cbn. rewrite Hrole. cbn.
      player_done Hsent Htimers Hstart.
    + unfold tryToJoinGame. cbn. rewrite ?Hid.
      player_done Hsent Htimers Hstart.
    + player_done Hsent Htimers Hstart.
  - injection Hrun as <- <-. unfold startGame. rewrite Hrole. cbn [Role_eqb].
    player_done Hsent Htimers Hstart.
  - injection Hrun as <- <-. unfold resetGame. rewrite Hrole. cbn [Role_eqb].
    player_done Hsent Htimers Hstart.
  - injection Hrun as <- <-. unfold lodgeClaim. cbn. rewrite ?Hid.
    player_done Hsent Htimers Hstart.
  - injection Hrun as <- <-. unfold leaveGame. cbn. rewrite ?Hid.
    player_done Hsent Htimers Hstart.
Qed.

Lemma newBingoApp_unfold (id : string) (u : spec_float) :
  newBingoApp id u
  = set_getReadyInterval (Some 2%nat)
      (set_timers
         [mkTimer 1 cb_possiblyAssumeHost (generateRandomNumber 5000 8000 u)
            false;
          mkTimer 2 cb_getReady 1000 true] 3
         (set_hostWaitTimeout (Some 1%nat)
            (getCurrentHost
               (setInitialState
                  (mkBingoApp (mkRelay id [])
                     (mkElements "" [] [] None false false false [])
                     [] (mkParty None player []) initialGame
                     true None None None None None [] 1))))).
Proof. reflexivity. Qed.

Lemma newBingoApp_player_inv (id : string) (u : spec_float) :
  clientID (relay (newBingoApp id u)) = id /\
  player_inv id (newBingoApp id u).
Proof.
  rewrite newBingoApp_unfold.
  generalize (generateRandomNumber 5000 8000 u). intros delay.
  split; [reflexivity|]. intros _. split; [|split; [|reflexivity]].
  - cbn. repeat constructor.
  - intros t Ht. cbn in Ht. destruct Ht as [<-|[<-|[]]]; cbn; tauto.
Qed.

Lemma run_player_inv (id : string) (events : list Event) :
  forall (a a' : BingoApp) (draws rest : list spec_float),
    clientID (relay a) = id ->
    player_inv id a ->
    run events a draws = Some (a', rest) ->
    player_inv id a'.
Proof.
  induction events as [|e events IH]; intros a a' draws rest Hid Hinv Hrun.
  - injection Hrun as <- <-. exact Hinv.
  - rewrite run_cons in Hrun.
    destruct (handleEvent e a draws) as [[a1 draws1]|] eqn:Hstep;
      [|discriminate].
    apply (IH a1 a' draws1 rest); [| |exact Hrun].
    + destruct (handleEvent_role_identity e a a1 draws draws1 Hstep)
        as [Hid1 _]. congruence.
    + eapply handleEvent_player_inv; eassumption.
Qed.

(** X25. Whatever a peer handles from the moment it is constructed, as long
    as it is a player everything it has sent is [hostidentify] or a [join],
    [leave] or [claim] that carries its own identity: it has announced no
    host, admitted or held nobody, broadcast no roster, called no number and
    judged no claim; and no draw tick or claim outcome is pending on it. *)
Theorem player_sends_only_its_own (id : string) (u : spec_float)
  (events : list Event) (a' : BingoApp) (draws rest : list spec_float) :
  run events (newBingoApp id u) draws = Some (a', rest) ->
  party_role (party a') = player ->
  Forall (player_message id) (sent (relay a')) /\
  forall t, In t (timers a') -> ~ host_callback (timer_callback t).
Proof.
  intros Hrun Hrole.
  destruct (newBingoApp_player_inv id u) as [Hid Hinv].
  destruct (run_player_inv id events _ a' draws rest Hid Hinv Hrun Hrole)
    as (Hsent & Htimers & _).
  auto.
Qed.

Lemma player_sends_only_its_own_witness :
  exists a',
    run [Deliver (Iamhost "a1b2c3d4"); Deliver (Hold "a1b2c3d4"); Fire 3;
         Deliver (Joined "5e1f0001"); Deliver Start; ClickClaim; BeforeUnload]
      (newBingoApp "5e1f0001" (Number.dyadic 1 2)) (ascending_draws 90 0 25)
    = Some (a', []) /\
    Forall (player_message "5e1f0001") (sent (relay a')).
Proof.
  assert (Hrun : exists a',
             run [Deliver (Iamhost "a1b2c3d4"); Deliver (Hold "a1b2c3d4");
                  Fire 3; Deliver (Joined "5e1f0001"); Deliver Start;
                  ClickClaim; BeforeUnload]
               (newBingoApp "5e1f0001" (Number.dyadic 1 2)) (ascending_draws 90 0 25)
             = Some (a', []) /\ party_role (party a') = player)
    by (eexists; split; vm_compute; reflexivity).
  destruct Hrun as [a' [Hrun Hrole]]. exists a'. split; [exact Hrun|].
  exact (proj1 (player_sends_only_its_own "5e1f0001" (Number.dyadic 1 2) _ a' _ []
                  Hrun Hrole)).
Defined.

(** X26. Whatever a peer handles from the moment it is constructed, its
    start button is enabled only if it is host. *)
Theorem start_button_only_on_host (id : string) (u : spec_float)
  (events : list Event) (a' : BingoApp) (draws rest : list spec_float) :
  run events (newBingoApp id u) draws = Some (a', rest) ->
  startButton_disabled (elements a') = false ->
  party_role (party a') = host.
Proof.
  intros Hrun Henabled.
  destruct (newBingoApp_player_inv id u) as [Hid Hinv].
  pose proof (run_player_inv id events _ a' draws rest Hid Hinv Hrun) as H.
  destruct (party_role (party a')) eqn:Hrole; [|reflexivity].
  destruct (H Hrole) as (_ & _ & Hdisabled). congruence.
Qed.

Lemma start_button_only_on_host_witness :
  exists a',
    run [Fire 1; Deliver (Join "5e1f0001"); Fire 2] samplePeer []
    = Some (a', []) /\
    startButton_disabled (elements a') = false /\
    party_role (party a') = host.
Proof.
  assert (Hrun : exists a',
             run [Fire 1; Deliver (Join "5e1f0001"); Fire 2] samplePeer []
             = Some (a', []) /\ startButton_disabled (elements a') = false)
    by (eexists; split; vm_compute; reflexivity).
  destruct Hrun as [a' [Hrun Henabled]]. exists a'.
  split; [exact Hrun|]. split; [exact Henabled|].
  exact (start_button_only_on_host "a1b2c3d4" (Number.dyadic 1 1) _ a' _ []
           Hrun Henabled).
Defined.

Ltac retry_timers Hinv :=
  let t := fresh "t" in
  let Ht := fresh "Ht" in
  let Hcb := fresh "Hcb" in
  intros t Ht Hcb; cbn in Ht |- *;
  repeat match type of Ht with
    | In _ (_ ++ _) => apply in_app_or in Ht; destruct Ht as [Ht|Ht]
    end;
  try (apply filter_In in Ht; destruct Ht as [Ht _]);
  first [ now apply Hinv
        | destruct Ht as [<-|[]]; cbn in Hcb; discriminate Hcb ].

Lemma handleEvent_retry_inv (e : Event) (a a' : BingoApp)
  (draws rest : list spec_float) :
  retry_inv a ->
  handleEvent e a draws = Some (a', rest) ->
  retry_inv a'.
Proof.
  intros Hinv Hrun.
  destruct e as [command|timer| | | |]; cbn [handleEvent] in Hrun.
  - destruct command; cbn [handleCommand] in Hrun;
      try (injection Hrun as <- <-).
    + unfold commandHostIdentify. break_conditions; retry_timers Hinv.
    + unfold commandHostIdentified, tryToJoinGame, clearTimeout, clearTimer.
      cbn. break_conditions; retry_timers Hinv.
    + unfold commandJoinGame. break_conditions; retry_timers Hinv.
    + unfold commandJoinedGame, clearTimeout, clearTimer.
      break_conditions; retry_timers Hinv.
    + unfold commandHold, clearTimeout, clearTimer, setTimeout, schedule.
      destruct (waitingToJoin a); [|exact Hinv].
      cbn [gameWaitingTimeout set_status_innerText set_elements].
      destruct (gameWaitingTimeout a) as [h|] eqn:Hh;
        intros t Ht Hcb; cbn in Ht |- *;
        apply in_app_or in Ht; destruct Ht as [Ht|[<-|[]]];
        try reflexivity.
      * apply filter_In in Ht. destruct Ht as [Ht Hne].
        pose proof (Hinv t Ht Hcb) as Hsame. rewrite Hh in Hsame.
        injection Hsame as ->. rewrite Nat.eqb_refl in Hne. discriminate.
      * pose proof (Hinv t Ht Hcb) as Hsame. rewrite Hh in Hsame.
        discriminate.
    + unfold commandLeaveGame. break_conditions; retry_timers Hinv.
    + unfold commandUpdatePlayers. rewrite addPlayer_forEach.
      destruct (party_role (party a)); cbn; [|exact Hinv].
      destruct players; retry_timers Hinv.
    + unfold commandStartGame, generateGameCard in Hrun.
      destruct (generateRandomNumbers 1 90 25 draws) as [[numbers draws']|];
        [|discriminate].
      unfold setTimeout, schedule in Hrun. cbv beta iota zeta in Hrun.
      match type of Hrun with
      | context [classList_add ?c ?b] =>
          destruct (classList_add_frame c b) as [l Hl]; rewrite Hl in Hrun
      end.
      clear Hl. revert Hrun.
      unfold clearInterval, clearTimer, startCalling, setInterval, schedule.
      destruct (getReadyInterval a); cbn; destruct (party_role (party a));
        cbn; intros Hrun; injection Hrun as <- <-; retry_timers Hinv.
    + unfold commandResetGame, setInterval, schedule. retry_timers Hinv.
    + unfold commandCall. break_conditions; retry_timers Hinv.
    + revert Hrun.
      unfold commandClaim, pauseCalling, clearInterval, clearTimer, setTimeout,
        schedule.
      destruct draws; cbn; break_conditions; cbn; intros Hrun;
        try discriminate; injection Hrun as <- <-; retry_timers Hinv.
    + retry_timers Hinv.
    + unfold commandClaimValid.
      destruct (classList_add_frame "finished"
                  (classList_remove "started" a)) as [l ->].
      retry_timers Hinv.
    + retry_timers Hinv.
    + exact Hinv.
  - apply fireTimer_cases in Hrun.
    destruct Hrun as [(_ & -> & _)|(t & b & _ & _ & Hb & Hrun)];
      [exact Hinv|].
    assert (Hinvb : retry_inv b)
      by (destruct Hb as [->| ->]; [exact Hinv | retry_timers Hinv]).
    clear Hinv Hb.
    destruct (timer_callback t); cbn [runCallback] in Hrun;
      try (injection Hrun as <- <-).
    + unfold possiblyAssumeHost. break_conditions; retry_timers Hinvb.
    + unfold getReady, clearInterval, clearTimer.
      break_conditions; retry_timers Hinvb.
    + retry_timers Hinvb.
    + retry_timers Hinvb.
    + revert Hrun. unfold callNumber, pauseCalling, clearInterval, clearTimer.
      destruct (generateRandomNumberNotAlreadyCalled 1 90
                  (game_called (game b)) draws) as [[number draws']|];
        [|discriminate].
      cbn. break_conditions; cbn; intros Hrun; injection Hrun as <- <-;
        retry_timers Hinvb.
    + retry_timers Hinvb.
    + unfold claimInvalidOutcome, startCalling, setInterval, schedule.
      retry_timers Hinvb.
  - injection Hrun as <- <-. unfold startGame.
    break_conditions; retry_timers Hinv.
  - injection Hrun as <- <-. unfold resetGame.
    break_conditions; retry_timers Hinv.
  - injection Hrun as <- <-. retry_timers Hinv.
  - injection Hrun as <- <-. retry_timers Hinv.
Qed.

(** X27. Whatever a peer handles from the moment it is constructed, every
    pending join-retry timeout is the one whose handle the peer keeps in
    [gameWaitingTimeout]: [hold] cancels the previous retry before it
    registers a new one, so retries never pile up and the next [hold] or
    [joined] cancels the one that is pending. *)
Theorem join_retry_never_orphaned (id : string) (u : spec_float)
  (events : list Event) (a' : BingoApp) (draws rest : list spec_float) :
  run events (newBingoApp id u) draws = Some (a', rest) ->
  forall t, In t (timers a') -> timer_callback t = cb_tryToJoinGame ->
            gameWaitingTimeout a' = Some (timer_id t).
Proof.
  assert (Hrun : forall events a a' draws rest,
             retry_inv a -> run events a draws = Some (a', rest) ->
             retry_inv a').
  { clear. induction events as [|e events IH];
      intros a a' draws rest Hinv Hrun.
    - injection Hrun as <- <-. exact Hinv.
    - rewrite run_cons in Hrun.
      destruct (handleEvent e a draws) as [[a1 draws1]|] eqn:Hstep;
        [|discriminate].
      apply (IH a1 a' draws1 rest); [|exact Hrun].
      eapply handleEvent_retry_inv; eassumption. }
  intros Hevents. apply (Hrun events (newBingoApp id u) a' draws rest);
    [|exact Hevents].
  rewrite newBingoApp_unfold.
  generalize (generateRandomNumber 5000 8000 u). intros delay.
  intros t Ht Hcb. cbn in Ht.
  destruct Ht as [<-|[<-|[]]]; cbn in Hcb; discriminate Hcb.
Qed.

Lemma join_retry_never_orphaned_witness :
  exists a',
    run [Deliver (Iamhost "a1b2c3d4"); Deliver (Hold "a1b2c3d4");
         Deliver (Hold "a1b2c3d4"); Deliver (Hold "a1b2c3d4")]
      (newBingoApp "5e1f0001" (Number.dyadic 1 2)) []
    = Some (a', []) /\
    timers_running cb_tryToJoinGame a'
    = [mkTimer 5 cb_tryToJoinGame 5000 false] /\
    gameWaitingTimeout a' = Some 5%nat.
Proof.
  assert (Hrun : exists a',
             run [Deliver (Iamhost "a1b2c3d4"); Deliver (Hold "a1b2c3d4");
                  Deliver (Hold "a1b2c3d4"); Deliver (Hold "a1b2c3d4")]
               (newBingoApp "5e1f0001" (Number.dyadic 1 2)) []
             = Some (a', []) /\
             timers_running cb_tryToJoinGame a'
             = [mkTimer 5 cb_tryToJoinGame 5000 false])
    by (eexists; split; vm_compute; reflexivity).
  destruct Hrun as [a' [Hrun Htimers]]. exists a'.
  split; [exact Hrun|]. split; [exact Htimers|].
  apply (join_retry_never_orphaned "5e1f0001" (Number.dyadic 1 2) _ a' _ [] Hrun
           (mkTimer 5 cb_tryToJoinGame 5000 false)); [|reflexivity].
  assert (Hin : In (mkTimer 5 cb_tryToJoinGame 5000 false)
                  (timers_running cb_tryToJoinGame a'))
    by (rewrite Htimers; now left).
  unfold timers_running in Hin. apply filter_In in Hin. tauto.
Defined.

(* ------------------------------------------------------------------ *)
(** ** The ready poll *)
(* ------------------------------------------------------------------ *)

(** X28. A tick of the ready poll enables the start button exactly when the
    peer is host, its game is not [playing] and its roster holds at least two
    players; it then shows "Ready to start" and cancels the poll, so that a
    [leave] handled afterwards, whatever it leaves of the roster, does not
    disable the button again.  In every other case the tick shows "Waiting
    for players..." and leaves the button and the timers as they were.  The
    game, the party and the relay are never touched. *)
Theorem getReady_enables_start (a : BingoApp) (draws : list spec_float) :
  exists a',
    runCallback cb_getReady a draws = Some (a', draws) /\
    game a' = game a /\ party a' = party a /\ relay a' = relay a /\
    ((party_role (party a) = host /\ game_status (game a) <> playing /\
      (2 <= List.length (party_players (party a)))%nat) ->
     startButton_disabled (elements a') = false /\
     status_innerText (elements a') = "Ready to start"%string /\
     (forall g, getReadyInterval a = Some g -> pending g a' = None) /\
     forall id a'',
       handleCommand (Leave id) a' draws = Some (a'', draws) ->
       startButton_disabled (elements a'') = false) /\
    (~ (party_role (party a) = host /\ game_status (game a) <> playing /\
        (2 <= List.length (party_players (party a)))%nat) ->
     startButton_disabled (elements a') = startButton_disabled (elements a) /\
     status_innerText (elements a') = "Waiting for players..."%string /\
     timers a' = timers a).
Proof.
  eexists. split; [reflexivity|]. unfold getReady.
  cbn [party game set_status_innerText set_elements].
  destruct (party_role (party a)) eqn:Hrole; cbn [Role_eqb andb].
  - repeat (split; [reflexivity|]). split.
    + intros [Hhost _]. discriminate.
    + intros _. repeat split; reflexivity.
  - destruct (game_status (game a)) eqn:Hstatus; cbn [Status_eqb negb andb].
    + destruct (Nat.ltb_spec 1 (List.length (party_players (party a))))
        as [Hmany|Hfew].
      * unfold clearInterval.
        cbn [getReadyInterval set_startButton_disabled set_status_innerText
             set_elements].
        assert (Hframe : forall h b,
                   game (clearTimer h b) = game b /\
                   party (clearTimer h b) = party b /\
                   relay (clearTimer h b) = relay b /\
                   elements (clearTimer h b) = elements b)
          by (intros [h|] b; repeat split; reflexivity).
        match goal with
        | |- context [clearTimer ?h ?b] =>
            destruct (Hframe h b) as (Hgame & Hparty & Hrelay & Helements)
        end.
        rewrite Hgame, Hparty, Hrelay, Helements. cbn.
        repeat (split; [reflexivity|]). split.
        -- intros _. split; [reflexivity|]. split; [reflexivity|]. split.
           ++ intros g Hg. rewrite Hg. apply pending_clearTimer.
           ++ intros id a'' Hleave. cbn [handleCommand] in Hleave.
              injection Hleave as <-. unfold commandLeaveGame.
              rewrite Hparty. cbn. rewrite Hrole. cbn.
              now rewrite Helements.
        -- intros Hnot. exfalso. apply Hnot.
           split; [reflexivity|]. split; [discriminate | lia].
      * repeat (split; [reflexivity|]). split.
        -- intros (_ & _ & Hmany). lia.
        -- intros _. repeat split; reflexivity.
    + repeat (split; [reflexivity|]). split.
      * intros (_ & Hplaying & _). now contradiction Hplaying.
      * intros _. repeat split; reflexivity.
Qed.

Lemma getReady_enables_start_witness :
  exists a' a'',
    run [Deliver (Join "5e1f0001"); Fire 2] sampleHost [] = Some (a', []) /\
    startButton_disabled (elements a') = false /\
    handleCommand (Leave "5e1f0001") a' [] = Some (a'', []) /\
    party_players (party a'') = ["a1b2c3d4"%string] /\
    startButton_disabled (elements a'') = false.
Proof.
  destruct (getReady_enables_start (commandJoinGame "5e1f0001" sampleHost) [])
    as (a' & Htick & _ & _ & _ & Hready & _).
  destruct Hready as (Henabled & _ & _ & Hleave).
  - split; [reflexivity|]. split; [discriminate | vm_compute; lia].
  - exists a'. eexists. split; [|split; [exact Henabled|]].
    + cbn [runCallback] in Htick. injection Htick as <-.
      vm_compute. reflexivity.
    + split; [reflexivity|]. split.
      * cbn [runCallback] in Htick. injection Htick as <-.
        vm_compute. reflexivity.
      * apply (Hleave "5e1f0001"%string). reflexivity.
Defined.
